(** * The perspective bar of react-flexible-workbench

    A shallow embedding of [src/perspectives/bar.tsx] (the [PerspectiveBar]
    component) and of [src/perspectives/perspective.ts] (the [IPerspective]
    interface), with the properties the specification states about them
    and further properties that the code itself shows.

    The component is event driven: React lifecycle calls, clicks, the
    notifications of the storage and of the workbench, and the settling of
    the promises it awaits.  Every [async] function of the source is cut at
    its [await]s: the part before an [await] is one function, the suspended
    rest is a value of type [Await] that remembers the captured locals, and
    a [_resume] function is the part that runs when the promise settles. *)

From Stdlib Require Import ZArith Lia.
From stdpp Require Import base option list strings gmap.

Local Open Scope string_scope.
Local Set Warnings "-register-all".

(** ** Workbench states

    [IWorkbenchState] is declared in [src/types]; the bar treats it as an
    opaque serialisable value.  It is taken here as a JSON-like tree
    (numbers as integers). *)

Inductive Json : Type :=
| JNull
| JBool (b : bool)
| JNum (n : Z)
| JStr (s : string)
| JArr (items : list Json)
| JObj (fields : list (string * Json)).

Definition IWorkbenchState : Type := Json.

Section JsonInd.
Variable P : Json → Prop.
Hypothesis HNull : P JNull.
Hypothesis HBool : ∀ b, P (JBool b).
Hypothesis HNum : ∀ n, P (JNum n).
Hypothesis HStr : ∀ s, P (JStr s).
Hypothesis HArr : ∀ items, Forall P items → P (JArr items).
Hypothesis HObj : ∀ fields, Forall (λ kv, P kv.2) fields → P (JObj fields).

Fixpoint Json_deep_ind (j : Json) : P j :=
  match j with
  | JNull => HNull
  | JBool b => HBool b
  | JNum n => HNum n
  | JStr s => HStr s
  | JArr items =>
      HArr items
        ((fix go (l : list Json) : Forall P l :=
            match l with
            | [] => List.Forall_nil _
            | x :: l' => List.Forall_cons _ x l' (Json_deep_ind x) (go l')
            end) items)
  | JObj fields =>
      HObj fields
        ((fix go (l : list (string * Json)) : Forall (λ kv, P kv.2) l :=
            match l with
            | [] => List.Forall_nil _
            | kv :: l' =>
                List.Forall_cons (λ kv, P kv.2) kv l' (Json_deep_ind kv.2) (go l')
            end) fields)
  end.
End JsonInd.

(** Structural (deep) equality of two values. *)
Fixpoint json_eqb (a b : Json) {struct a} : bool :=
  match a, b with
  | JNull, JNull => true
  | JBool x, JBool y => Bool.eqb x y
  | JNum x, JNum y => Z.eqb x y
  | JStr x, JStr y => String.eqb x y
  | JArr xs, JArr ys =>
      (fix go (xs ys : list Json) : bool :=
         match xs, ys with
         | [], [] => true
         | x :: xs', y :: ys' => json_eqb x y && go xs' ys'
         | _, _ => false
         end) xs ys
  | JObj fs, JObj gs =>
      (fix go (fs gs : list (string * Json)) : bool :=
         match fs, gs with
         | [], [] => true
         | (k, x) :: fs', (l, y) :: gs' =>
             String.eqb k l && json_eqb x y && go fs' gs'
         | _, _ => false
         end) fs gs
  | _, _ => false
  end.

(** The value of a field of an object: the first entry with that key. *)
Fixpoint assoc (k : string) (fs : list (string * Json)) : option Json :=
  match fs with
  | [] => None
  | (k', v) :: fs' => if String.eqb k k' then Some v else assoc k fs'
  end.

Definition option_json_eqb (x y : option Json) : bool :=
  match x, y with
  | Some a, Some b => json_eqb a b
  | None, None => true
  | _, _ => false
  end.

Definition selectionKey : string := "selection".

(** Modelled from the spec: [areWorkbenchStatesEqualIgnoringSelection] of
    [src/perspectives/compare.ts], which [bar.tsx] imports and whose source
    is missing.  Section 4.1 of the specification: the selection sub-field
    (here the top-level key "selection") is excluded from the comparison,
    every other field is compared structurally, and a malformed state
    (here: a value that is not an object) compares unequal. *)
Definition areWorkbenchStatesEqualIgnoringSelection
    (a b : IWorkbenchState) : bool :=
  match a, b with
  | JObj fa, JObj fb =>
      forallb
        (λ k, String.eqb k selectionKey
              || option_json_eqb (assoc k fa) (assoc k fb))
        (map fst fa ++ map fst fb)
  | _, _ => false
  end.

(** ** Perspectives ([src/perspectives/perspective.ts]) *)

Module Perspective.
Record t : Type := mk {
  color : option string;
  state : IWorkbenchState;
  icon : option string;
  label : string
}.
End Perspective.
Abbreviation IPerspective := Perspective.t.

(** ** The collaborators

    The storage and the workbench are objects that the bar holds by
    reference and compares with [===]; a reference is a number here. *)

Definition IPerspectiveStorage : Type := nat.
Definition Workbench : Type := nat.

(** ** Props and state of the component *)

Module Props.
(** [selectedPerspectiveId] is [None] when the props object has no such
    own property (uncontrolled), [Some v] when it has, [v] being the
    possibly undefined value. *)
Record t : Type := mk {
  errorMessage : option string;
  onChange : option (string → bool);
  selectedPerspectiveId : option (option string);
  storage : option IPerspectiveStorage;
  workbench : option Workbench
}.
End Props.
Abbreviation IPerspectiveBarProps := Props.t.

Module State.
Record t : Type := mk {
  counter : Z;
  error : bool;
  perspectives : option (list (string * IPerspective));
  promise : option nat;
  selectedPerspectiveId : option string
}.
End State.
Abbreviation IPerspectiveBarState := State.t.

(** One key of the object literal handed to [setState]. *)
Inductive Assign : Type :=
| counter_ (v : Z)
| error_ (v : bool)
| perspectives_ (v : option (list (string * IPerspective)))
| promise_ (v : option nat)
| selectedPerspectiveId_ (v : option string).

Definition assign (s : IPerspectiveBarState) (a : Assign) : IPerspectiveBarState :=
  match a with
  | counter_ v =>
      State.mk v (State.error s) (State.perspectives s) (State.promise s)
        (State.selectedPerspectiveId s)
  | error_ v =>
      State.mk (State.counter s) v (State.perspectives s) (State.promise s)
        (State.selectedPerspectiveId s)
  | perspectives_ v =>
      State.mk (State.counter s) (State.error s) v (State.promise s)
        (State.selectedPerspectiveId s)
  | promise_ v =>
      State.mk (State.counter s) (State.error s) (State.perspectives s) v
        (State.selectedPerspectiveId s)
  | selectedPerspectiveId_ v =>
      State.mk (State.counter s) (State.error s) (State.perspectives s)
        (State.promise s) v
  end.

(** Merging one [setState] payload into a state. *)
Definition merge (s : IPerspectiveBarState) (payload : list Assign)
    : IPerspectiveBarState :=
  foldl assign s payload.

(** ** What the bar does to the outside *)

Inductive Effect : Type :=
| console_warn (message : string)
| storage_map (s : IPerspectiveStorage)
| storage_load (s : IPerspectiveStorage) (id : string)
| storage_save (s : IPerspectiveStorage) (perspective : IPerspective)
| storage_update (s : IPerspectiveStorage) (id : string) (st : IWorkbenchState)
| storage_persistModifications (s : IPerspectiveStorage) (id : string)
| storage_revertModifications (s : IPerspectiveStorage) (id : string)
| storage_subscribe (s : IPerspectiveStorage)
| storage_unsubscribe (s : IPerspectiveStorage)
| workbench_restoreState (w : Workbench) (st : IWorkbenchState)
| workbench_on (w : Workbench)
| workbench_off (w : Workbench)
| environment_confirm (w : Workbench) (message : string)
| environment_onCreatingNewPerspective (w : Workbench) (perspective : IPerspective)
| props_onChange (id : string).

(** ** Suspended [async] functions

    One constructor per [await] of the source, with the locals that the
    rest of the function still reads. *)

Inductive Await : Type :=
| await_map
| await_load (id : string)
| await_confirm (storage : IPerspectiveStorage) (selectedPerspectiveId : string)
| await_revertModifications (selectedPerspectiveId : string)
| await_onCreatingNewPerspective (perspective : IPerspective)
| await_save (perspective : IPerspective)
| await_update (storage : IPerspectiveStorage) (selectedPerspectiveId : string)
    (newState : IWorkbenchState) (persist : bool)
| await_persistModifications.

(** How an awaited promise settles.  [drafted] carries the draft as the
    environment left it: [onCreatingNewPerspective] receives the very
    object that the bar goes on to save, and may fill in its label. *)
Inductive Reply : Type :=
| enumerated (newPerspectives : list (string * IPerspective))
| loaded (perspective : IPerspective)
| confirmed (confirmation : bool)
| drafted (confirmation : bool) (perspective : IPerspective)
| saved (id : string)
| fulfilled
| rejected.

(** ** The component instance and its surroundings *)

Record World : Type := mkWorld {
  (* the React component *)
  props : IPerspectiveBarProps;
  state : IPerspectiveBarState;
  updates : list (list Assign);
  mounted : bool;
  _ignoreStateChangeCounter : Z;
  _lastState : option IWorkbenchState;
  _storage : option IPerspectiveStorage;
  _workbench : option Workbench;
  (* the collaborators *)
  layout : Workbench → IWorkbenchState;
  restored : IWorkbenchState → IWorkbenchState;
  isModified : IPerspectiveStorage → string → bool;
  (* the run so far *)
  trace : list Effect;
  awaiting : gmap nat Await;
  next : nat
}.

Definition set_props v (w : World) : World :=
  mkWorld v (state w) (updates w) (mounted w) (_ignoreStateChangeCounter w)
    (_lastState w) (_storage w) (_workbench w) (layout w) (restored w)
    (isModified w) (trace w) (awaiting w) (next w).
Definition set_state v (w : World) : World :=
  mkWorld (props w) v (updates w) (mounted w) (_ignoreStateChangeCounter w)
    (_lastState w) (_storage w) (_workbench w) (layout w) (restored w)
    (isModified w) (trace w) (awaiting w) (next w).
Definition set_updates v (w : World) : World :=
  mkWorld (props w) (state w) v (mounted w) (_ignoreStateChangeCounter w)
    (_lastState w) (_storage w) (_workbench w) (layout w) (restored w)
    (isModified w) (trace w) (awaiting w) (next w).
Definition set_mounted v (w : World) : World :=
  mkWorld (props w) (state w) (updates w) v (_ignoreStateChangeCounter w)
    (_lastState w) (_storage w) (_workbench w) (layout w) (restored w)
    (isModified w) (trace w) (awaiting w) (next w).
Definition set__ignoreStateChangeCounter v (w : World) : World :=
  mkWorld (props w) (state w) (updates w) (mounted w) v
    (_lastState w) (_storage w) (_workbench w) (layout w) (restored w)
    (isModified w) (trace w) (awaiting w) (next w).
Definition set__lastState v (w : World) : World :=
  mkWorld (props w) (state w) (updates w) (mounted w)
    (_ignoreStateChangeCounter w) v (_storage w) (_workbench w) (layout w)
    (restored w) (isModified w) (trace w) (awaiting w) (next w).
Definition set__storage v (w : World) : World :=
  mkWorld (props w) (state w) (updates w) (mounted w)
    (_ignoreStateChangeCounter w) (_lastState w) v (_workbench w) (layout w)
    (restored w) (isModified w) (trace w) (awaiting w) (next w).
Definition set__workbench v (w : World) : World :=
  mkWorld (props w) (state w) (updates w) (mounted w)
    (_ignoreStateChangeCounter w) (_lastState w) (_storage w) v (layout w)
    (restored w) (isModified w) (trace w) (awaiting w) (next w).
Definition set_layout v (w : World) : World :=
  mkWorld (props w) (state w) (updates w) (mounted w)
    (_ignoreStateChangeCounter w) (_lastState w) (_storage w) (_workbench w) v
    (restored w) (isModified w) (trace w) (awaiting w) (next w).
Definition set_isModified v (w : World) : World :=
  mkWorld (props w) (state w) (updates w) (mounted w)
    (_ignoreStateChangeCounter w) (_lastState w) (_storage w) (_workbench w)
    (layout w) (restored w) v (trace w) (awaiting w) (next w).
Definition set_trace v (w : World) : World :=
  mkWorld (props w) (state w) (updates w) (mounted w)
    (_ignoreStateChangeCounter w) (_lastState w) (_storage w) (_workbench w)
    (layout w) (restored w) (isModified w) v (awaiting w) (next w).
Definition set_awaiting v (w : World) : World :=
  mkWorld (props w) (state w) (updates w) (mounted w)
    (_ignoreStateChangeCounter w) (_lastState w) (_storage w) (_workbench w)
    (layout w) (restored w) (isModified w) (trace w) v (next w).
Definition set_next v (w : World) : World :=
  mkWorld (props w) (state w) (updates w) (mounted w)
    (_ignoreStateChangeCounter w) (_lastState w) (_storage w) (_workbench w)
    (layout w) (restored w) (isModified w) (trace w) (awaiting w) v.

(** ** Running a piece of the source

    A synchronous stretch of code transforms the world and either returns
    or throws; what it did before throwing stays done. *)

Inductive Exn : Type := TypeError | Rejection.

Inductive Outcome (A : Type) : Type :=
| Returned (a : A)
| Threw (e : Exn).
Arguments Returned {A} a.
Arguments Threw {A} e.

Definition M (A : Type) : Type := World → Outcome A * World.

#[export] Instance M_ret : MRet M := λ A a w, (Returned a, w).
#[export] Instance M_bind : MBind M := λ A B f m w,
  match m w with
  | (Returned a, w') => f a w'
  | (Threw e, w') => (Threw e, w')
  end.

Definition this {A : Type} (field : World → A) : M A :=
  λ w, (Returned (field w), w).
Definition store (f : World → World) : M unit :=
  λ w, (Returned tt, f w).
Definition throw {A : Type} (e : Exn) : M A :=
  λ w, (Threw e, w).
Definition skip : M unit := mret tt.

(** [setState]: React queues the payload and merges it when the running
    handler is over; an update of an unmounted component is dropped. *)
Definition setState (payload : list Assign) : M unit :=
  store (λ w, if mounted w then set_updates (updates w ++ [payload]) w else w).

Definition emit (e : Effect) : M unit :=
  store (λ w, set_trace (trace w ++ [e]) w).

(** Reaching an [await]: the rest of the function is parked under a fresh
    number, by which the promise is known. *)
Definition suspend (a : Await) : M nat :=
  λ w, (Returned (next w),
        set_next (S (next w)) (set_awaiting (<[next w := a]> (awaiting w)) w)).

(** Calling an [async] function without awaiting it: the caller goes on,
    whatever becomes of the promise. *)
Definition detach (m : M unit) : M unit :=
  λ w, (Returned tt, (m w).2).

(** *** The workbench, as the bar uses it *)

Definition getState (wb : option Workbench) : M IWorkbenchState :=
  match wb with
  | Some b => this (λ w, layout w b)
  | None => throw TypeError
  end.

Definition restoreState (wb : Workbench) (st : IWorkbenchState) : M unit :=
  emit (workbench_restoreState wb st);;
  store (λ w, set_layout
                (λ b, if decide (b = wb) then restored w st else layout w b) w).

(** [workbench.environment], a property read that throws on [undefined]. *)
Definition environment (wb : option Workbench) : M Workbench :=
  match wb with
  | Some b => mret b
  | None => throw TypeError
  end.

(** ** The methods of [PerspectiveBar] *)

Definition getDerivedStateFromProps (p : IPerspectiveBarProps)
    : option (list Assign) :=
  match Props.selectedPerspectiveId p with
  | Some v => Some [selectedPerspectiveId_ v]
  | None => None
  end.

Definition constructor (p : IPerspectiveBarProps)
    (layout0 : Workbench → IWorkbenchState)
    (restored0 : IWorkbenchState → IWorkbenchState)
    (isModified0 : IPerspectiveStorage → string → bool) : World :=
  {| props := p;
     state := State.mk 0 false None None None;
     updates := [];
     mounted := true;
     _ignoreStateChangeCounter := 0;
     _lastState := None;
     _storage := None;
     _workbench := None;
     layout := layout0;
     restored := restored0;
     isModified := isModified0;
     trace := [];
     awaiting := ∅;
     next := 0 |}.

Definition _cancelLoading : M unit :=
  setState [promise_ None].

Definition _forceReload : M unit :=
  s ← this state;
  setState [counter_ (1 - State.counter s); error_ false;
            perspectives_ None; promise_ None].

Definition _onStorageChanged : M unit :=
  s ← this state;
  setState [counter_ (1 - State.counter s)].

Definition _setStorage (value : option IPerspectiveStorage) : M unit :=
  current ← this _storage;
  if decide (current = value) then skip
  else
    match current with
    | Some s => emit (storage_unsubscribe s)
    | None => skip
    end;;
    store (set__storage value);;
    _forceReload;;
    match value with
    | Some s => emit (storage_subscribe s)
    | None => skip
    end.

Definition _setWorkbench (value : option Workbench) : M unit :=
  current ← this _workbench;
  if decide (current = value) then skip
  else
    match current with
    | Some b => emit (workbench_off b)
    | None => skip
    end;;
    store (set__workbench value);;
    match value with
    | Some b => emit (workbench_on b)
    | None => skip
    end.

Definition _startLoadingIfNeeded : M unit :=
  p ← this props;
  s ← this state;
  match Props.storage p, State.promise s, State.perspectives s with
  | Some storage, None, None =>
      emit (storage_map storage);;
      loadingPromise ← suspend await_map;
      setState [promise_ (Some loadingPromise)]
  | _, _, _ => skip
  end.

(** The two callbacks given to [then] in [_startLoadingIfNeeded]. *)
Definition _startLoadingIfNeeded_then
    (newPerspectives : list (string * IPerspective)) : M unit :=
  setState [error_ false; perspectives_ (Some newPerspectives); promise_ None].

Definition _startLoadingIfNeeded_catch : M unit :=
  setState [error_ true; promise_ None];;
  throw Rejection.

Definition componentDidMount : M unit :=
  p ← this props;
  _setStorage (Props.storage p);;
  _setWorkbench (Props.workbench p);;
  _startLoadingIfNeeded.

Definition componentDidUpdate : M unit :=
  p ← this props;
  _setStorage (Props.storage p);;
  _setWorkbench (Props.workbench p);;
  _startLoadingIfNeeded.

Definition componentWillUnmount : M unit :=
  _setStorage None;;
  _setWorkbench None;;
  _cancelLoading.

Definition _loadPerspectiveById (id : string) : M unit :=
  p ← this props;
  match Props.storage p with
  | Some storage =>
      emit (storage_load storage id);;
      suspend (await_load id);;
      skip
  | None =>
      emit (console_warn
        "No perspective storage while loading perspective by ID; this is probably a bug.")
  end.

Definition _loadPerspectiveById_resume (id : string)
    (perspective : IPerspective) : M unit :=
  p ← this props;
  match Props.workbench p with
  | Some workbench =>
      store (λ w, set__ignoreStateChangeCounter
                    (_ignoreStateChangeCounter w + 1) w);;
      restoreState workbench (Perspective.state perspective)
  | None =>
      emit (console_warn
        "Workbench is gone while the perspective was being loaded; this is probably a bug.")
  end;;
  st ← getState (Props.workbench p);
  store (set__lastState (Some st));;
  setState [selectedPerspectiveId_ (Some id)].

Definition _requestSelectedPerspectiveIdChange (id : string) : M bool :=
  p ← this props;
  match Props.selectedPerspectiveId p with
  | None =>
      setState [selectedPerspectiveId_ (Some id)];;
      mret true
  | Some _ =>
      match Props.onChange p with
      | Some onChange =>
          emit (props_onChange id);;
          mret (negb (onChange id))
      | None => mret false
      end
  end.

Definition _createNewPerspective : M unit :=
  p ← this props;
  workbench ← environment (Props.workbench p);
  st ← getState (Some workbench);
  let perspective := Perspective.mk None st None "" in
  emit (environment_onCreatingNewPerspective workbench perspective);;
  suspend (await_onCreatingNewPerspective perspective);;
  skip.

Definition _createNewPerspective_confirmation (confirmation : bool)
    (perspective : IPerspective) : M unit :=
  if confirmation then
    p ← this props;
    match Props.storage p with
    | Some storage =>
        emit (storage_save storage perspective);;
        suspend (await_save perspective);;
        skip
    | None =>
        emit (console_warn
          "No perspective storage while creating new perspective; this is probably a bug.")
    end
  else skip.

Definition _createNewPerspective_id (perspective : IPerspective)
    (id : string) : M unit :=
  _requestSelectedPerspectiveIdChange id;;
  store (set__lastState (Some (Perspective.state perspective))).

Definition _currentPerspectiveNeedsSavingAfterChange
    (newState : IWorkbenchState) : M bool :=
  s ← this state;
  last ← this _lastState;
  mret match State.selectedPerspectiveId s, last with
       | Some _, Some lastState =>
           negb (areWorkbenchStatesEqualIgnoringSelection lastState newState)
       | _, _ => false
       end.

Definition _updateCurrentPerspectiveWith (newState : IWorkbenchState)
    (persist : bool) : M unit :=
  p ← this props;
  s ← this state;
  match Props.storage p with
  | None =>
      emit (console_warn
        "No perspective storage while saving perspective; this is probably a bug.")
  | Some storage =>
      match State.selectedPerspectiveId s with
      | Some selectedPerspectiveId =>
          emit (storage_update storage selectedPerspectiveId newState);;
          suspend (await_update storage selectedPerspectiveId newState persist);;
          skip
      | None => skip
      end
  end.

Definition _updateCurrentPerspectiveWith_resume (storage : IPerspectiveStorage)
    (selectedPerspectiveId : string) (newState : IWorkbenchState)
    (persist : bool) : M unit :=
  store (set__lastState (Some newState));;
  if persist then
    emit (storage_persistModifications storage selectedPerspectiveId);;
    suspend await_persistModifications;;
    skip
  else skip.

Definition _updateCurrentPerspective (persist : bool) : M unit :=
  p ← this props;
  st ← getState (Props.workbench p);
  _updateCurrentPerspectiveWith st persist.

Definition _persistModificationsOfCurrentPerspective : M unit :=
  _updateCurrentPerspective true.

Definition _onWorkbenchChanged : M unit :=
  c ← this _ignoreStateChangeCounter;
  if (0 <? c)%Z then
    store (set__ignoreStateChangeCounter (c - 1))
  else
    p ← this props;
    newState ← getState (Props.workbench p);
    needed ← _currentPerspectiveNeedsSavingAfterChange newState;
    if needed : bool then detach (_updateCurrentPerspectiveWith newState false)
    else skip.

Definition _revertModificationsOfCurrentPerspective : M unit :=
  p ← this props;
  s ← this state;
  match Props.storage p with
  | Some storage =>
      match State.selectedPerspectiveId s with
      | Some selectedPerspectiveId =>
          modified ← this (λ w, isModified w storage selectedPerspectiveId);
          if modified : bool then
            workbench ← environment (Props.workbench p);
            emit (environment_confirm workbench
              "Are you sure you want to revert the perspective to its last saved state?");;
            suspend (await_confirm storage selectedPerspectiveId);;
            skip
          else skip
      | None => skip
      end
  | None =>
      emit (console_warn
        "No perspective storage while reverting perspective by ID; this is probably a bug.")
  end.

Definition _revertModificationsOfCurrentPerspective_confirmation
    (storage : IPerspectiveStorage) (selectedPerspectiveId : string)
    (confirmation : bool) : M unit :=
  if confirmation then
    emit (storage_revertModifications storage selectedPerspectiveId);;
    suspend (await_revertModifications selectedPerspectiveId);;
    skip
  else skip.

Definition _revertModificationsOfCurrentPerspective_reverted
    (selectedPerspectiveId : string) : M unit :=
  _loadPerspectiveById selectedPerspectiveId.

Definition _onPerspectiveButtonClicked (id : string) : M unit :=
  s ← this state;
  if decide (State.selectedPerspectiveId s = Some id) then
    detach _revertModificationsOfCurrentPerspective
  else
    p ← this props;
    match Props.onChange p with
    | None => detach (_loadPerspectiveById id)
    | Some onChange =>
        emit (props_onChange id);;
        if onChange id then skip else detach (_loadPerspectiveById id)
    end.

(** ** React's part

    [setState] is batched inside lifecycle methods and React's own event
    handlers: the payloads wait in a queue.  Before the next call of
    [render] React merges them in order and then applies
    [getDerivedStateFromProps] ([reconcile]; on every render, as React
    does from 16.4 on, and [package.json] builds against 16.7); after it,
    React calls [componentDidUpdate], whose own [setState]s cause one more
    such round.
    Outside React's handlers (promise callbacks, the notifications of the
    storage and of the workbench) [setState] renders at once; every such
    piece of the source has its [setState] as the last statement that the
    render could observe, so that running the renders when the piece is
    over gives the same worlds. *)

Definition derive (p : IPerspectiveBarProps) (s : IPerspectiveBarState)
    : IPerspectiveBarState :=
  match getDerivedStateFromProps p with
  | Some payload => merge s payload
  | None => s
  end.

Definition reconcile (w : World) : World :=
  set_updates []
    (set_state (derive (props w) (foldl merge (state w) (updates w))) w).

Fixpoint settle (fuel : nat) (w : World) : World :=
  match fuel with
  | O => w
  | S fuel' =>
      match updates w with
      | [] => w
      | _ :: _ => settle fuel' (componentDidUpdate (reconcile w)).2
      end
  end.

(** Running a handler, then the renders it causes.  Three rounds always
    reach a world with nothing queued ([settle_quiescent] below). *)
Definition handle (m : M unit) (w : World) : World :=
  settle 3 (m w).2.

Definition mount (p : IPerspectiveBarProps)
    (layout0 : Workbench → IWorkbenchState)
    (restored0 : IWorkbenchState → IWorkbenchState)
    (isModified0 : IPerspectiveStorage → string → bool) : World :=
  handle componentDidMount (reconcile (constructor p layout0 restored0 isModified0)).

(** The rest of an [async] function, given how the awaited promise
    settled.  A rejection makes the [await] throw, except for the
    enumeration, whose promise has a rejection callback. *)
Definition resume (a : Await) (r : Reply) : option (M unit) :=
  match a, r with
  | await_map, enumerated newPerspectives =>
      Some (_startLoadingIfNeeded_then newPerspectives)
  | await_map, rejected => Some _startLoadingIfNeeded_catch
  | await_map, _ => None
  | _, rejected => Some (throw Rejection)
  | await_load id, loaded perspective =>
      Some (_loadPerspectiveById_resume id perspective)
  | await_confirm storage id, confirmed confirmation =>
      Some (_revertModificationsOfCurrentPerspective_confirmation
              storage id confirmation)
  | await_revertModifications id, fulfilled =>
      Some (_revertModificationsOfCurrentPerspective_reverted id)
  | await_onCreatingNewPerspective _, drafted confirmation perspective =>
      Some (_createNewPerspective_confirmation confirmation perspective)
  | await_save perspective, saved id =>
      Some (_createNewPerspective_id perspective id)
  | await_update storage id newState persist, fulfilled =>
      Some (_updateCurrentPerspectiveWith_resume storage id newState persist)
  | await_persistModifications, fulfilled => Some skip
  | _, _ => None
  end.

(** ** What the bar shows ([render])

    The elements pushed to [buttons], in order.  A load button carries the
    id that its [onClick] passes to [_onPerspectiveButtonClicked]. *)

Inductive Element : Type :=
| LoadPerspectiveButton (key : string) (label : string)
    (modified selected : bool)
| NewPerspectiveButton
| SavePerspectiveButton (disabled : bool)
| ReloadPerspectivesButton (label : option string)
| Loading.

(** [storage.isModified(selectedPerspectiveId)] with no selection: the
    storage is asked about [undefined], and answers false (section 6 of
    the specification; the storage is not among the sources). *)
Definition isModifiedSelection (w : World) (storage : IPerspectiveStorage)
    (selectedPerspectiveId : option string) : bool :=
  match selectedPerspectiveId with
  | Some id => isModified w storage id
  | None => false
  end.

Definition _createLoadButtonFromStoredPerspective
    (perspective : IPerspective) (id : string) (modified : bool) : Element :=
  LoadPerspectiveButton id (Perspective.label perspective) modified false.

Definition cloneElement_selected (e : Element) (selected : bool) : Element :=
  match e with
  | LoadPerspectiveButton key label modified _ =>
      LoadPerspectiveButton key label modified selected
  | _ => e
  end.

Definition render (w : World) : list Element :=
  let p := props w in
  let s := state w in
  let loading := bool_decide (State.promise s ≠ None) in
  let buttons :=
    match State.perspectives s with
    | Some perspectives =>
        (map (λ pair : string * IPerspective,
               let (id, perspective) := pair in
               let element :=
                 _createLoadButtonFromStoredPerspective perspective id
                   match Props.storage p with
                   | Some storage => isModified w storage id
                   | None => false
                   end in
               let selected :=
                 bool_decide (State.selectedPerspectiveId s = Some id) in
               cloneElement_selected element selected)
          perspectives
        ++ [NewPerspectiveButton;
            SavePerspectiveButton
              match Props.storage p with
              | Some storage =>
                  negb (isModifiedSelection w storage
                          (State.selectedPerspectiveId s))
              | None => true
              end])%list
    | None =>
        if State.error s
        then [ReloadPerspectivesButton (Props.errorMessage p)]
        else []
    end in
  match buttons with
  | [] => if loading then [Loading] else []
  | _ :: _ => buttons
  end.

Definition isLoadButton (id : string) (e : Element) : bool :=
  match e with
  | LoadPerspectiveButton key _ _ _ => String.eqb key id
  | _ => false
  end.

Definition isNewButton (e : Element) : bool :=
  match e with NewPerspectiveButton => true | _ => false end.

Definition isEnabledSaveButton (e : Element) : bool :=
  match e with SavePerspectiveButton false => true | _ => false end.

Definition isReloadButton (e : Element) : bool :=
  match e with ReloadPerspectivesButton _ => true | _ => false end.

(** A click needs a mounted bar that shows the control. *)
Definition offers (control : Element → bool) (w : World) : bool :=
  mounted w && existsb control (render w).

(** ** Events

    What can happen to a bar between two handlers.  A click is possible
    only on a control that the last render shows.  A notification is
    delivered to the listener that is subscribed at that time; the one
    that [restoreState] causes is such an event too, so that the
    suppression counter is seen between the two.  [Rearranged] and
    [Marked] are the surroundings changing on their own: the layout of a
    workbench, and what the storage reports as modified.  [Settled n r]
    settles the promise numbered [n].  Unmounting discards what is queued. *)

Inductive Event : Type :=
| Rendered (p : IPerspectiveBarProps)      (* the parent passes new props *)
| Unmounted
| PerspectiveButtonClicked (id : string)
| NewPerspectiveButtonClicked
| SavePerspectiveButtonClicked
| ReloadPerspectivesButtonClicked
| StorageChanged (s : IPerspectiveStorage)  (* the storage notifies *)
| WorkbenchChanged (b : Workbench)          (* "stateChanged" is emitted *)
| Rearranged (b : Workbench) (st : IWorkbenchState)
| Marked (f : IPerspectiveStorage → string → bool)
| Settled (n : nat) (r : Reply).

Definition step (e : Event) (w : World) : option World :=
  match e with
  | Rendered p =>
      if mounted w
      then Some (handle componentDidUpdate (reconcile (set_props p w)))
      else None
  | Unmounted =>
      if mounted w
      then Some (set_updates [] (set_mounted false (componentWillUnmount w).2))
      else None
  | PerspectiveButtonClicked id =>
      if offers (isLoadButton id) w
      then Some (handle (_onPerspectiveButtonClicked id) w)
      else None
  | NewPerspectiveButtonClicked =>
      if offers isNewButton w
      then Some (handle _createNewPerspective w)
      else None
  | SavePerspectiveButtonClicked =>
      if offers isEnabledSaveButton w
      then Some (handle _persistModificationsOfCurrentPerspective w)
      else None
  | ReloadPerspectivesButtonClicked =>
      if offers isReloadButton w
      then Some (handle _forceReload w)
      else None
  | StorageChanged s =>
      if decide (_storage w = Some s) then Some (handle _onStorageChanged w)
      else None
  | WorkbenchChanged b =>
      if decide (_workbench w = Some b) then Some (handle _onWorkbenchChanged w)
      else None
  | Rearranged b st =>
      Some (set_layout (λ x, if decide (x = b) then st else layout w x) w)
  | Marked f => Some (set_isModified f w)
  | Settled n r =>
      a ← awaiting w !! n;
      m ← resume a r;
      Some (handle m (set_awaiting (delete n (awaiting w)) w))
  end.

Fixpoint run (es : list Event) (w : World) : option World :=
  match es with
  | [] => Some w
  | e :: es' => w' ← step e w; run es' w'
  end.

Definition reachable (w : World) : Prop :=
  ∃ p layout0 restored0 isModified0 es,
    run es (mount p layout0 restored0 isModified0) = Some w.

(** ** Auxiliary definitions for the statements *)

Local Close Scope string_scope.

(** The storage to enumerate, when [_startLoadingIfNeeded] has to. *)
Definition loads (p : IPerspectiveBarProps) (s : IPerspectiveBarState)
    : option IPerspectiveStorage :=
  match Props.storage p, State.promise s, State.perspectives s with
  | Some storage, None, None => Some storage
  | _, _, _ => None
  end.

Definition needsLoading (w : World) : option IPerspectiveStorage :=
  loads (props w) (state w).

Definition subscriptionChange (old new : option IPerspectiveStorage)
    : list Effect :=
  if decide (old = new) then []
  else match old with Some s => [storage_unsubscribe s] | None => [] end
       ++ match new with Some s => [storage_subscribe s] | None => [] end.

Definition listenerChange (old new : option Workbench) : list Effect :=
  if decide (old = new) then []
  else match old with Some b => [workbench_off b] | None => [] end
       ++ match new with Some b => [workbench_on b] | None => [] end.

Definition reloadPayload (w : World) : list Assign :=
  [counter_ (1 - State.counter (state w)); error_ false;
   perspectives_ None; promise_ None].

Definition afterUpdate (w : World) : World :=
  {| props := props w;
     state := state w;
     updates :=
       if mounted w then
         updates w
         ++ (if decide (_storage w = Props.storage (props w)) then []
             else [reloadPayload w])
         ++ match needsLoading w with
            | Some _ => [[promise_ (Some (next w))]]
            | None => []
            end
       else updates w;
     mounted := mounted w;
     _ignoreStateChangeCounter := _ignoreStateChangeCounter w;
     _lastState := _lastState w;
     _storage := Props.storage (props w);
     _workbench := Props.workbench (props w);
     layout := layout w;
     restored := restored w;
     isModified := isModified w;
     trace :=
       trace w
       ++ subscriptionChange (_storage w) (Props.storage (props w))
       ++ listenerChange (_workbench w) (Props.workbench (props w))
       ++ match needsLoading w with Some s => [storage_map s] | None => [] end;
     awaiting :=
       match needsLoading w with
       | Some _ => <[next w := await_map]> (awaiting w)
       | None => awaiting w
       end;
     next := match needsLoading w with Some _ => S (next w) | None => next w end |}.



(** One render followed by [componentDidUpdate]. *)
Definition round (w : World) : World := afterUpdate (reconcile w).

(** The state shown by the next render. *)
Definition rendering (w : World) : IPerspectiveBarState :=
  derive (props w) (foldl merge (state w) (updates w)).

(** The storages that were asked to enumerate their perspectives, in order. *)
Definition enumerations (t : list Effect) : list IPerspectiveStorage :=
  omap (λ e, match e with storage_map s => Some s | _ => None end) t.

(** What no handler other than the lifecycle methods touches. *)
Record Steady (w w' : World) : Prop := {
  steady_props : props w' = props w;
  steady_mounted : mounted w' = mounted w;
  steady_storage : _storage w' = _storage w;
  steady_workbench : _workbench w' = _workbench w;
  steady_restored : restored w' = restored w;
  steady_updates : mounted w = false → updates w' = updates w;
  steady_counter :
    (0 ≤ _ignoreStateChangeCounter w → 0 ≤ _ignoreStateChangeCounter w')%Z;
  steady_next :
    (∀ n a, awaiting w !! n = Some a → n < next w) →
    (∀ n a, awaiting w' !! n = Some a → n < next w')
}.

(** What the renders after a handler leave as it is. *)
Record Framed (w w' : World) : Prop := {
  framed_props : props w' = props w;
  framed_mounted : mounted w' = mounted w;
  framed_counter : _ignoreStateChangeCounter w' = _ignoreStateChangeCounter w;
  framed_lastState : _lastState w' = _lastState w;
  framed_layout : layout w' = layout w;
  framed_restored : restored w' = restored w;
  framed_isModified : isModified w' = isModified w
}.

(** A payload that does not set the in-flight marker to a promise. *)
Definition quiet (payload : list Assign) : bool :=
  forallb (λ a, match a with promise_ (Some _) => false | _ => true end)
    payload.

(** The in-flight marker, when set, is the number of a promise made before. *)
Definition numbered (k : nat) (s : IPerspectiveBarState) : Prop :=
  ∀ n, State.promise s = Some n → n < k.

(** What a handler other than the lifecycle methods does to the state. *)
Record Calm (w w' : World) : Prop := {
  calm_state : state w' = state w;
  calm_queue :
    ∃ extra, updates w' = updates w ++ extra ∧ forallb quiet extra = true;
  calm_next : next w ≤ next w'
}.

(** What holds between two events. *)
Record Inv (w : World) : Prop := {
  inv_updates : updates w = [];
  inv_counter : (0 ≤ _ignoreStateChangeCounter w)%Z;
  inv_storage :
    _storage w = if mounted w then Props.storage (props w) else None;
  inv_workbench :
    _workbench w = if mounted w then Props.workbench (props w) else None;
  inv_next : ∀ n a, awaiting w !! n = Some a → n < next w
}.

(** The texts of the diagnostics and of the confirmation prompt. *)
Definition revertQuestion : string :=
  "Are you sure you want to revert the perspective to its last saved state?".
Definition noStorageWhileReverting : string :=
  "No perspective storage while reverting perspective by ID; this is probably a bug.".
Definition noStorageWhileLoading : string :=
  "No perspective storage while loading perspective by ID; this is probably a bug.".
Definition noStorageWhileSaving : string :=
  "No perspective storage while saving perspective; this is probably a bug.".
Definition noStorageWhileCreating : string :=
  "No perspective storage while creating new perspective; this is probably a bug.".
Definition workbenchIsGone : string :=
  "Workbench is gone while the perspective was being loaded; this is probably a bug.".

(** Parking one continuation after one effect: what a handler that reaches
    an [await] does to the world. *)
Definition parked (e : Effect) (a : Await) (w : World) : World :=
  set_next (S (next w))
    (set_awaiting (<[next w := a]> (awaiting w))
       (set_trace (trace w ++ [e]) w)).

(** Logging one diagnostic and nothing else. *)
Definition warned (message : string) (w : World) : World :=
  set_trace (trace w ++ [console_warn message]) w.

(** *** The provenance of the baseline *)

(** The calls whose completion records [_lastState]. *)
Definition recordsBaseline (e : Effect) : bool :=
  match e with
  | storage_load _ _ | storage_save _ _ | storage_update _ _ _ => true
  | _ => false
  end.

Definition baselineRequested (t : list Effect) : bool :=
  existsb recordsBaseline t.

Definition recordsOnResume (a : Await) : bool :=
  match a with
  | await_load _ | await_save _ | await_update _ _ _ _ => true
  | _ => false
  end.

Record Provenance (w : World) : Prop := {
  prov_lastState :
    is_Some (_lastState w) → baselineRequested (trace w) = true;
  prov_awaiting :
    ∀ n a, awaiting w !! n = Some a → recordsOnResume a = true →
           baselineRequested (trace w) = true
}.


(** ** The stateless components

    The four function components at the end of [bar.tsx], and what they
    return: the elements of the page.  A handler is the method of the bar
    that [render] passes as [onClick].  [Badge] is the component of
    [react-badger], kept as it is called.  The dash in the default label
    of the reload button is U+2014, written "\u2014" in the source. *)

Inductive Node : Type :=
| div (className : string) (children : list Node)
| button (className : string) (disabled : option bool)
    (onClick : option (M unit)) (children : option string)
| Badge (className : string) (visible : option bool) (offset : list Z)
| span (children : string).

Module ILoadPerspectiveButtonProps.
Record t : Type := mk {
  label : option string;
  modified : option bool;
  onClick : option (M unit);
  selected : option bool
}.
End ILoadPerspectiveButtonProps.

Module Components.

Definition badgeOffset : list Z := [-3; -3]%Z.

(** [if (x)] on an optional boolean: [undefined] is falsy. *)
Definition truthy (x : option bool) : bool := default false x.

Definition LoadPerspectiveButton (props : ILoadPerspectiveButtonProps.t)
    : Node :=
  let label := ILoadPerspectiveButtonProps.label props in
  let modified := ILoadPerspectiveButtonProps.modified props in
  let onClick := ILoadPerspectiveButtonProps.onClick props in
  let selected := ILoadPerspectiveButtonProps.selected props in
  let classes := ["wb-perspective-bar-item"%string] in
  let classes :=
    if truthy selected then (classes ++ ["wb-perspective-selected"%string])%list
    else classes in
  let classes :=
    if truthy modified then (classes ++ ["wb-perspective-modified"%string])%list
    else classes in
  div (String.concat " " classes)
    [button "wb-perspective-bar-load-button" None onClick label;
     Badge "wb-badge" modified badgeOffset].

Definition NewPerspectiveButton (onClick : option (M unit)) : Node :=
  div "wb-perspective-bar-item"
    [button "wb-perspective-bar-new-button" None onClick (Some "+ New"%string)].

Definition ReloadPerspectivesButton (label : option string)
    (onClick : option (M unit)) : Node :=
  div "wb-perspective-bar-item"
    [button "wb-perspective-bar-reload-button" None onClick
       (Some match label with
             | Some label => label
             | None => "Error while loading — click to reload"%string
             end)].

Definition SavePerspectiveButton (disabled : option bool)
    (onClick : option (M unit)) : Node :=
  div "wb-perspective-bar-item"
    [button "wb-perspective-bar-save-button" disabled onClick
       (Some "Save"%string)].

End Components.

(** An element of [render], expanded by its component.  The props are the
    ones [render] gives it: those of the element, and the [onClick] that
    [render] binds for an element of that kind. *)
Definition expand (e : Element) : Node :=
  match e with
  | LoadPerspectiveButton key label modified selected =>
      Components.LoadPerspectiveButton
        (ILoadPerspectiveButtonProps.mk (Some label) (Some modified)
           (Some (_onPerspectiveButtonClicked key)) (Some selected))
  | NewPerspectiveButton =>
      Components.NewPerspectiveButton (Some _createNewPerspective)
  | SavePerspectiveButton disabled =>
      Components.SavePerspectiveButton (Some disabled)
        (Some _persistModificationsOfCurrentPerspective)
  | ReloadPerspectivesButton label =>
      Components.ReloadPerspectivesButton label (Some _forceReload)
  | Loading => span "Loading..."
  end.

(** What [render] returns, down to the elements of the page. *)
Definition page (w : World) : Node :=
  div "wb-perspective-bar" (map expand (render w)).

(** *** The protocol of the subscriptions *)

(** The storage that a trace leaves subscribed; [None] when the trace
    subscribes twice in a row or unsubscribes what is not subscribed. *)
Definition subscription (acc : option (option IPerspectiveStorage))
    (e : Effect) : option (option IPerspectiveStorage) :=
  match e with
  | storage_subscribe s =>
      match acc with Some None => Some (Some s) | _ => None end
  | storage_unsubscribe s =>
      match acc with
      | Some (Some s') => if decide (s = s') then Some None else None
      | _ => None
      end
  | _ => acc
  end.

Definition subscribed (t : list Effect)
    : option (option IPerspectiveStorage) :=
  foldl subscription (Some None) t.

(** The same for the "stateChanged" listener. *)
Definition attachment (acc : option (option Workbench)) (e : Effect)
    : option (option Workbench) :=
  match e with
  | workbench_on b =>
      match acc with Some None => Some (Some b) | _ => None end
  | workbench_off b =>
      match acc with
      | Some (Some b') => if decide (b = b') then Some None else None
      | _ => None
      end
  | _ => acc
  end.

Definition listening (t : list Effect) : option (option Workbench) :=
  foldl attachment (Some None) t.

(** How many times a trace restores a state on a workbench. *)
Definition restorations (t : list Effect) : Z :=
  Z.of_nat (length (List.filter (λ e, match e with
                                 | workbench_restoreState _ _ => true
                                 | _ => false
                                 end) t)).


(** What a handler other than the lifecycle methods adds to the trace: no
    subscription, no listener, no enumeration; and the suppression counter
    goes up only by the restorations it makes. *)
Record Logged (w w' : World) : Prop := {
  logged_subscribed : subscribed (trace w') = subscribed (trace w);
  logged_listening : listening (trace w') = listening (trace w);
  logged_enumerations : enumerations (trace w') = enumerations (trace w);
  logged_restorations :
    (_ignoreStateChangeCounter w' - _ignoreStateChangeCounter w
     ≤ restorations (trace w') - restorations (trace w))%Z
}.

(** What the trace says of a bar: which storage and which workbench it
    is left subscribed to, and a bound on the suppression counter. *)
Record Balanced (w : World) : Prop := {
  balanced_storage : subscribed (trace w) = Some (_storage w);
  balanced_workbench : listening (trace w) = Some (_workbench w);
  balanced_counter :
    (_ignoreStateChangeCounter w ≤ restorations (trace w))%Z
}.

(** What the state of a bar is like between two events: the selection is
    the one of the props when they have one, and a mounted bar with a
    storage and without a list is enumerating. *)
Record Rested (w : World) : Prop := {
  rested_selection :
    ∀ v, Props.selectedPerspectiveId (props w) = Some v →
         State.selectedPerspectiveId (state w) = v;
  rested_loading : mounted w = true → loads (props w) (state w) = None
}.

(** The events on which the bar may start an enumeration: a render with
    another storage, a click on the reload button, and the failure of an
    enumeration. *)
Definition provokes (e : Event) (w : World) : Prop :=
  match e with
  | Rendered p => Props.storage p ≠ Props.storage (props w)
  | ReloadPerspectivesButtonClicked => True
  | Settled n rejected => awaiting w !! n = Some await_map
  | _ => False
  end.

(** A queue of payloads that calls for no enumeration where the state did
    not call for one. *)
Definition Benign (w : World) : Prop :=
  ∀ p, loads p (state w) = None →
       loads p (foldl merge (state w) (updates w)) = None.

(** *** Failures that arrive in time *)

(** The failure of an enumeration is timely when the in-flight marker
    still designates that enumeration: no reload has superseded it. *)
Definition timely (e : Event) (w : World) : Prop :=
  match e with
  | Settled n rejected =>
      awaiting w !! n = Some await_map → State.promise (state w) = Some n
  | _ => True
  end.

(** A run all of whose events are timely where they happen. *)
Fixpoint timelyRun (es : list Event) (w : World) : Prop :=
  match es with
  | [] => True
  | e :: es' =>
      timely e w
      ∧ match step e w with
        | Some w' => timelyRun es' w'
        | None => True
        end
  end.

(** The error flag and the in-flight marker each exclude a list. *)
Definition Exclusive (s : IPerspectiveBarState) : Prop :=
  (State.error s = true → State.perspectives s = None)
  ∧ (State.promise s ≠ None → State.perspectives s = None).

(** *** Sample bars *)

Definition plain : IWorkbenchState := JObj [("content"%string, JArr [])].
Definition perspectiveA : IPerspective :=
  Perspective.mk None (JObj [("content"%string, JStr "a")]) None "A".
Definition perspectiveB : IPerspective :=
  Perspective.mk None (JObj [("content"%string, JStr "b")]) None "B".
Definition draft : IPerspective := Perspective.mk None plain None "New".
Definition rearranged : IWorkbenchState :=
  JObj [("content"%string, JArr [JStr "panel"])].

Definition props7 : IPerspectiveBarProps :=
  Props.mk None None None (Some 7) (Some 1).
Definition props8 : IPerspectiveBarProps :=
  Props.mk None None None (Some 8) (Some 1).
Definition propsControlled : IPerspectiveBarProps :=
  Props.mk None (Some (λ _, true)) (Some (Some "A"%string)) (Some 7) (Some 1).
Definition propsNoWorkbench : IPerspectiveBarProps :=
  Props.mk None None None (Some 7) None.
Definition propsNoStorage : IPerspectiveBarProps :=
  Props.mk None None None None (Some 1).

Definition bar (p : IPerspectiveBarProps) : World :=
  mount p (λ _, plain) (λ st, st) (λ _ _, false).

Definition after (es : list Event) (w : World) : World :=
  default w (run es w).

Definition loadedBar : World :=
  after [Settled 0 (enumerated [("A"%string, perspectiveA)])] (bar props7).
Definition loadingBar : World :=
  after [Settled 0 (enumerated [("A"%string, perspectiveA)]);
         PerspectiveButtonClicked "A"] (bar props7).
Definition modifiedBar : World :=
  after [Settled 0 (enumerated [("A"%string, perspectiveA)]);
         PerspectiveButtonClicked "A";
         Settled 1 (loaded perspectiveA);
         Marked (λ _ _, true)] (bar props7).

(** A bar without a workbench, its list loaded; the same after a click on
    "A"; and a bar whose storage is taken away while the environment is
    asking about a draft. *)
Definition loadedNoWorkbench : World :=
  after [Settled 0 (enumerated [("A"%string, perspectiveA)])]
        (bar propsNoWorkbench).
Definition loadingNoWorkbench : World :=
  after [Settled 0 (enumerated [("A"%string, perspectiveA)]);
         PerspectiveButtonClicked "A"] (bar propsNoWorkbench).
Definition draftingNoStorage : World :=
  after [Settled 0 (enumerated [("A"%string, perspectiveA)]);
         NewPerspectiveButtonClicked;
         Rendered propsNoStorage] (bar props7).

(** More sample bars: one whose enumeration failed, a controlled one with
    two perspectives, one unmounted while a load is in flight, one that
    has loaded "A", the same after the user has rearranged the workbench,
    and one whose "save" button was clicked. *)
Definition failedBar : World :=
  after [Settled 0 rejected] (bar props7).
Definition controlledBar : World :=
  after [Settled 0 (enumerated [("A"%string, perspectiveA);
                                ("B"%string, perspectiveB)])]
        (bar propsControlled).
Definition unmountedBar : World :=
  after [Settled 0 (enumerated [("A"%string, perspectiveA)]);
         PerspectiveButtonClicked "A";
         Unmounted] (bar props7).
Definition restoredBar : World :=
  after [Settled 0 (enumerated [("A"%string, perspectiveA)]);
         PerspectiveButtonClicked "A";
         Settled 1 (loaded perspectiveA)] (bar props7).
Definition rearrangedBar : World :=
  after [Settled 0 (enumerated [("A"%string, perspectiveA)]);
         PerspectiveButtonClicked "A";
         Settled 1 (loaded perspectiveA);
         WorkbenchChanged 1;
         Rearranged 1 rearranged] (bar props7).
Definition updatingBar : World :=
  after [Settled 0 (enumerated [("A"%string, perspectiveA)]);
         PerspectiveButtonClicked "A";
         Settled 1 (loaded perspectiveA);
         Marked (λ _ _, true);
         SavePerspectiveButtonClicked] (bar props7).

(** * Properties *)

(** ** Unfolding the model *)

Ltac fields :=
  cbn [props state updates mounted _ignoreStateChangeCounter _lastState
       _storage _workbench layout restored isModified trace awaiting next
       set_props set_state set_updates set_mounted
       set__ignoreStateChangeCounter set__lastState set__storage
       set__workbench set_layout set_isModified set_trace set_awaiting
       set_next fst snd
       Props.errorMessage Props.onChange Props.selectedPerspectiveId
       Props.storage Props.workbench
       State.counter State.error State.perspectives State.promise
       State.selectedPerspectiveId
       merge assign foldl app] in *.

Ltac monad :=
  cbv [setState emit suspend store this skip throw detach
       getState restoreState environment mbind mret M_bind M_ret] in *.

Ltac handlers :=
  cbv [_onPerspectiveButtonClicked _createNewPerspective
       _persistModificationsOfCurrentPerspective _updateCurrentPerspective
       _updateCurrentPerspectiveWith _updateCurrentPerspectiveWith_resume
       _forceReload _onStorageChanged _onWorkbenchChanged
       _currentPerspectiveNeedsSavingAfterChange
       _revertModificationsOfCurrentPerspective
       _revertModificationsOfCurrentPerspective_confirmation
       _revertModificationsOfCurrentPerspective_reverted
       _loadPerspectiveById _loadPerspectiveById_resume
       _requestSelectedPerspectiveIdChange _createNewPerspective_confirmation
       _createNewPerspective_id _startLoadingIfNeeded_then
       _startLoadingIfNeeded_catch _cancelLoading] in *.

Ltac open_world w :=
  destruct w as [[em oc sel psto pwb] [cnt err pers prom sl]
                 us m c l sto wb lay res im tr aw nx].

Ltac cases :=
  repeat (first [case_decide | case_match]; simplify_eq; fields).

(** ** Values *)

Lemma json_eqb_eq (a b : Json) : json_eqb a b = true ↔ a = b.
Proof.
  revert b. induction a as [| x | x | x | xs IH | fs IH] using Json_deep_ind;
    intros [| y | y | y | ys | gs]; cbn [json_eqb];
    try (split; [discriminate | intros [=]]); try (split; reflexivity).
  - rewrite Bool.eqb_true_iff. split; [intros ->; reflexivity | intros [=]; assumption].
  - rewrite Z.eqb_eq. split; [intros ->; reflexivity | intros [=]; assumption].
  - rewrite String.eqb_eq. split; [intros ->; reflexivity | intros [=]; assumption].
  - revert ys. induction IH as [| x xs Hx _ IHxs]; intros [| y ys].
    + split; reflexivity.
    + split; [discriminate | intros [=]].
    + split; [discriminate | intros [=]].
    + rewrite andb_true_iff, Hx, IHxs.
      split; [intros [-> [=]]; subst; reflexivity | intros [=]; subst; split; reflexivity].
  - revert gs. induction IH as [| [k x] fs Hx _ IHfs]; intros [| [l y] gs].
    + split; reflexivity.
    + split; [discriminate | intros [=]].
    + split; [discriminate | intros [=]].
    + cbn [snd] in Hx.
      rewrite !andb_true_iff, String.eqb_eq, Hx, IHfs.
      split; [intros [[-> ->] [=]]; subst; reflexivity
             | intros [=]; subst; repeat split; reflexivity].
Qed.

Lemma option_json_eqb_eq (x y : option Json) : option_json_eqb x y = true ↔ x = y.
Proof.
  destruct x as [a|], y as [b|]; cbn [option_json_eqb];
    [rewrite json_eqb_eq | | |]; split; (congruence || discriminate || reflexivity).
Qed.

Lemma assoc_None_not_key (k : string) (fs : list (string * Json)) :
  k ∉ map fst fs → assoc k fs = None.
Proof.
  induction fs as [| [k' v] fs IH]; cbn [assoc map fst]; [reflexivity|].
  intros Hk. destruct (String.eqb_spec k k') as [->|Hne].
  - exfalso. apply Hk. left.
  - apply IH. intros Hin. apply Hk. right. exact Hin.
Qed.

Lemma equalIgnoringSelection_fields (fa fb : list (string * Json)) :
  areWorkbenchStatesEqualIgnoringSelection (JObj fa) (JObj fb) = true
  ↔ ∀ k, k ≠ selectionKey → assoc k fa = assoc k fb.
Proof.
  cbn [areWorkbenchStatesEqualIgnoringSelection].
  rewrite forallb_forall. split.
  - intros H k Hk.
    destruct (decide (k ∈ (map fst fa ++ map fst fb)%list)) as [Hin|Hout].
    + apply list_elem_of_In, H in Hin. apply orb_true_iff in Hin as [Hs|He].
      * apply String.eqb_eq in Hs. contradiction.
      * apply option_json_eqb_eq. exact He.
    + rewrite !assoc_None_not_key; [reflexivity | |];
        intros Hin; apply Hout, elem_of_app; [right | left]; exact Hin.
  - intros H k _. destruct (String.eqb_spec k selectionKey) as [->|Hne];
      [reflexivity|].
    apply orb_true_iff. right. apply option_json_eqb_eq, H. exact Hne.
Qed.

(** ** The lifecycle methods as functions *)

Lemma bind_run {A B : Type} (m : M A) (f : A → M B) (w w' : World) (a : A) :
  m w = (Returned a, w') → (m ≫= f) w = f a w'.
Proof. intros H. unfold mbind, M_bind. rewrite H. reflexivity. Qed.

Lemma _forceReload_run (w : World) :
  _forceReload w =
  (Returned (),
   if mounted w then set_updates (updates w ++ [reloadPayload w]) w else w).
Proof. reflexivity. Qed.

Lemma _setStorage_run (value : option IPerspectiveStorage) (w : World) :
  _setStorage value w =
  (Returned (),
   if decide (_storage w = value) then w
   else set_trace (trace w ++ subscriptionChange (_storage w) value)
          (set_updates
             (if mounted w then updates w ++ [reloadPayload w] else updates w)
             (set__storage value w))).
Proof.
  unfold _setStorage, subscriptionChange. 
  unfold mbind at 1. unfold M_bind at 1. unfold this at 1.
  destruct (decide (_storage w = value)) as [E|E]; [reflexivity|].
  destruct w as [p s us m c l sto wb lay res im tr aw nx].
  cbv [_forceReload reloadPayload]; monad; fields.
  destruct sto as [s0|], value as [s1|], m; fields; rewrite <- ?app_assoc, ?app_nil_r; reflexivity.
Qed.

Lemma _setWorkbench_run (value : option Workbench) (w : World) :
  _setWorkbench value w =
  (Returned (),
   if decide (_workbench w = value) then w
   else set_trace (trace w ++ listenerChange (_workbench w) value)
          (set__workbench value w)).
Proof.
  unfold _setWorkbench, listenerChange. 
  unfold mbind at 1. unfold M_bind at 1. unfold this at 1.
  destruct (decide (_workbench w = value)) as [E|E]; [reflexivity|].
  destruct w as [p s us m c l sto wb lay res im tr aw nx].
  monad; fields.
  destruct wb as [s0|], value as [s1|]; fields; rewrite <- ?app_assoc, ?app_nil_r; reflexivity.
Qed.

Lemma _startLoadingIfNeeded_run (w : World) :
  _startLoadingIfNeeded w =
  (Returned (),
   match needsLoading w with
   | Some s =>
       set_updates
         (if mounted w then updates w ++ [[promise_ (Some (next w))]]
          else updates w)
         (set_next (S (next w))
            (set_awaiting (<[next w := await_map]> (awaiting w))
               (set_trace (trace w ++ [storage_map s]) w)))
   | None => w
   end).
Proof.
  unfold _startLoadingIfNeeded, needsLoading, loads.
  unfold mbind at 1. unfold M_bind at 1. unfold this at 1.
  unfold mbind at 1. unfold M_bind at 1. unfold this at 1.
  destruct (Props.storage (props w)) as [s|], (State.promise (state w)) as [n|],
    (State.perspectives (state w)) as [ps|]; try reflexivity.
  destruct w as [p st us m c l sto wb lay res im tr aw nx].
  monad; fields. destruct m; reflexivity.
Qed.

Lemma componentDidUpdate_run (w : World) :
  componentDidUpdate w = (Returned (), afterUpdate w).
Proof.
  unfold componentDidUpdate.
  unfold mbind at 1. unfold M_bind at 1. unfold this at 1.
  erewrite bind_run by apply _setStorage_run.
  erewrite bind_run by apply _setWorkbench_run.
  rewrite _startLoadingIfNeeded_run. f_equal.
  destruct w as [[em oc sel psto pwb] [cnt err pers prom sl]
                 us m c l sto wb lay res im tr aw nx].
  cbv [afterUpdate needsLoading loads reloadPayload subscriptionChange
       listenerChange].
  fields.
  destruct (decide (sto = psto)) as [E1|E1]; fields;
    (destruct (decide (wb = pwb)) as [E2|E2]; fields;
     [destruct (decide (wb = pwb)); [|contradiction]
     |destruct (decide (wb = pwb)); [contradiction|]]).
  all: fields; destruct psto as [s1|], prom as [k|], pers as [ps|], m; fields;
    rewrite ?app_nil_r, <- ?app_assoc; try (subst; reflexivity).
Qed.

Lemma derive_counter p s : State.counter (derive p s) = State.counter s.
Proof. unfold derive, getDerivedStateFromProps. destruct (Props.selectedPerspectiveId p); reflexivity. Qed.
Lemma derive_error p s : State.error (derive p s) = State.error s.
Proof. unfold derive, getDerivedStateFromProps. destruct (Props.selectedPerspectiveId p); reflexivity. Qed.
Lemma derive_perspectives p s : State.perspectives (derive p s) = State.perspectives s.
Proof. unfold derive, getDerivedStateFromProps. destruct (Props.selectedPerspectiveId p); reflexivity. Qed.
Lemma derive_promise p s : State.promise (derive p s) = State.promise s.
Proof. unfold derive, getDerivedStateFromProps. destruct (Props.selectedPerspectiveId p); reflexivity. Qed.
Lemma derive_selectedPerspectiveId p s :
  State.selectedPerspectiveId (derive p s) =
  match Props.selectedPerspectiveId p with
  | Some v => v
  | None => State.selectedPerspectiveId s
  end.
Proof. unfold derive, getDerivedStateFromProps. destruct (Props.selectedPerspectiveId p); reflexivity. Qed.

Lemma settle_S (fuel : nat) (w : World) :
  settle (S fuel) w =
  match updates w with [] => w | _ :: _ => settle fuel (round w) end.
Proof. cbn [settle]. rewrite componentDidUpdate_run. reflexivity. Qed.

Lemma round_updates (w : World) :
  updates (round w) =
  if mounted w then
    (if decide (_storage w = Props.storage (props w)) then []
     else [reloadPayload (reconcile w)])
    ++ match needsLoading (reconcile w) with
       | Some _ => [[promise_ (Some (next w))]]
       | None => []
       end
  else [].
Proof. reflexivity. Qed.

Lemma round_storage w : _storage (round w) = Props.storage (props w).
Proof. reflexivity. Qed.
Lemma round_props w : props (round w) = props w.
Proof. reflexivity. Qed.
Lemma round_mounted w : mounted (round w) = mounted w.
Proof. reflexivity. Qed.

Lemma needsLoading_promised (w : World) (n : nat) :
  updates w = [[promise_ (Some n)]] → needsLoading (reconcile w) = None.
Proof.
  intros H. unfold needsLoading, loads, reconcile. fields. rewrite H.
  rewrite derive_promise. fields. destruct (Props.storage (props w)); reflexivity.
Qed.

Lemma settle_quiescent (w : World) : updates (settle 3 w) = [].
Proof.
  rewrite settle_S. destruct (updates w) as [|u us] eqn:Hu; [exact Hu|].
  rewrite settle_S. destruct (updates (round w)) as [|u1 us1] eqn:Hu1; [exact Hu1|].
  rewrite settle_S. destruct (updates (round (round w))) as [|u2 us2] eqn:Hu2; [exact Hu2|].
  cbn [settle].
  rewrite round_updates in Hu2. rewrite round_storage, round_props, round_mounted in Hu2.
  rewrite round_updates. rewrite !round_storage, !round_props, !round_mounted.
  destruct (mounted w) eqn:Hm; [|reflexivity].
  rewrite decide_True in * by reflexivity.
  destruct (needsLoading (reconcile (round w))) eqn:Hn; [|discriminate].
  cbn [app] in *. erewrite needsLoading_promised; [reflexivity|].
  rewrite round_updates. rewrite round_storage, round_props, round_mounted, Hm.
  rewrite decide_True by reflexivity. rewrite Hn. reflexivity.
Qed.

(** ** Handlers leave the subscriptions alone *)

Ltac steady :=
  intros;
  match goal with w : World |- _ => open_world w end;
  handlers; monad; fields; cases;
  split; fields;
  first [ reflexivity | discriminate | intros; lia
        | intros Hf n a Hl;
          apply lookup_insert_Some in Hl as [[<- _]|[_ Hl]];
          [lia | apply Hf in Hl; lia]
        | intros Hf n a Hl; exact (Hf n a Hl) ].

Lemma Steady_refl w : Steady w w.
Proof. split; auto. Qed.

Lemma steady_click id w : Steady w (_onPerspectiveButtonClicked id w).2.
Proof. steady. Qed.
Lemma steady_new w : Steady w (_createNewPerspective w).2.
Proof. steady. Qed.
Lemma steady_save w : Steady w (_persistModificationsOfCurrentPerspective w).2.
Proof. steady. Qed.
Lemma steady_reload w : Steady w (_forceReload w).2.
Proof. steady. Qed.
Lemma steady_storageChanged w : Steady w (_onStorageChanged w).2.
Proof. steady. Qed.
Lemma steady_workbenchChanged w : Steady w (_onWorkbenchChanged w).2.
Proof. steady. Qed.
Lemma steady_resume a r m w : resume a r = Some m → Steady w (m w).2.
Proof.
  intros H. destruct a, r; cbn [resume] in H; simplify_eq; steady.
Qed.

(** ** Renders cause no surprises *)

Lemma Framed_refl w : Framed w w.
Proof. split; reflexivity. Qed.

Lemma Framed_trans w1 w2 w3 : Framed w1 w2 → Framed w2 w3 → Framed w1 w3.
Proof. intros [] []. split; congruence. Qed.

Lemma round_framed w : Framed w (round w).
Proof. split; reflexivity. Qed.

Lemma settle_framed fuel w : Framed w (settle fuel w).
Proof.
  revert w. induction fuel as [|fuel IH]; intros w; [apply Framed_refl|].
  rewrite settle_S. destruct (updates w); [apply Framed_refl|].
  eapply Framed_trans; [apply round_framed | apply IH].
Qed.

Lemma settle_idle fuel w : updates w = [] → settle fuel w = w.
Proof. intros H. destruct fuel; [reflexivity|]. rewrite settle_S, H. reflexivity. Qed.

Lemma settle_subscribed fuel w :
  _storage w = Props.storage (props w) →
  _workbench w = Props.workbench (props w) →
  _storage (settle fuel w) = Props.storage (props w)
  ∧ _workbench (settle fuel w) = Props.workbench (props w).
Proof.
  revert w. induction fuel as [|fuel IH]; intros w Hs Hw; [auto|].
  rewrite settle_S. destruct (updates w); [auto|].
  apply (IH (round w)); reflexivity.
Qed.

Lemma afterUpdate_next w :
  (∀ n a, awaiting w !! n = Some a → n < next w) →
  (∀ n a, awaiting (afterUpdate w) !! n = Some a → n < next (afterUpdate w)).
Proof.
  intros Hf n a. unfold afterUpdate. fields.
  destruct (needsLoading w).
  - intros Hl. apply lookup_insert_Some in Hl as [[<- _]|[_ Hl]]; [lia|].
    apply Hf in Hl. lia.
  - apply Hf.
Qed.

Lemma round_next w :
  (∀ n a, awaiting w !! n = Some a → n < next w) →
  (∀ n a, awaiting (round w) !! n = Some a → n < next (round w)).
Proof. intros Hf. apply afterUpdate_next. exact Hf. Qed.

Lemma settle_next fuel w :
  (∀ n a, awaiting w !! n = Some a → n < next w) →
  (∀ n a, awaiting (settle fuel w) !! n = Some a → n < next (settle fuel w)).
Proof.
  revert w. induction fuel as [|fuel IH]; intros w Hf; [exact Hf|].
  rewrite settle_S. destruct (updates w); [exact Hf|].
  apply IH, round_next, Hf.
Qed.

(** ** The invariant *)

Lemma handle_inv m w : Inv w → Steady w (m w).2 → Inv (handle m w).
Proof.
  intros [Hu Hc Hs Hw Hn] [Sp Sm Ss Sw _ Su Sc Sn]. unfold handle.
  destruct (settle_framed 3 (m w).2) as [Fp Fm Fc _ _ _ _].
  split.
  - apply settle_quiescent.
  - rewrite Fc. auto.
  - rewrite Fm, Fp.
    destruct (updates (m w).2) as [|u us] eqn:Hu'.
    + rewrite settle_idle by exact Hu'. rewrite Ss, Sm, Sp. exact Hs.
    + destruct (mounted w) eqn:Hm.
      * rewrite Sm. rewrite settle_S, Hu'.
        apply (settle_subscribed 2 (round (m w).2)); reflexivity.
      * specialize (Su eq_refl). congruence.
  - rewrite Fm, Fp.
    destruct (updates (m w).2) as [|u us] eqn:Hu'.
    + rewrite settle_idle by exact Hu'. rewrite Sw, Sm, Sp. exact Hw.
    + destruct (mounted w) eqn:Hm.
      * rewrite Sm. rewrite settle_S, Hu'.
        apply (settle_subscribed 2 (round (m w).2)); reflexivity.
      * specialize (Su eq_refl). congruence.
  - apply settle_next, Sn, Hn.
Qed.

Lemma componentDidMount_run w : componentDidMount w = (Returned (), afterUpdate w).
Proof. exact (componentDidUpdate_run w). Qed.

Lemma lifecycle_inv w :
  updates w = [] → mounted w = true → (0 ≤ _ignoreStateChangeCounter w)%Z →
  (∀ n a, awaiting w !! n = Some a → n < next w) →
  Inv (settle 3 (afterUpdate w)).
Proof.
  intros Hu Hm Hc Hn.
  destruct (settle_framed 3 (afterUpdate w)) as [Fp Fm Fc _ _ _ _].
  destruct (settle_subscribed 3 (afterUpdate w)) as [Hs Hw]; [reflexivity..|].
  split.
  - apply settle_quiescent.
  - rewrite Fc. exact Hc.
  - rewrite Fm, Fp. cbn [afterUpdate mounted props]. rewrite Hm. exact Hs.
  - rewrite Fm, Fp. cbn [afterUpdate mounted props]. rewrite Hm. exact Hw.
  - apply settle_next, afterUpdate_next, Hn.
Qed.

Lemma handle_lifecycle w :
  handle componentDidUpdate w = settle 3 (afterUpdate w).
Proof. unfold handle. rewrite componentDidUpdate_run. reflexivity. Qed.

Lemma unmount_inv w : Inv w → Inv (set_updates [] (set_mounted false (componentWillUnmount w).2)).
Proof.
  intros [Hu Hc Hs Hw Hn]. open_world w.
  cbv [componentWillUnmount _setStorage _setWorkbench _forceReload _cancelLoading].
  monad. fields. cases; split; fields; auto.
Qed.

Lemma step_inv e w w' : Inv w → step e w = Some w' → Inv w'.
Proof.
  intros HI Hstep. destruct e; cbn [step] in Hstep.
  - destruct (mounted w) eqn:Hm; [|discriminate]. simplify_eq.
    rewrite handle_lifecycle. destruct HI as [Hu Hc Hs Hw Hn].
    apply lifecycle_inv; unfold reconcile; fields; auto.
  - destruct (mounted w) eqn:Hm; [|discriminate]. simplify_eq.
    apply unmount_inv, HI.
  - destruct (offers _ w); simplify_eq. apply handle_inv, steady_click; exact HI.
  - destruct (offers _ w); simplify_eq. apply handle_inv, steady_new; exact HI.
  - destruct (offers _ w); simplify_eq. apply handle_inv, steady_save; exact HI.
  - destruct (offers _ w); simplify_eq. apply handle_inv, steady_reload; exact HI.
  - case_decide; simplify_eq. apply handle_inv, steady_storageChanged; exact HI.
  - case_decide; simplify_eq. apply handle_inv, steady_workbenchChanged; exact HI.
  - simplify_eq. destruct HI. split; fields; auto.
  - simplify_eq. destruct HI. split; fields; auto.
  - destruct (awaiting w !! n) as [a|] eqn:Ha; [|discriminate].
    cbn [mbind option_bind] in Hstep.
    destruct (resume a r) as [m|] eqn:Hr; [|discriminate].
    cbn [mbind option_bind] in Hstep. simplify_eq.
    apply handle_inv; [|eapply steady_resume, Hr].
    destruct HI as [Hu Hc Hs Hw Hn]. split; fields; auto.
    intros k b Hl. apply lookup_delete_Some in Hl as [_ Hl]. eauto.
Qed.

Lemma mount_inv p layout0 restored0 isModified0 :
  Inv (mount p layout0 restored0 isModified0).
Proof.
  unfold mount, handle. rewrite componentDidMount_run.
  apply lifecycle_inv; unfold reconcile, constructor; fields; auto; [lia|].
  intros n a Hl. rewrite lookup_empty in Hl. discriminate.
Qed.

Lemma run_inv es w w' : Inv w → run es w = Some w' → Inv w'.
Proof.
  revert w. induction es as [|e es IH]; intros w HI Hrun; cbn [run] in Hrun.
  - simplify_eq. exact HI.
  - destruct (step e w) as [w1|] eqn:Hs; [|discriminate].
    cbn [mbind option_bind] in Hrun. eapply IH; [|exact Hrun].
    eapply step_inv; eauto.
Qed.

Lemma reachable_inv w : reachable w → Inv w.
Proof.
  intros (p & l & r & i & es & Hrun). eapply run_inv; [|exact Hrun].
  apply mount_inv.
Qed.

Lemma reachable_step e w w' : reachable w → step e w = Some w' → reachable w'.
Proof.
  intros (p & l & r & i & es & Hrun) Hs. exists p, l, r, i, (es ++ [e]).
  revert Hrun. generalize (mount p l r i). induction es as [|e0 es IH]; intros w0 Hrun; cbn [run app] in *.
  - simplify_eq. rewrite Hs. reflexivity.
  - destruct (step e0 w0) as [w1|]; [|discriminate]. cbn [mbind option_bind] in *. apply IH, Hrun.
Qed.

(** ** Single steps *)

Lemma suppressed_run (w : World) :
  (0 < _ignoreStateChangeCounter w)%Z →
  _onWorkbenchChanged w =
  (Returned (),
   set__ignoreStateChangeCounter (_ignoreStateChangeCounter w - 1) w).
Proof.
  intros H. unfold _onWorkbenchChanged. monad.
  destruct (Z.ltb_spec 0 (_ignoreStateChangeCounter w)); [reflexivity|lia].
Qed.

Lemma step_settled (w : World) (n : nat) (a : Await) (r : Reply) (m : M unit) :
  awaiting w !! n = Some a → resume a r = Some m →
  step (Settled n r) w = Some (handle m (set_awaiting (delete n (awaiting w)) w)).
Proof. intros Ha Hr. cbn [step]. rewrite Ha. cbn. rewrite Hr. reflexivity. Qed.

Lemma load_resumed (w : World) (id : string) (perspective : IPerspective)
    (b : Workbench) :
  Props.workbench (props w) = Some b →
  let w' := (_loadPerspectiveById_resume id perspective w).2 in
  _ignoreStateChangeCounter w' = (_ignoreStateChangeCounter w + 1)%Z
  ∧ trace w' = trace w ++ [workbench_restoreState b (Perspective.state perspective)]
  ∧ awaiting w' = awaiting w
  ∧ _lastState w' = Some (restored w (Perspective.state perspective))
  ∧ layout w' b = restored w (Perspective.state perspective).
Proof.
  intros Hb. open_world w. fields. subst pwb.
  handlers. monad. fields.
  destruct m; fields; repeat split; try reflexivity;
    rewrite decide_True by reflexivity; reflexivity.
Qed.

(** C1.  A "stateChanged" notification that arrives while the suppression
    counter is positive only decrements the counter: no effect is emitted
    and nothing is parked, so no autosave starts.  In particular, when a
    perspective load settles on a mounted bar, the counter goes up by one,
    and the notification that [restoreState] causes brings it back to its
    former value without any call to the storage. *)
Theorem workbench_change_suppressed :
  (∀ w : World,
     (0 < _ignoreStateChangeCounter w)%Z →
     _onWorkbenchChanged w =
     (Returned (),
      set__ignoreStateChangeCounter (_ignoreStateChangeCounter w - 1) w))
  ∧ (∀ (w : World) (n : nat) (id : string) (perspective : IPerspective)
       (b : Workbench),
       reachable w → mounted w = true →
       Props.workbench (props w) = Some b →
       awaiting w !! n = Some (await_load id) →
       ∃ w1 w2,
         step (Settled n (loaded perspective)) w = Some w1
         ∧ _ignoreStateChangeCounter w1 = (_ignoreStateChangeCounter w + 1)%Z
         ∧ step (WorkbenchChanged b) w1 = Some w2
         ∧ _ignoreStateChangeCounter w2 = _ignoreStateChangeCounter w
         ∧ trace w2 = trace w1
         ∧ awaiting w2 = awaiting w1
         ∧ _lastState w2 = _lastState w1).
Proof.
  split; [exact suppressed_run|].
  intros w n id perspective b Hr Hm Hb Ha.
  pose proof (reachable_inv w Hr) as HI.
  pose proof (step_settled w n _ (loaded perspective) _ Ha eq_refl) as Hs1.
  set (w0 := set_awaiting (delete n (awaiting w)) w) in *.
  set (w1 := handle (_loadPerspectiveById_resume id perspective) w0) in *.
  assert (HI1 : Inv w1) by (eapply step_inv; [exact HI | exact Hs1]).
  destruct (load_resumed w0 id perspective b Hb) as (Hc & _).
  destruct (settle_framed 3 (_loadPerspectiveById_resume id perspective w0).2)
    as [Fp Fm Fc _ _ _ _].
  destruct (steady_resume (await_load id) (loaded perspective) _ w0 eq_refl)
    as [Sp Sm _ _ _ _ _ _].
  assert (Hc1 : _ignoreStateChangeCounter w1 = (_ignoreStateChangeCounter w + 1)%Z).
  { unfold w1, handle. rewrite Fc, Hc. reflexivity. }
  assert (Hw1 : _workbench w1 = Some b).
  { rewrite (inv_workbench _ HI1). unfold w1, handle. rewrite Fm, Fp, Sm, Sp.
    subst w0. fields. rewrite Hm. exact Hb. }
  exists w1, (set__ignoreStateChangeCounter (_ignoreStateChangeCounter w1 - 1) w1).
  split; [exact Hs1|]. split; [exact Hc1|].
  split.
  - cbn [step]. rewrite decide_True by exact Hw1.
    unfold handle. rewrite suppressed_run.
    + rewrite settle_idle; [reflexivity|]. fields. apply (inv_updates _ HI1).
    + pose proof (inv_counter _ HI). lia.
  - fields. repeat split. lia.
Qed.

Lemma click_selected_run (w : World) (id : string) :
  State.selectedPerspectiveId (state w) = Some id →
  _onPerspectiveButtonClicked id w =
  (Returned (), (_revertModificationsOfCurrentPerspective w).2).
Proof.
  intros H. unfold _onPerspectiveButtonClicked. monad.
  rewrite decide_True by exact H. reflexivity.
Qed.

Lemma revert_run (w : World) (id : string) :
  State.selectedPerspectiveId (state w) = Some id →
  (_revertModificationsOfCurrentPerspective w).2 =
  match Props.storage (props w) with
  | None => warned noStorageWhileReverting w
  | Some s =>
      if isModified w s id then
        match Props.workbench (props w) with
        | Some b => parked (environment_confirm b revertQuestion) (await_confirm s id) w
        | None => w
        end
      else w
  end.
Proof.
  intros H. unfold _revertModificationsOfCurrentPerspective, parked. monad.
  rewrite H. destruct (Props.storage (props w)) as [s|]; [|reflexivity].
  destruct (isModified w s id); [|reflexivity].
  destruct (Props.workbench (props w)); reflexivity.
Qed.

Lemma confirmation_run (w : World) (s : IPerspectiveStorage) (id : string)
    (confirmation : bool) :
  (_revertModificationsOfCurrentPerspective_confirmation s id confirmation w).2 =
  if confirmation
  then parked (storage_revertModifications s id) (await_revertModifications id) w
  else w.
Proof. destruct confirmation; reflexivity. Qed.

Lemma load_run (w : World) (id : string) :
  (_loadPerspectiveById id w).2 =
  match Props.storage (props w) with
  | Some s => parked (storage_load s id) (await_load id) w
  | None => warned noStorageWhileLoading w
  end.
Proof.
  unfold _loadPerspectiveById. monad.
  destruct (Props.storage (props w)); reflexivity.
Qed.

Lemma handle_idle (m : M unit) (w : World) :
  updates (m w).2 = [] → handle m w = (m w).2.
Proof. intros H. unfold handle. apply settle_idle, H. Qed.

(** C2.  A click on the button of the selected perspective, on a bar
    that shows it: without a storage only the diagnostic is logged; with a storage
    that does not mark the perspective as modified (or without a workbench
    to ask) the world stays as it is; otherwise the only effect is the
    confirmation prompt.  A negative answer leaves the trace as it is and
    nothing parked; a positive one calls [revertModifications], and when
    that is fulfilled, [load] with the same id.  ([isModified] is a
    synchronous query of the storage and leaves no trace.) *)
Theorem revert_only_after_confirmation (w : World) (id : string) :
  reachable w → offers (isLoadButton id) w = true →
  State.selectedPerspectiveId (state w) = Some id →
  ∃ w1,
    step (PerspectiveButtonClicked id) w = Some w1
    ∧ match Props.storage (props w) with
      | None =>
          trace w1 = trace w ++ [console_warn noStorageWhileReverting]
          ∧ awaiting w1 = awaiting w
      | Some s =>
          if isModified w s id then
            match Props.workbench (props w) with
            | None => w1 = w
            | Some b =>
                trace w1 = trace w ++ [environment_confirm b revertQuestion]
                ∧ awaiting w1 = <[next w := await_confirm s id]> (awaiting w)
                ∧ (∃ w2,
                     step (Settled (next w) (confirmed false)) w1 = Some w2
                     ∧ trace w2 = trace w1
                     ∧ awaiting w2 = awaiting w)
                ∧ (∃ w2 w3,
                     step (Settled (next w) (confirmed true)) w1 = Some w2
                     ∧ trace w2 =
                         trace w1 ++ [storage_revertModifications s id]
                     ∧ step (Settled (next w1) fulfilled) w2 = Some w3
                     ∧ trace w3 = trace w2 ++ [storage_load s id])
            end
          else w1 = w
      end.
Proof.
  intros Hr Hoff Hsel. pose proof (reachable_inv w Hr) as [Hu _ _ _ Hn].
  eexists. split.
  { cbn [step]. rewrite Hoff. reflexivity. }
  rewrite handle_idle; rewrite click_selected_run by exact Hsel; cbn [snd];
    rewrite (revert_run w id Hsel).
  2: { destruct (Props.storage (props w)) as [s|]; [|exact Hu].
       destruct (isModified w s id); [|exact Hu].
       destruct (Props.workbench (props w)); exact Hu. }
  destruct (Props.storage (props w)) as [s|] eqn:Hs; [|split; reflexivity].
  destruct (isModified w s id) eqn:Hmod; [|reflexivity].
  destruct (Props.workbench (props w)) as [b|] eqn:Hb; [|reflexivity].
  set (w1 := parked _ _ w).
  split; [reflexivity|]. split; [reflexivity|].
  assert (Ha1 : awaiting w1 !! next w = Some (await_confirm s id)).
  { unfold w1, parked. fields. apply lookup_insert_eq. }
  split.
  - eexists. split; [apply (step_settled w1 _ _ (confirmed false) _ Ha1 eq_refl)|].
    rewrite handle_idle; rewrite confirmation_run; fields; [|exact Hu].
    split; [reflexivity|]. apply delete_insert_id.
    destruct (awaiting w !! next w) as [a|] eqn:Ha; [|reflexivity].
    apply Hn in Ha. lia.
  - eexists. eexists. split; [apply (step_settled w1 _ _ (confirmed true) _ Ha1 eq_refl)|].
    rewrite handle_idle; rewrite confirmation_run; fields; [|exact Hu].
    split; [reflexivity|].
    set (w2 := parked _ _ _).
    assert (Ha2 : awaiting w2 !! next w1 = Some (await_revertModifications id)).
    { unfold w2, parked. fields. apply lookup_insert_eq. }
    split; [apply (step_settled w2 _ _ fulfilled _ Ha2 eq_refl)|].
    unfold _revertModificationsOfCurrentPerspective_reverted.
    rewrite handle_idle; rewrite load_run; unfold w2, w1, parked; fields;
      rewrite Hs; [|exact Hu].
    reflexivity.
Qed.

(** ** Rounds on a mounted bar *)

Lemma subscriptionChange_same (o : option IPerspectiveStorage) :
  subscriptionChange o o = [].
Proof. unfold subscriptionChange. rewrite decide_True by reflexivity. reflexivity. Qed.

Lemma listenerChange_same (o : option Workbench) : listenerChange o o = [].
Proof. unfold listenerChange. rewrite decide_True by reflexivity. reflexivity. Qed.

Lemma enumerations_app (t1 t2 : list Effect) :
  enumerations (t1 ++ t2) = enumerations t1 ++ enumerations t2.
Proof. apply omap_app. Qed.

Lemma enumerations_subscriptionChange o1 o2 :
  enumerations (subscriptionChange o1 o2) = [].
Proof.
  unfold subscriptionChange. case_decide; [reflexivity|].
  destruct o1, o2; reflexivity.
Qed.

Lemma enumerations_listenerChange o1 o2 :
  enumerations (listenerChange o1 o2) = [].
Proof.
  unfold listenerChange. case_decide; [reflexivity|].
  destruct o1, o2; reflexivity.
Qed.

Lemma loads_derive p s : loads p (derive p s) = loads p s.
Proof. unfold loads. rewrite derive_promise, derive_perspectives. reflexivity. Qed.

Lemma loads_promised p s n : loads p (merge s [promise_ (Some n)]) = None.
Proof. unfold loads. fields. destruct (Props.storage p); reflexivity. Qed.

(** One round on a mounted bar. *)
Lemma round_fields (w : World) :
  mounted w = true →
  Framed w (round w)
  ∧ state (round w) = rendering w
  ∧ _storage (round w) = Props.storage (props w)
  ∧ _workbench (round w) = Props.workbench (props w)
  ∧ updates (round w) =
      (if decide (_storage w = Props.storage (props w)) then []
       else [reloadPayload (reconcile w)])
      ++ match loads (props w) (rendering w) with
         | Some _ => [[promise_ (Some (next w))]]
         | None => []
         end
  ∧ trace (round w) =
      trace w
      ++ subscriptionChange (_storage w) (Props.storage (props w))
      ++ listenerChange (_workbench w) (Props.workbench (props w))
      ++ match loads (props w) (rendering w) with
         | Some s => [storage_map s]
         | None => []
         end
  ∧ awaiting (round w) =
      match loads (props w) (rendering w) with
      | Some _ => <[next w := await_map]> (awaiting w)
      | None => awaiting w
      end
  ∧ next (round w) =
      match loads (props w) (rendering w) with
      | Some _ => S (next w)
      | None => next w
      end.
Proof.
  intros Hm. split; [apply round_framed|].
  unfold round, afterUpdate, rendering. fields.
  change (needsLoading (reconcile w)) with (loads (props w) (rendering w)).
  unfold reconcile at 1 2 3 4 5 6 7 8. fields. rewrite Hm.
  repeat split; reflexivity.
Qed.

Lemma settle_subscribed_run (w : World) :
  mounted w = true →
  _storage w = Props.storage (props w) →
  updates w ≠ [] →
  settle 3 w =
  match loads (props w) (rendering w) with
  | None => round w
  | Some _ => round (round w)
  end.
Proof.
  intros Hm Hs Hu. rewrite settle_S.
  destruct (updates w) as [|u us] eqn:Hus; [contradiction|].
  destruct (round_fields w Hm) as (_ & _ & _ & _ & Hr & _).
  rewrite decide_True in Hr by exact Hs. cbn [app] in Hr.
  rewrite settle_S, Hr.
  destruct (loads (props w) (rendering w)) as [s|]; [|reflexivity].
  rewrite settle_S.
  rewrite round_updates, round_mounted, round_storage, round_props, Hm.
  rewrite decide_True by reflexivity.
  rewrite (needsLoading_promised (round w) (next w) Hr). reflexivity.
Qed.

(** The renders after a handler, on a mounted bar whose subscriptions are
    up to date: the queue is merged, and an enumeration starts when the
    merged state calls for one. *)
Lemma settled_fields (w : World) :
  mounted w = true →
  _storage w = Props.storage (props w) →
  _workbench w = Props.workbench (props w) →
  updates w ≠ [] →
  Framed w (settle 3 w)
  ∧ updates (settle 3 w) = []
  ∧ _storage (settle 3 w) = _storage w
  ∧ _workbench (settle 3 w) = _workbench w
  ∧ match loads (props w) (rendering w) with
    | Some s =>
        state (settle 3 w) =
          derive (props w) (merge (rendering w) [promise_ (Some (next w))])
        ∧ trace (settle 3 w) = trace w ++ [storage_map s]
        ∧ awaiting (settle 3 w) = <[next w := await_map]> (awaiting w)
        ∧ next (settle 3 w) = S (next w)
    | None =>
        state (settle 3 w) = rendering w
        ∧ trace (settle 3 w) = trace w
        ∧ awaiting (settle 3 w) = awaiting w
        ∧ next (settle 3 w) = next w
    end.
Proof.
  intros Hm Hs Hw Hu.
  split; [apply settle_framed|]. split; [apply settle_quiescent|].
  rewrite (settle_subscribed_run w Hm Hs Hu).
  destruct (round_fields w Hm) as ([Fp Fm _ _ _ _ _] & Hst & Hs1 & Hw1 & Hu1 & Ht1 & Ha1 & Hn1).
  rewrite Hs, Hw, subscriptionChange_same, listenerChange_same in Ht1.
  rewrite decide_True in Hu1 by exact Hs.
  cbn [app] in *.
  destruct (loads (props w) (rendering w)) as [s|] eqn:Hl.
  - assert (Hm1 : mounted (round w) = true) by congruence.
    destruct (round_fields (round w) Hm1) as (_ & Hst2 & Hs2 & Hw2 & Hu2 & Ht2 & Ha2 & Hn2).
    assert (Hr2 : rendering (round w) =
                  derive (props w) (merge (rendering w) [promise_ (Some (next w))])).
    { unfold rendering at 1. rewrite Fp, Hst, Hu1. reflexivity. }
    rewrite Hr2, Fp, loads_derive, loads_promised in *.
    rewrite Hs1, Hw1, subscriptionChange_same, listenerChange_same in Ht2.
    rewrite !app_nil_r in Ht2.
    rewrite Hs2, Hw2, Hst2, Ht2, Ha2, Hn2, Ht1, Ha1, Hn1, Hs, Hw. auto 10.
  - rewrite app_nil_r in Ht1. rewrite Hs1, Hw1, Hst, Ht1, Ha1, Hn1, Hs, Hw. auto 10.
Qed.


Lemma Inv_fresh (w : World) : Inv w → awaiting w !! next w = None.
Proof.
  intros [_ _ _ _ Hn].
  destruct (awaiting w !! next w) as [a|] eqn:Ha; [|reflexivity].
  apply Hn in Ha. lia.
Qed.


(** ** The in-flight marker is numbered *)

Ltac calm :=
  intros;
  match goal with w : World |- _ => open_world w end;
  handlers; monad; fields; cases;
  split; fields;
  first [ reflexivity | lia
        | exists []; split; [symmetry; apply app_nil_r | reflexivity]
        | eexists; split; reflexivity ].

Lemma calm_click id w : Calm w (_onPerspectiveButtonClicked id w).2.
Proof. calm. Qed.
Lemma calm_new w : Calm w (_createNewPerspective w).2.
Proof. calm. Qed.
Lemma calm_save w : Calm w (_persistModificationsOfCurrentPerspective w).2.
Proof. calm. Qed.
Lemma calm_reload w : Calm w (_forceReload w).2.
Proof. calm. Qed.
Lemma calm_storageChanged w : Calm w (_onStorageChanged w).2.
Proof. calm. Qed.
Lemma calm_workbenchChanged w : Calm w (_onWorkbenchChanged w).2.
Proof. calm. Qed.
Lemma calm_resume a r m w : resume a r = Some m → Calm w (m w).2.
Proof. intros H. destruct a, r; cbn [resume] in H; simplify_eq; calm. Qed.

Lemma numbered_le k k' s : k ≤ k' → numbered k s → numbered k' s.
Proof. intros Hk H n Hn. apply H in Hn. lia. Qed.

Lemma numbered_derive k p s : numbered k s → numbered k (derive p s).
Proof. unfold numbered. rewrite derive_promise. auto. Qed.

Lemma numbered_assign k s a :
  match a with promise_ (Some n) => n < k | _ => True end →
  numbered k s → numbered k (assign s a).
Proof.
  intros Ha H n. destruct a as [| | | [m|] |]; cbn; intros Hn; simplify_eq;
    auto.
Qed.

Lemma numbered_merge_quiet k s payload :
  quiet payload = true → numbered k s → numbered k (merge s payload).
Proof.
  unfold merge, quiet. revert s.
  induction payload as [|a payload IH]; intros s Hq H; [exact H|].
  cbn [forallb foldl] in *. apply andb_true_iff in Hq as [Ha Hq].
  apply IH; [exact Hq|]. apply numbered_assign; [|exact H].
  destruct a as [| | | [m|] |]; auto; discriminate.
Qed.

Lemma numbered_foldl_quiet k s payloads :
  forallb quiet payloads = true → numbered k s →
  numbered k (foldl merge s payloads).
Proof.
  revert s. induction payloads as [|u us IH]; intros s Hq H; [exact H|].
  cbn [forallb foldl] in *. apply andb_true_iff in Hq as [Hu Hq].
  apply IH; [exact Hq|]. apply numbered_merge_quiet; assumption.
Qed.

(** After the renders: the marker is numbered if the state to render is. *)
Lemma numbered_settled (w : World) :
  mounted w = true →
  _storage w = Props.storage (props w) →
  _workbench w = Props.workbench (props w) →
  updates w ≠ [] →
  numbered (next w) (rendering w) →
  numbered (next (settle 3 w)) (state (settle 3 w)).
Proof.
  intros Hm Hs Hw Hu H.
  destruct (settled_fields w Hm Hs Hw Hu) as (_ & _ & _ & _ & Hf).
  destruct (loads (props w) (rendering w)); destruct Hf as (-> & _ & _ & ->).
  - apply numbered_derive. intros n. cbn. intros [= <-]. lia.
  - exact H.
Qed.

Lemma numbered_handle m w :
  Inv w → Steady w (m w).2 → Calm w (m w).2 →
  numbered (next w) (state w) →
  numbered (next (handle m w)) (state (handle m w)).
Proof.
  intros [Hu _ Hs Hw _] [Sp Sm Ss Sw _ Su _ _] [Cs (extra & Cq & Ce) Cn] H.
  unfold handle. rewrite Hu in Cq. cbn [app] in Cq.
  destruct (updates (m w).2) as [|u us] eqn:Hu'.
  - rewrite settle_idle by exact Hu'. rewrite Cs.
    eapply numbered_le; [exact Cn | exact H].
  - destruct (mounted w) eqn:Hm; [|specialize (Su eq_refl); congruence].
    apply numbered_settled.
    + congruence.
    + rewrite Ss, Sp. exact Hs.
    + rewrite Sw, Sp. exact Hw.
    + rewrite Hu'. discriminate.
    + unfold rendering. rewrite Hu', Cq, Cs. apply numbered_derive.
      apply numbered_foldl_quiet; [exact Ce|].
      eapply numbered_le; [exact Cn | exact H].
Qed.

Lemma numbered_lifecycle w :
  updates w = [] → mounted w = true →
  numbered (next w) (state w) →
  numbered (next (settle 3 (round w))) (state (settle 3 (round w))).
Proof.
  intros Hu Hm H.
  destruct (round_fields w Hm) as ([Fp Fm _ _ _ _ _] & Hst & Hs1 & Hw1 & Hu1 & _ & _ & Hn1).
  assert (Hrw : rendering w = derive (props w) (state w)).
  { unfold rendering. rewrite Hu. reflexivity. }
  destruct (updates (round w)) as [|u us] eqn:Hu'.
  - rewrite settle_idle by exact Hu'. rewrite Hst, Hrw.
    apply numbered_derive. eapply numbered_le; [|exact H].
    rewrite Hn1. destruct (loads _ _); lia.
  - apply numbered_settled.
    + congruence.
    + rewrite Hs1, Fp. reflexivity.
    + rewrite Hw1, Fp. reflexivity.
    + rewrite Hu'. discriminate.
    + unfold rendering. rewrite Hu', Fp, Hst, Hu1, Hn1, Hrw.
      apply numbered_derive.
      rewrite foldl_app.
      assert (H1 : numbered (next w)
                 (foldl merge (derive (props w) (state w))
                    (if decide (_storage w = Props.storage (props w))
                     then [] else [reloadPayload (reconcile w)]))).
      { case_decide; cbn [foldl].
        - apply numbered_derive, H.
        - apply numbered_merge_quiet; [reflexivity|]. apply numbered_derive, H. }
      destruct (loads (props w) (derive (props w) (state w))).
      * cbn [foldl]. intros n. cbn. intros [= <-]. lia.
      * exact H1.
Qed.

Lemma numbered_step e w w' :
  Inv w → numbered (next w) (state w) → step e w = Some w' →
  numbered (next w') (state w').
Proof.
  intros HI H Hstep. destruct e; cbn [step] in Hstep.
  - destruct (mounted w) eqn:Hm; [|discriminate]. simplify_eq.
    rewrite handle_lifecycle.
    change (afterUpdate (reconcile (set_props p w))) with (round (set_props p w)).
    apply numbered_lifecycle; [apply (inv_updates _ HI) | exact Hm | exact H].
  - destruct (mounted w) eqn:Hm; [|discriminate]. simplify_eq.
    revert H. open_world w.
    cbv [componentWillUnmount _setStorage _setWorkbench _forceReload
         _cancelLoading].
    monad. fields. cases; auto.
  - destruct (offers _ w); simplify_eq.
    apply numbered_handle; auto using steady_click, calm_click.
  - destruct (offers _ w); simplify_eq.
    apply numbered_handle; auto using steady_new, calm_new.
  - destruct (offers _ w); simplify_eq.
    apply numbered_handle; auto using steady_save, calm_save.
  - destruct (offers _ w); simplify_eq.
    apply numbered_handle; auto using steady_reload, calm_reload.
  - case_decide; simplify_eq.
    apply numbered_handle; auto using steady_storageChanged, calm_storageChanged.
  - case_decide; simplify_eq.
    apply numbered_handle;
      auto using steady_workbenchChanged, calm_workbenchChanged.
  - simplify_eq. exact H.
  - simplify_eq. exact H.
  - destruct (awaiting w !! n) as [a|] eqn:Ha; [|discriminate].
    cbn [mbind option_bind] in Hstep.
    destruct (resume a r) as [m|] eqn:Hr; [|discriminate].
    cbn [mbind option_bind] in Hstep. simplify_eq.
    apply numbered_handle;
      [ | eapply steady_resume, Hr | eapply calm_resume, Hr | exact H ].
    destruct HI as [Hu Hc Hs Hw Hn]. split; fields; auto.
    intros k b Hl. apply lookup_delete_Some in Hl as [_ Hl]. eauto.
Qed.

Lemma reachable_numbered w : reachable w → numbered (next w) (state w).
Proof.
  intros (p & l & r & i & es & Hrun). revert Hrun.
  assert (H0 : numbered (next (mount p l r i)) (state (mount p l r i))).
  { unfold mount, handle. rewrite componentDidMount_run.
    change (afterUpdate (reconcile ?x)) with (round x).
    apply numbered_lifecycle; [reflexivity..|]. intros n [=]. }
  revert H0. generalize (mount_inv p l r i). generalize (mount p l r i).
  induction es as [|e es IH]; intros w0 HI H0 Hrun; cbn [run] in Hrun.
  - simplify_eq. exact H0.
  - destruct (step e w0) as [w1|] eqn:Hs; [|discriminate].
    cbn [mbind option_bind] in Hrun.
    eapply IH; [ | |exact Hrun]; eauto using step_inv, numbered_step.
Qed.

(** X22.  When a mounted bar is rendered with a storage that differs from
    the one it had, the renders that follow leave no list of perspectives
    and no error flag, and start exactly one enumeration, of the new
    storage; the in-flight marker designates that enumeration, under a
    number that neither the marker before nor any parked promise carries.
    (What becomes of an enumeration that was in flight before is not part
    of this statement.) *)
Theorem storage_swap_reloads (w : World) (p : IPerspectiveBarProps)
    (s : IPerspectiveStorage) :
  reachable w → mounted w = true →
  Props.storage p = Some s → Props.storage (props w) ≠ Some s →
  ∃ w',
    step (Rendered p) w = Some w'
    ∧ State.perspectives (state w') = None
    ∧ State.error (state w') = false
    ∧ State.promise (state w') = Some (next w)
    ∧ State.promise (state w) ≠ Some (next w)
    ∧ awaiting w !! next w = None
    ∧ awaiting w' = <[next w := await_map]> (awaiting w)
    ∧ enumerations (trace w') = enumerations (trace w) ++ [s]
    ∧ _storage w' = Some s.
Proof.
  intros Hr Hm Hs Hne. pose proof (reachable_inv w Hr) as HI.
  pose proof (Inv_fresh w HI) as Hfresh.
  assert (Hold : State.promise (state w) ≠ Some (next w)).
  { intros Heq. apply (reachable_numbered w Hr) in Heq. lia. }
  destruct HI as [Hu _ Hsto _ _]. rewrite Hm in Hsto.
  eexists. split.
  { cbn [step]. rewrite Hm. reflexivity. }
  rewrite handle_lifecycle.
  change (afterUpdate (reconcile (set_props p w))) with (round (set_props p w)).
  set (x := set_props p w).
  destruct (round_fields x Hm) as ([Fp Fm _ _ _ _ _] & Hst & Hs1 & Hw1 & Hu1 & Ht1 & Ha1 & Hn1).
  assert (Hrx : rendering x = derive p (state w)).
  { unfold rendering, x. fields. rewrite Hu. reflexivity. }
  change (props x) with p in *. change (_storage x) with (_storage w) in *.
  change (awaiting x) with (awaiting w) in *. change (next x) with (next w) in *.
  change (trace x) with (trace w) in *.
  rewrite decide_False in Hu1 by congruence.
  rewrite Hrx, loads_derive in *.
  destruct (settled_fields (round x)) as (_ & _ & Hs2 & _ & H);
    [ rewrite Fm; exact Hm | rewrite Hs1, Fp; reflexivity
    | rewrite Hw1, Fp; reflexivity | rewrite Hu1; discriminate |].
  rewrite Fp in H.
  assert (Hr1 : rendering (round x) =
                derive p (foldl merge (derive p (state w)) (updates (round x)))).
  { unfold rendering. rewrite Fp, Hst. reflexivity. }
  rewrite Hr1, loads_derive, Hu1 in H.
  rewrite Hs2, Hs1, Hs.
  unfold reloadPayload in *.
  destruct (loads p (state w)) as [s0|] eqn:Hl.
  - assert (s0 = s) as ->.
    { unfold loads in Hl. rewrite Hs in Hl.
      destruct (State.promise (state w)), (State.perspectives (state w)); congruence. }
    cbn [app foldl] in H. rewrite loads_promised in H.
    destruct H as (Hst2 & Ht2 & Ha2 & _).
    rewrite Hst2, Ht2, Ha2, Ht1, Ha1.
    rewrite derive_perspectives, derive_error, derive_promise. fields.
    rewrite !enumerations_app, enumerations_subscriptionChange,
      enumerations_listenerChange.
    repeat split; assumption || reflexivity.
  - cbn [app foldl] in H.
    assert (Hl2 : loads p
              (merge (derive p (state w))
                 [counter_ (1 - State.counter (state (reconcile x)));
                  error_ false; perspectives_ None; promise_ None]) = Some s).
    { unfold loads. fields. rewrite Hs. reflexivity. }
    rewrite Hl2 in H. destruct H as (Hst2 & Ht2 & Ha2 & _).
    rewrite Hst2, Ht2, Ha2, Ht1, Ha1, Hn1.
    do 2 (rewrite ?derive_perspectives, ?derive_error, ?derive_promise; fields).
    rewrite !enumerations_app, enumerations_subscriptionChange,
      enumerations_listenerChange, !app_nil_r.
    repeat split; assumption || reflexivity.
Qed.

(** ** Absent collaborators, and creation *)

(** C5, as the code has it.  Without a storage, loading a perspective by
    id, updating the current perspective (also from the save button, given
    a workbench) and reverting it each log their diagnostic and do nothing
    else: they return, and the world differs from the one before by that
    one line of the trace.  Creating a perspective, given a workbench,
    first asks the environment about a draft, with or without a storage;
    it reaches its storage check only once the environment has confirmed
    the draft, and then logs its diagnostic and does nothing else; when
    the environment rejects the draft it does nothing at all. *)
Theorem no_storage_is_diagnosed (w : World) :
  Props.storage (props w) = None →
  (∀ id, _loadPerspectiveById id w
         = (Returned (), warned noStorageWhileLoading w))
  ∧ (∀ newState persist,
       _updateCurrentPerspectiveWith newState persist w
       = (Returned (), warned noStorageWhileSaving w))
  ∧ (∀ b persist,
       Props.workbench (props w) = Some b →
       _updateCurrentPerspective persist w
       = (Returned (), warned noStorageWhileSaving w))
  ∧ _revertModificationsOfCurrentPerspective w
    = (Returned (), warned noStorageWhileReverting w)
  ∧ (∀ b,
       Props.workbench (props w) = Some b →
       _createNewPerspective w
       = (Returned (),
          parked
            (environment_onCreatingNewPerspective b
               (Perspective.mk None (layout w b) None ""))
            (await_onCreatingNewPerspective
               (Perspective.mk None (layout w b) None ""))
            w))
  ∧ (∀ perspective,
       _createNewPerspective_confirmation true perspective w
       = (Returned (), warned noStorageWhileCreating w))
  ∧ (∀ perspective,
       _createNewPerspective_confirmation false perspective w
       = (Returned (), w)).
Proof.
  intros H. handlers. monad. rewrite H.
  split; [auto|]. split; [auto|]. split; [|split; [auto|split; [|auto]]].
  - intros b persist Hb. rewrite Hb, H. reflexivity.
  - intros b Hb. rewrite Hb. reflexivity.
Qed.



(** ** Where the baseline comes from *)

Lemma baselineRequested_app t1 t2 :
  baselineRequested (t1 ++ t2) = baselineRequested t1 || baselineRequested t2.
Proof. apply existsb_app. Qed.

Ltac provenance_known H1 H2 :=
  first
    [ reflexivity
    | discriminate
    | match goal with
      | Ha : baselineRequested _ = true |- _ => rewrite Ha; reflexivity
      end
    | rewrite H1 by assumption; reflexivity
    | erewrite H2 by eauto; reflexivity ].

Ltac provenance H1 H2 :=
  match goal with w : World |- _ => open_world w end;
  handlers; monad; fields; cases;
  split; fields;
  rewrite ?baselineRequested_app;
  cbn [baselineRequested existsb recordsBaseline orb];
  rewrite ?orb_true_r, ?orb_false_r;
  solve
    [ intros Hsome; provenance_known H1 H2
    | intros [? [=]]
    | intros kk aa Hl Hb;
      solve
        [ provenance_known H1 H2
        | apply lookup_insert_Some in Hl as [[_ <-]|[_ Hl]];
          provenance_known H1 H2 ] ].

Lemma provenance_click id w : Provenance w → Provenance (_onPerspectiveButtonClicked id w).2.
Proof. intros [H1 H2]. provenance H1 H2. Qed.
Lemma provenance_new w : Provenance w → Provenance (_createNewPerspective w).2.
Proof. intros [H1 H2]. provenance H1 H2. Qed.
Lemma provenance_save w :
  Provenance w → Provenance (_persistModificationsOfCurrentPerspective w).2.
Proof. intros [H1 H2]. provenance H1 H2. Qed.
Lemma provenance_reload w : Provenance w → Provenance (_forceReload w).2.
Proof. intros [H1 H2]. provenance H1 H2. Qed.
Lemma provenance_storageChanged w : Provenance w → Provenance (_onStorageChanged w).2.
Proof. intros [H1 H2]. provenance H1 H2. Qed.
Lemma provenance_workbenchChanged w : Provenance w → Provenance (_onWorkbenchChanged w).2.
Proof. intros [H1 H2]. provenance H1 H2. Qed.

Lemma provenance_resume a r m w :
  resume a r = Some m →
  (recordsOnResume a = true → baselineRequested (trace w) = true) →
  Provenance w → Provenance (m w).2.
Proof.
  intros Hr Ha [H1 H2].
  destruct a, r; cbn [resume] in Hr; simplify_eq;
    cbn [recordsOnResume] in Ha; try specialize (Ha eq_refl);
    provenance H1 H2.
Qed.

Lemma round_trace w :
  trace (round w) =
  trace w ++ subscriptionChange (_storage w) (Props.storage (props w))
  ++ listenerChange (_workbench w) (Props.workbench (props w))
  ++ match needsLoading (reconcile w) with
     | Some s => [storage_map s]
     | None => []
     end.
Proof. reflexivity. Qed.

Lemma round_awaiting w :
  awaiting (round w) =
  match needsLoading (reconcile w) with
  | Some _ => <[next w := await_map]> (awaiting w)
  | None => awaiting w
  end.
Proof. reflexivity. Qed.

Lemma provenance_round w : Provenance w → Provenance (round w).
Proof.
  intros [H1 H2]. split.
  - intros H. rewrite round_trace, baselineRequested_app, H1; [reflexivity|exact H].
  - intros n a. rewrite round_awaiting, round_trace, baselineRequested_app.
    destruct (needsLoading (reconcile w)).
    + intros Hl Ha. apply lookup_insert_Some in Hl as [[_ <-]|[_ Hl]]; [discriminate|].
      erewrite H2; eauto.
    + intros Hl Ha. erewrite H2; eauto.
Qed.

Lemma provenance_settle fuel w : Provenance w → Provenance (settle fuel w).
Proof.
  revert w. induction fuel as [|fuel IH]; intros w H; [exact H|].
  rewrite settle_S. destruct (updates w); [exact H|].
  apply IH, provenance_round, H.
Qed.

Lemma provenance_step e w w' : Provenance w → step e w = Some w' → Provenance w'.
Proof.
  intros HP Hstep. destruct e; cbn [step] in Hstep.
  - destruct (mounted w); simplify_eq. rewrite handle_lifecycle.
    apply provenance_settle.
    change (afterUpdate (reconcile (set_props p w))) with (round (set_props p w)).
    apply provenance_round. destruct HP. split; assumption.
  - destruct (mounted w); simplify_eq. destruct HP as [H1 H2].
    open_world w.
    cbv [componentWillUnmount _setStorage _setWorkbench _forceReload _cancelLoading].
    monad. fields. cases; split; fields;
      rewrite ?baselineRequested_app; intros; provenance_known H1 H2.
  - destruct (offers _ w); simplify_eq. apply provenance_settle, provenance_click, HP.
  - destruct (offers _ w); simplify_eq. apply provenance_settle, provenance_new, HP.
  - destruct (offers _ w); simplify_eq. apply provenance_settle, provenance_save, HP.
  - destruct (offers _ w); simplify_eq. apply provenance_settle, provenance_reload, HP.
  - case_decide; simplify_eq. apply provenance_settle, provenance_storageChanged, HP.
  - case_decide; simplify_eq. apply provenance_settle, provenance_workbenchChanged, HP.
  - simplify_eq. destruct HP. split; assumption.
  - simplify_eq. destruct HP. split; assumption.
  - destruct (awaiting w !! n) as [a|] eqn:Ha; [|discriminate].
    cbn [mbind option_bind] in Hstep.
    destruct (resume a r) as [m|] eqn:Hr; [|discriminate].
    cbn [mbind option_bind] in Hstep. simplify_eq.
    destruct HP as [H1 H2].
    apply provenance_settle. eapply provenance_resume; [exact Hr| |].
    + fields. eauto.
    + split; fields; [exact H1|].
      intros k b Hl. apply lookup_delete_Some in Hl as [_ Hl]. eauto.
Qed.

Lemma provenance_mount p layout0 restored0 isModified0 :
  Provenance (mount p layout0 restored0 isModified0).
Proof.
  unfold mount, handle. rewrite componentDidMount_run.
  apply provenance_settle.
  change (afterUpdate (reconcile ?x)) with (round x).
  apply provenance_round. split; cbn.
  - intros [? [=]].
  - intros n a Hl. rewrite lookup_empty in Hl. discriminate.
Qed.

Lemma reachable_provenance w : reachable w → Provenance w.
Proof.
  intros (p & l & r & i & es & Hrun). revert Hrun.
  generalize (provenance_mount p l r i). generalize (mount p l r i).
  induction es as [|e es IH]; intros w0 HP Hrun; cbn [run] in Hrun.
  - simplify_eq. exact HP.
  - destruct (step e w0) as [w1|] eqn:Hs; [|discriminate].
    cbn [mbind option_bind] in Hrun. eapply IH; [|exact Hrun].
    eapply provenance_step; eauto.
Qed.

Lemma unprovoked_run (w : World) :
  (_ignoreStateChangeCounter w ≤ 0)%Z →
  State.selectedPerspectiveId (state w) = None ∨ _lastState w = None →
  (_onWorkbenchChanged w).2 = w.
Proof.
  intros Hc H. unfold _onWorkbenchChanged, _currentPerspectiveNeedsSavingAfterChange.
  monad.
  destruct (Z.ltb_spec 0 (_ignoreStateChangeCounter w)); [lia|].
  destruct (Props.workbench (props w)); [|reflexivity].
  destruct H as [-> | ->]; [reflexivity|].
  destruct (State.selectedPerspectiveId (state w)); reflexivity.
Qed.

Lemma autosave_run (w : World) (b : Workbench) (s : IPerspectiveStorage)
    (id : string) (lastState : IWorkbenchState) :
  (_ignoreStateChangeCounter w ≤ 0)%Z →
  Props.workbench (props w) = Some b → Props.storage (props w) = Some s →
  State.selectedPerspectiveId (state w) = Some id →
  _lastState w = Some lastState →
  (_onWorkbenchChanged w).2 =
  if areWorkbenchStatesEqualIgnoringSelection lastState (layout w b) then w
  else parked (storage_update s id (layout w b))
         (await_update s id (layout w b) false) w.
Proof.
  intros Hc Hb Hs Hsel Hl.
  unfold _onWorkbenchChanged, _currentPerspectiveNeedsSavingAfterChange,
    _updateCurrentPerspectiveWith, parked.
  monad.
  destruct (Z.ltb_spec 0 (_ignoreStateChangeCounter w)); [lia|].
  rewrite Hb, Hsel, Hl.
  destruct (areWorkbenchStatesEqualIgnoringSelection lastState (layout w b));
    cbn [negb]; rewrite ?Hs, ?Hsel; reflexivity.
Qed.

(** C10.  A notification that is not suppressed leaves the world as it is
    when no perspective is selected or no baseline is recorded, so it can
    call [storage.update] only with both.  A baseline exists only after a
    [storage.load], [storage.save] or [storage.update] call.  Hence on a
    bar that never made one of these calls, whatever its props (in
    particular with a selection supplied by the parent), a notification
    adds nothing to the trace and parks nothing. *)
Theorem autosave_needs_selection_and_baseline :
  (∀ w : World,
     (_ignoreStateChangeCounter w ≤ 0)%Z →
     State.selectedPerspectiveId (state w) = None ∨ _lastState w = None →
     (_onWorkbenchChanged w).2 = w)
  ∧ (∀ w : World,
       reachable w → is_Some (_lastState w) →
       baselineRequested (trace w) = true)
  ∧ (∀ (w : World) (b : Workbench),
       reachable w → baselineRequested (trace w) = false →
       _workbench w = Some b →
       ∃ w', step (WorkbenchChanged b) w = Some w'
         ∧ trace w' = trace w ∧ awaiting w' = awaiting w).
Proof.
  split; [exact unprovoked_run|]. split.
  - intros w Hr. apply prov_lastState, reachable_provenance, Hr.
  - intros w b Hr Hb Hw.
    pose proof (reachable_inv w Hr) as [Hu _ _ _ _].
    pose proof (reachable_provenance w Hr) as [Hl _].
    eexists. split.
    { cbn [step]. rewrite decide_True by exact Hw. reflexivity. }
    destruct (Z.ltb_spec 0 (_ignoreStateChangeCounter w)) as [Hc|Hc].
    + unfold handle. rewrite suppressed_run by exact Hc. fields.
      rewrite settle_idle by exact Hu. split; reflexivity.
    + assert (Hn : _lastState w = None).
      { destruct (_lastState w) eqn:E; [|reflexivity].
        rewrite Hl in Hb by eauto. discriminate. }
      unfold handle. rewrite unprovoked_run by auto.
      rewrite settle_idle by exact Hu. split; reflexivity.
Qed.

(** ** Runs *)


(** C4 at its failing input.  The storage is swapped from 7 to 8 while the
    enumeration of 7 is in flight; the enumeration of 8 completes first,
    then the superseded one of 7 completes: the bar ends up showing the
    list of storage 7 although its storage is 8. *)
Lemma superseded_enumeration_overwrites :
  (λ w, (_storage w, State.perspectives (state w), State.promise (state w)))
    <$> run [Rendered props8;
             Settled 1 (enumerated [("B"%string, perspectiveB)])] (bar props7)
  = Some (Some 8, Some [("B"%string, perspectiveB)], None)
  ∧ (λ w, (_storage w, State.perspectives (state w), State.promise (state w)))
      <$> run [Rendered props8;
               Settled 1 (enumerated [("B"%string, perspectiveB)]);
               Settled 0 (enumerated [("A"%string, perspectiveA)])] (bar props7)
    = Some (Some 8, Some [("A"%string, perspectiveA)], None).
Proof. split; vm_compute; reflexivity. Qed.

(** C6 at its failing input.  The storage is swapped from 7 to 8 while the
    enumeration of 7 is in flight.  After the swap the list is gone and
    the marker designates the enumeration of 8, but the enumeration of 7
    is still awaited; when it completes, its list is shown although the
    storage is 8, and the marker is cleared although the enumeration of 8
    is still awaited. *)
Lemma swap_leaves_old_enumeration_live :
  (λ w, (_storage w, State.perspectives (state w), State.promise (state w),
         awaiting w !! 0, awaiting w !! 1))
    <$> run [Rendered props8] (bar props7)
  = Some (Some 8, None, Some 1, Some await_map, Some await_map)
  ∧ (λ w, (_storage w, State.perspectives (state w), State.promise (state w),
           awaiting w !! 0, awaiting w !! 1))
      <$> run [Rendered props8;
               Settled 0 (enumerated [("A"%string, perspectiveA)])]
            (bar props7)
    = Some (Some 8, Some [("A"%string, perspectiveA)], None, None,
            Some await_map).
Proof. split; vm_compute; reflexivity. Qed.

(** C8 at its failing input.  The storage is swapped from 7 to 8 while the
    enumeration of 7 is in flight; the superseded enumeration of 7
    succeeds, then the one of 8 fails: the error flag is set beside a
    populated list. *)
Lemma error_beside_a_list :
  (λ w, (State.error (state w), State.perspectives (state w)))
    <$> run [Rendered props8;
             Settled 0 (enumerated [("A"%string, perspectiveA)]);
             Settled 1 rejected] (bar props7)
  = Some (true, Some [("A"%string, perspectiveA)]).
Proof. vm_compute; reflexivity. Qed.


(** C10 as stated fails in its last clause: on a controlled bar that never
    loaded a perspective, a creation records the baseline, and the next
    change of the workbench is written to the storage, under the id that
    the props select. *)
Lemma controlled_creation_enables_autosave :
  trace
    <$> run [Settled 0 (enumerated [("A"%string, perspectiveA)]);
             NewPerspectiveButtonClicked;
             Settled 1 (drafted true draft);
             Settled 2 (saved "N");
             Rearranged 1 rearranged;
             WorkbenchChanged 1] (bar propsControlled)
  = Some [storage_subscribe 7; workbench_on 1; storage_map 7;
          environment_onCreatingNewPerspective 1
            (Perspective.mk None plain None "");
          storage_save 7 draft; props_onChange "N";
          storage_update 7 "A" rearranged].
Proof. vm_compute; reflexivity. Qed.

(** C5 as stated fails.  Without a workbench, the bar shows the "new"
    button once its list is loaded, and creating a perspective throws
    before anything is logged.  With the storage taken away while the
    environment asks about the draft, a rejected draft logs nothing. *)
Lemma absent_collaborator_not_always_diagnosed :
  (offers isNewButton loadedNoWorkbench = true
   ∧ _createNewPerspective loadedNoWorkbench
     = (Threw TypeError, loadedNoWorkbench))
  ∧ (Props.storage (props draftingNoStorage) = None
     ∧ (∃ perspective, awaiting draftingNoStorage !! 1
                       = Some (await_onCreatingNewPerspective perspective))
     ∧ _createNewPerspective_confirmation false draft draftingNoStorage
       = (Returned (), draftingNoStorage)).
Proof.
  split.
  - split; vm_compute; reflexivity.
  - split; [|split]; [vm_compute; reflexivity | | vm_compute; reflexivity].
    eexists. vm_compute. reflexivity.
Qed.

(** The continuation of a load on a bar whose workbench is gone: the
    diagnostic is logged, and the read of the layout that follows it,
    outside the check of the workbench, throws. *)
Lemma load_resumed_without_workbench :
  awaiting loadingNoWorkbench !! 1 = Some (await_load "A")
  ∧ _loadPerspectiveById_resume "A" perspectiveA loadingNoWorkbench
    = (Threw TypeError, warned workbenchIsGone loadingNoWorkbench).
Proof. split; vm_compute; reflexivity. Qed.

(** ** The comparison of workbench states *)

(** C9.  Two well-formed states whose fields other than the selection agree
    compare equal, whatever their selections; two states that differ in a
    field other than the selection compare unequal; a malformed operand
    makes the comparison answer false; and the comparison answers on every
    pair of values. *)
Theorem equalIgnoringSelection_spec :
  (∀ fa fb : list (string * Json),
     (∀ k, k ≠ selectionKey → assoc k fa = assoc k fb) →
     areWorkbenchStatesEqualIgnoringSelection (JObj fa) (JObj fb) = true)
  ∧ (∀ (fa fb : list (string * Json)) (k : string),
       k ≠ selectionKey → assoc k fa ≠ assoc k fb →
       areWorkbenchStatesEqualIgnoringSelection (JObj fa) (JObj fb) = false)
  ∧ (∀ a b : IWorkbenchState,
       (∀ fa fb, ¬ (a = JObj fa ∧ b = JObj fb)) →
       areWorkbenchStatesEqualIgnoringSelection a b = false)
  ∧ (∀ a b : IWorkbenchState,
       areWorkbenchStatesEqualIgnoringSelection a b = true
       ∨ areWorkbenchStatesEqualIgnoringSelection a b = false).
Proof.
  split; [|split; [|split]].
  - intros fa fb H. apply equalIgnoringSelection_fields, H.
  - intros fa fb k Hk Hne.
    destruct (areWorkbenchStatesEqualIgnoringSelection (JObj fa) (JObj fb))
      eqn:E; [|reflexivity].
    exfalso. apply Hne.
    exact (proj1 (equalIgnoringSelection_fields fa fb) E k Hk).
  - intros a b H. destruct a, b; try reflexivity.
    exfalso. eapply H. split; reflexivity.
  - intros a b.
    destruct (areWorkbenchStatesEqualIgnoringSelection a b); auto.
Qed.

(** ** What does hold of late completions and of failures *)

(** Once the bar is unmounted, the completion of an enumeration leaves the
    state of the component as it is: React drops the update. *)
Lemma detached_enumeration_ignored (w w' : World) (n : nat) (r : Reply) :
  mounted w = false → updates w = [] →
  awaiting w !! n = Some await_map →
  step (Settled n r) w = Some w' → state w' = state w.
Proof.
  intros Hm Hu Ha Hs. cbn [step] in Hs. rewrite Ha in Hs.
  cbn [mbind option_bind] in Hs.
  destruct r; cbn [resume mbind option_bind] in Hs; simplify_eq;
    unfold handle; handlers; monad; fields; rewrite Hm;
    rewrite settle_idle by exact Hu; reflexivity.
Qed.

(** X23.  A failed enumeration, on a mounted bar, sets
    the error flag and leaves the list of perspectives as it was; the
    in-flight marker is reset, and when the list is absent and there is a
    storage the [componentDidUpdate] that follows starts a new enumeration
    at once, whose promise becomes the marker.  And
    [_startLoadingIfNeeded] does nothing while a list is loaded. *)
Theorem enumeration_failure :
  (∀ (w : World) (n : nat),
     reachable w → mounted w = true → awaiting w !! n = Some await_map →
     ∃ w', step (Settled n rejected) w = Some w'
       ∧ State.error (state w') = true
       ∧ State.perspectives (state w') = State.perspectives (state w)
       ∧ match Props.storage (props w), State.perspectives (state w) with
         | Some s, None =>
             State.promise (state w') = Some (next w)
             ∧ trace w' = trace w ++ [storage_map s]
         | _, _ =>
             State.promise (state w') = None ∧ trace w' = trace w
         end)
  ∧ (∀ (w : World) (l : list (string * IPerspective)),
       State.perspectives (state w) = Some l →
       _startLoadingIfNeeded w = (Returned (), w)).
Proof.
  split.
  - intros w n Hr Hm Ha. pose proof (reachable_inv w Hr) as [Hu _ Hs Hw _].
    rewrite Hm in Hs, Hw.
    eexists. split; [apply (step_settled w n _ rejected _ Ha eq_refl)|].
    unfold handle, _startLoadingIfNeeded_catch. monad. fields. rewrite Hm, Hu.
    cbn [app].
    set (w1 := set_updates _ _).
    destruct (settled_fields w1) as (_ & _ & _ & _ & H);
      [exact Hm | exact Hs | exact Hw | discriminate |].
    assert (Hr1 : rendering w1 =
                  derive (props w)
                    (merge (state w) [error_ true; promise_ None]))
      by reflexivity.
    assert (Hl : loads (props w1) (rendering w1) =
                 match Props.storage (props w), State.perspectives (state w) with
                 | Some s, None => Some s
                 | _, _ => None
                 end).
    { rewrite Hr1, loads_derive. reflexivity. }
    rewrite Hl in H.
    destruct (Props.storage (props w)) as [s|],
      (State.perspectives (state w)) as [l|] eqn:Hp;
      destruct H as (-> & -> & _);
      rewrite Hr1, ?derive_error, ?derive_perspectives, ?derive_promise; fields;
      rewrite ?derive_error, ?derive_perspectives, ?derive_promise; fields;
      auto.
  - intros w l Hl. rewrite _startLoadingIfNeeded_run.
    unfold needsLoading, loads. rewrite Hl.
    destruct (Props.storage (props w)), (State.promise (state w)); reflexivity.
Qed.

(** * Further properties *)

(** ** What a handler logs *)

Lemma subscribed_app t1 t2 :
  subscribed (t1 ++ t2) = foldl subscription (subscribed t1) t2.
Proof. apply foldl_app. Qed.

Lemma listening_app t1 t2 :
  listening (t1 ++ t2) = foldl attachment (listening t1) t2.
Proof. apply foldl_app. Qed.

Lemma restorations_app t1 t2 :
  restorations (t1 ++ t2) = (restorations t1 + restorations t2)%Z.
Proof. unfold restorations. rewrite List.filter_app, length_app. lia. Qed.

Ltac logged :=
  intros;
  match goal with w : World |- _ => open_world w end;
  handlers; monad; fields; cases;
  split; fields;
  rewrite ?subscribed_app, ?listening_app, ?enumerations_app,
    ?restorations_app;
  cbn [foldl subscription attachment enumerations omap];
  rewrite ?app_nil_r;
  solve [reflexivity | unfold restorations; cbn [List.filter length]; lia].

Lemma logged_click id w : Logged w (_onPerspectiveButtonClicked id w).2.
Proof. logged. Qed.
Lemma logged_new w : Logged w (_createNewPerspective w).2.
Proof. logged. Qed.
Lemma logged_save w : Logged w (_persistModificationsOfCurrentPerspective w).2.
Proof. logged. Qed.
Lemma logged_reload w : Logged w (_forceReload w).2.
Proof. logged. Qed.
Lemma logged_storageChanged w : Logged w (_onStorageChanged w).2.
Proof. logged. Qed.
Lemma logged_workbenchChanged w : Logged w (_onWorkbenchChanged w).2.
Proof. logged. Qed.
Lemma logged_resume a r m w : resume a r = Some m → Logged w (m w).2.
Proof. intros H. destruct a, r; cbn [resume] in H; simplify_eq; logged. Qed.

(** ** The subscriptions are balanced *)

Lemma subscribed_subscriptionChange t o1 o2 :
  subscribed t = Some o1 →
  subscribed (t ++ subscriptionChange o1 o2) = Some o2.
Proof.
  intros H. rewrite subscribed_app, H. unfold subscriptionChange.
  case_decide; [subst; reflexivity|].
  destruct o1 as [s1|], o2 as [s2|]; cbn; rewrite ?decide_True by reflexivity;
    reflexivity || contradiction.
Qed.

Lemma subscribed_listenerChange t o1 o2 :
  subscribed (t ++ listenerChange o1 o2) = subscribed t.
Proof.
  rewrite subscribed_app. unfold listenerChange.
  case_decide; [reflexivity|]. destruct o1, o2; reflexivity.
Qed.

Lemma listening_listenerChange t o1 o2 :
  listening t = Some o1 →
  listening (t ++ listenerChange o1 o2) = Some o2.
Proof.
  intros H. rewrite listening_app, H. unfold listenerChange.
  case_decide; [subst; reflexivity|].
  destruct o1 as [s1|], o2 as [s2|]; cbn; rewrite ?decide_True by reflexivity;
    reflexivity || contradiction.
Qed.

Lemma listening_subscriptionChange t o1 o2 :
  listening (t ++ subscriptionChange o1 o2) = listening t.
Proof.
  rewrite listening_app. unfold subscriptionChange.
  case_decide; [reflexivity|]. destruct o1, o2; reflexivity.
Qed.

Lemma restorations_subscriptionChange o1 o2 :
  restorations (subscriptionChange o1 o2) = 0%Z.
Proof.
  unfold subscriptionChange. case_decide; [reflexivity|].
  destruct o1, o2; reflexivity.
Qed.

Lemma restorations_listenerChange o1 o2 :
  restorations (listenerChange o1 o2) = 0%Z.
Proof.
  unfold listenerChange. case_decide; [reflexivity|].
  destruct o1, o2; reflexivity.
Qed.

Lemma balanced_round w : Balanced w → Balanced (round w).
Proof.
  intros [Hs Hw Hc]. split.
  - rewrite round_trace, !app_assoc, subscribed_app.
    rewrite subscribed_listenerChange.
    rewrite (subscribed_subscriptionChange _ _ _ Hs).
    destruct (needsLoading (reconcile w)); reflexivity.
  - rewrite round_trace, !app_assoc, listening_app.
    rewrite (listening_listenerChange _ (_workbench w));
      [|rewrite listening_subscriptionChange; exact Hw].
    destruct (needsLoading (reconcile w)); reflexivity.
  - rewrite round_trace, !restorations_app, restorations_subscriptionChange,
      restorations_listenerChange.
    change (_ignoreStateChangeCounter (round w))
      with (_ignoreStateChangeCounter w).
    destruct (needsLoading (reconcile w));
      [change (restorations [storage_map _]) with 0%Z
      |change (restorations []) with 0%Z]; lia.
Qed.

Lemma balanced_settle fuel w : Balanced w → Balanced (settle fuel w).
Proof.
  revert w. induction fuel as [|fuel IH]; intros w H; [exact H|].
  rewrite settle_S. destruct (updates w); [exact H|].
  apply IH, balanced_round, H.
Qed.

Lemma balanced_handle m w :
  Balanced w → Steady w (m w).2 → Logged w (m w).2 → Balanced (handle m w).
Proof.
  intros [Hs Hw Hc] [_ _ Ss Sw _ _ _ _] [Ls Ll _ Lr].
  apply balanced_settle. split.
  - rewrite Ls, Ss. exact Hs.
  - rewrite Ll, Sw. exact Hw.
  - lia.
Qed.

Lemma balanced_step e w w' : Balanced w → step e w = Some w' → Balanced w'.
Proof.
  intros HB Hstep. destruct e; cbn [step] in Hstep.
  - destruct (mounted w); simplify_eq. rewrite handle_lifecycle.
    apply balanced_settle.
    change (afterUpdate (reconcile (set_props p w))) with (round (set_props p w)).
    apply balanced_round. destruct HB. split; assumption.
  - destruct (mounted w); simplify_eq. destruct HB as [Hs Hw Hc].
    open_world w.
    cbv [componentWillUnmount _setStorage _setWorkbench _forceReload
         _cancelLoading].
    monad. fields. cases; split; fields;
      rewrite ?subscribed_app, ?listening_app, ?restorations_app;
      rewrite ?Hs, ?Hw; cbn [foldl subscription attachment];
      rewrite ?decide_True by reflexivity;
      solve [reflexivity | assumption
            | unfold restorations in *; cbn [List.filter length]; lia].
  - destruct (offers _ w); simplify_eq.
    apply balanced_handle; auto using steady_click, logged_click.
  - destruct (offers _ w); simplify_eq.
    apply balanced_handle; auto using steady_new, logged_new.
  - destruct (offers _ w); simplify_eq.
    apply balanced_handle; auto using steady_save, logged_save.
  - destruct (offers _ w); simplify_eq.
    apply balanced_handle; auto using steady_reload, logged_reload.
  - case_decide; simplify_eq.
    apply balanced_handle;
      auto using steady_storageChanged, logged_storageChanged.
  - case_decide; simplify_eq.
    apply balanced_handle;
      auto using steady_workbenchChanged, logged_workbenchChanged.
  - simplify_eq. destruct HB. split; assumption.
  - simplify_eq. destruct HB. split; assumption.
  - destruct (awaiting w !! n) as [a|] eqn:Ha; [|discriminate].
    cbn [mbind option_bind] in Hstep.
    destruct (resume a r) as [m|] eqn:Hr; [|discriminate].
    cbn [mbind option_bind] in Hstep. simplify_eq.
    apply balanced_handle;
      [ | eapply steady_resume, Hr | eapply logged_resume, Hr ].
    destruct HB. split; assumption.
Qed.

Lemma balanced_mount p layout0 restored0 isModified0 :
  Balanced (mount p layout0 restored0 isModified0).
Proof.
  unfold mount, handle. rewrite componentDidMount_run.
  apply balanced_settle.
  change (afterUpdate (reconcile ?x)) with (round x).
  apply balanced_round. split; cbn; reflexivity || lia.
Qed.

Lemma reachable_balanced w : reachable w → Balanced w.
Proof.
  intros (p & l & r & i & es & Hrun). revert Hrun.
  generalize (balanced_mount p l r i). generalize (mount p l r i).
  induction es as [|e es IH]; intros w0 HB Hrun; cbn [run] in Hrun.
  - simplify_eq. exact HB.
  - destruct (step e w0) as [w1|] eqn:Hs; [|discriminate].
    cbn [mbind option_bind] in Hrun. eapply IH; [|exact Hrun].
    eapply balanced_step; eauto.
Qed.

(** ** The state between two events *)

Lemma rendering_selection (w : World) (v : option string) :
  Props.selectedPerspectiveId (props w) = Some v →
  State.selectedPerspectiveId (rendering w) = v.
Proof.
  intros H. unfold rendering. rewrite derive_selectedPerspectiveId, H.
  reflexivity.
Qed.

Lemma rested_settled (w : World) :
  mounted w = true →
  _storage w = Props.storage (props w) →
  _workbench w = Props.workbench (props w) →
  updates w ≠ [] →
  Rested (settle 3 w).
Proof.
  intros Hm Hs Hw Hu.
  destruct (settled_fields w Hm Hs Hw Hu) as ([Fp Fm _ _ _ _ _] & _ & _ & _ & H).
  destruct (loads (props w) (rendering w)) as [s|] eqn:Hl;
    destruct H as (Hst & _); split; rewrite Hst, Fp.
  - intros v Hv. rewrite derive_selectedPerspectiveId, Hv. reflexivity.
  - intros _. rewrite loads_derive. apply loads_promised.
  - apply rendering_selection.
  - intros _. exact Hl.
Qed.

Lemma rested_handle m w :
  Inv w → Rested w → Steady w (m w).2 → Calm w (m w).2 →
  Rested (handle m w).
Proof.
  intros [Hu _ Hs Hw _] [Rs Rl] [Sp Sm Ss Sw _ Su _ _] [Cs _ _].
  unfold handle.
  destruct (updates (m w).2) as [|u us] eqn:Hu'.
  - rewrite settle_idle by exact Hu'. split; rewrite Sp, Cs, ?Sm; assumption.
  - destruct (mounted w) eqn:Hm; [|specialize (Su eq_refl); congruence].
    apply rested_settled.
    + congruence.
    + rewrite Ss, Sp. exact Hs.
    + rewrite Sw, Sp. exact Hw.
    + rewrite Hu'. discriminate.
Qed.

Lemma rested_lifecycle x :
  mounted x = true → Rested (settle 3 (round x)).
Proof.
  intros Hm.
  destruct (round_fields x Hm)
    as ([Fp Fm _ _ _ _ _] & Hst & Hs1 & Hw1 & Hu1 & _).
  destruct (updates (round x)) as [|u us] eqn:Hu'.
  - rewrite settle_idle by exact Hu'. split; rewrite Hst, Fp.
    + apply rendering_selection.
    + intros _. destruct (loads (props x) (rendering x)); [|reflexivity].
      symmetry in Hu1. apply app_eq_nil in Hu1 as [_ [=]].
  - apply rested_settled.
    + congruence.
    + rewrite Hs1, Fp. reflexivity.
    + rewrite Hw1, Fp. reflexivity.
    + rewrite Hu'. discriminate.
Qed.

Lemma rested_step e w w' :
  Inv w → Rested w → step e w = Some w' → Rested w'.
Proof.
  intros HI HR Hstep. destruct e; cbn [step] in Hstep.
  - destruct (mounted w) eqn:Hm; [|discriminate]. simplify_eq.
    rewrite handle_lifecycle.
    change (afterUpdate (reconcile (set_props p w))) with (round (set_props p w)).
    apply rested_lifecycle. exact Hm.
  - destruct (mounted w) eqn:Hm; [|discriminate]. simplify_eq.
    destruct HR as [Rs _]. revert Rs. open_world w.
    cbv [componentWillUnmount _setStorage _setWorkbench _forceReload
         _cancelLoading].
    monad. fields. cases; intros Rs; split; fields; auto; discriminate.
  - destruct (offers _ w); simplify_eq.
    apply rested_handle; auto using steady_click, calm_click.
  - destruct (offers _ w); simplify_eq.
    apply rested_handle; auto using steady_new, calm_new.
  - destruct (offers _ w); simplify_eq.
    apply rested_handle; auto using steady_save, calm_save.
  - destruct (offers _ w); simplify_eq.
    apply rested_handle; auto using steady_reload, calm_reload.
  - case_decide; simplify_eq.
    apply rested_handle; auto using steady_storageChanged, calm_storageChanged.
  - case_decide; simplify_eq.
    apply rested_handle;
      auto using steady_workbenchChanged, calm_workbenchChanged.
  - simplify_eq. destruct HR. split; assumption.
  - simplify_eq. destruct HR. split; assumption.
  - destruct (awaiting w !! n) as [a|] eqn:Ha; [|discriminate].
    cbn [mbind option_bind] in Hstep.
    destruct (resume a r) as [m|] eqn:Hr; [|discriminate].
    cbn [mbind option_bind] in Hstep. simplify_eq.
    apply rested_handle;
      [ | | eapply steady_resume, Hr | eapply calm_resume, Hr ].
    + destruct HI as [Hu Hc Hs Hw Hn]. split; fields; auto.
      intros k b Hl. apply lookup_delete_Some in Hl as [_ Hl]. eauto.
    + destruct HR. split; assumption.
Qed.

Lemma rested_mount p layout0 restored0 isModified0 :
  Rested (mount p layout0 restored0 isModified0).
Proof.
  unfold mount, handle. rewrite componentDidMount_run.
  change (afterUpdate (reconcile ?x)) with (round x).
  apply rested_lifecycle. reflexivity.
Qed.

Lemma reachable_rested w : reachable w → Rested w.
Proof.
  intros (p & l & r & i & es & Hrun). revert Hrun.
  generalize (rested_mount p l r i). generalize (mount_inv p l r i).
  generalize (mount p l r i).
  induction es as [|e es IH]; intros w0 HI HR Hrun; cbn [run] in Hrun.
  - simplify_eq. exact HR.
  - destruct (step e w0) as [w1|] eqn:Hs; [|discriminate].
    cbn [mbind option_bind] in Hrun.
    eapply IH; [ | |exact Hrun]; eauto using step_inv, rested_step.
Qed.

(** ** Invariants of a bar *)

(** X1.  At any time the trace leaves the bar subscribed to exactly one
    storage and listening to exactly one workbench, those of its props
    while it is mounted and none once it is unmounted; it never subscribes
    twice in a row and never unsubscribes what it is not subscribed to. *)
Theorem subscriptions_follow_props (w : World) :
  reachable w →
  subscribed (trace w)
  = Some (if mounted w then Props.storage (props w) else None)
  ∧ listening (trace w)
    = Some (if mounted w then Props.workbench (props w) else None).
Proof.
  intros Hr. destruct (reachable_inv w Hr) as [_ _ Hs Hw _].
  destruct (reachable_balanced w Hr) as [Bs Bw _].
  rewrite <- Hs, <- Hw. split; assumption.
Qed.

(** X2.  The suppression counter is never negative, and never exceeds the
    number of states that the bar has restored on a workbench: a
    notification is swallowed only after a [restoreState] of the bar. *)
Theorem suppression_bounded (w : World) :
  reachable w →
  (0 ≤ _ignoreStateChangeCounter w ≤ restorations (trace w))%Z.
Proof.
  intros Hr. split.
  - apply (inv_counter _ (reachable_inv w Hr)).
  - apply (balanced_counter _ (reachable_balanced w Hr)).
Qed.

(** X3.  While the props carry a selection (controlled mode), the selection
    in the state is that of the props, whatever was clicked, loaded or
    created in between. *)
Theorem controlled_selection_follows_props (w : World) (v : option string) :
  reachable w →
  Props.selectedPerspectiveId (props w) = Some v →
  State.selectedPerspectiveId (state w) = v.
Proof. intros Hr. apply (rested_selection _ (reachable_rested w Hr)). Qed.

(** X4.  A mounted bar that has a storage and no list of perspectives is
    enumerating, and such a bar never renders nothing: it shows its
    buttons, the reload button or the loading text. *)
Theorem storage_keeps_bar_busy (w : World) (s : IPerspectiveStorage) :
  reachable w → mounted w = true → Props.storage (props w) = Some s →
  (State.perspectives (state w) = None → State.promise (state w) ≠ None)
  ∧ render w ≠ [].
Proof.
  intros Hr Hm Hs.
  pose proof (rested_loading _ (reachable_rested w Hr) Hm) as Hl.
  unfold loads in Hl. rewrite Hs in Hl.
  assert (H : State.perspectives (state w) = None →
              State.promise (state w) ≠ None).
  { intros Hp Hq. rewrite Hp, Hq in Hl. discriminate. }
  split; [exact H|].
  unfold render. destruct (State.perspectives (state w)) as [l|].
  - destruct l; discriminate.
  - specialize (H eq_refl).
    destruct (State.error (state w)); [discriminate|].
    rewrite bool_decide_true by exact H. discriminate.
Qed.

(** ** Renders that keep the storage *)

Lemma loads_storage p q s :
  Props.storage p = Props.storage q → loads p s = loads q s.
Proof. unfold loads. intros ->. reflexivity. Qed.

Lemma derive_fixed p s :
  (∀ v, Props.selectedPerspectiveId p = Some v →
        State.selectedPerspectiveId s = v) →
  derive p s = s.
Proof.
  intros H. unfold derive, getDerivedStateFromProps.
  destruct (Props.selectedPerspectiveId p) as [v|]; [|reflexivity].
  specialize (H v eq_refl). destruct s. cbn in *. subst. reflexivity.
Qed.

(** A render that keeps the storage is one round, after which nothing is
    queued. *)
Lemma rendered_keeping_storage (w : World) (p : IPerspectiveBarProps) :
  reachable w → mounted w = true →
  Props.storage p = Props.storage (props w) →
  step (Rendered p) w = Some (round (set_props p w))
  ∧ rendering (set_props p w) = derive p (state w)
  ∧ loads p (derive p (state w)) = None.
Proof.
  intros Hr Hm Hp. pose proof (reachable_inv w Hr) as [Hu _ Hs _ _].
  pose proof (reachable_rested w Hr) as [_ Rl].
  rewrite Hm in Hs. specialize (Rl Hm).
  assert (Hrx : rendering (set_props p w) = derive p (state w)).
  { unfold rendering. fields. rewrite Hu. reflexivity. }
  assert (Hl : loads p (derive p (state w)) = None).
  { rewrite loads_derive, (loads_storage p (props w)) by exact Hp. exact Rl. }
  split; [|split; assumption].
  cbn [step]. rewrite Hm, handle_lifecycle.
  change (afterUpdate (reconcile (set_props p w))) with (round (set_props p w)).
  rewrite settle_idle; [reflexivity|].
  destruct (round_fields (set_props p w) Hm) as (_ & _ & _ & _ & Hu1 & _).
  rewrite Hu1, Hrx. change (props (set_props p w)) with p.
  change (_storage (set_props p w)) with (_storage w).
  rewrite Hl, Hs, Hp, decide_True by reflexivity. reflexivity.
Qed.

(** X5.  When a mounted bar is rendered with props that carry the same
    storage, nothing is reloaded: the state is the former one, with the
    selection of the new props if they carry one; the only effects are the
    removal and the attachment of the listener when the workbench differs;
    the baseline, the suppression counter and the pending promises carry
    over.  With the very same props the render changes nothing at all. *)
Theorem render_keeping_storage (w : World) (p : IPerspectiveBarProps) :
  reachable w → mounted w = true →
  Props.storage p = Props.storage (props w) →
  ∃ w',
    step (Rendered p) w = Some w'
    ∧ state w' = derive p (state w)
    ∧ trace w'
      = trace w
        ++ listenerChange (Props.workbench (props w)) (Props.workbench p)
    ∧ awaiting w' = awaiting w
    ∧ _lastState w' = _lastState w
    ∧ _ignoreStateChangeCounter w' = _ignoreStateChangeCounter w
    ∧ (p = props w → w' = w).
Proof.
  intros Hr Hm Hp. pose proof (reachable_inv w Hr) as [Hu _ Hs Hw _].
  pose proof (reachable_rested w Hr) as [Rs Rl].
  rewrite Hm in Hs, Hw. specialize (Rl Hm).
  destruct (rendered_keeping_storage w p Hr Hm Hp) as (Hstep & Hrx & Hl).
  eexists. split; [exact Hstep|].
  set (x := set_props p w) in *.
  destruct (round_fields x Hm)
    as ([_ _ Fc Fl _ _ _] & Hst & _ & _ & _ & Ht1 & Ha1 & _).
  change (props x) with p in *. change (_storage x) with (_storage w) in *.
  change (_workbench x) with (_workbench w) in *.
  change (awaiting x) with (awaiting w) in *.
  change (trace x) with (trace w) in *.
  rewrite Hrx, Hl, Hs, Hp, Hw in *.
  rewrite subscriptionChange_same in Ht1. cbn [app] in Ht1.
  rewrite app_nil_r in Ht1.
  rewrite Hst, Ht1, Ha1, Fc, Fl.
  do 5 (split; [reflexivity|]).
  intros ->. clear Hstep Hst Ht1 Ha1 Hrx Hl Fc Fl. subst x.
  pose proof (derive_fixed (props w) (state w) Rs) as Hd.
  unfold loads in Rl.
  unfold round, afterUpdate, needsLoading, loads, reconcile.
  open_world w. fields. subst. fields. rewrite Hd. fields. rewrite Rl.
  rewrite decide_True by reflexivity.
  rewrite subscriptionChange_same, listenerChange_same, !app_nil_r.
  reflexivity.
Qed.

(** ** Mounting and unmounting *)

(** X6.  Mounting subscribes to the storage of the props, then attaches the
    listener to their workbench, then starts one enumeration of the
    storage; the bar then shows the loading text.  Without a storage it
    only attaches the listener, enumerates nothing and shows nothing.  No
    baseline is recorded, and the selection is that of the props, if any. *)
Theorem mount_effects (p : IPerspectiveBarProps)
    (layout0 : Workbench → IWorkbenchState)
    (restored0 : IWorkbenchState → IWorkbenchState)
    (isModified0 : IPerspectiveStorage → string → bool) :
  let w := mount p layout0 restored0 isModified0 in
  trace w
  = (match Props.storage p with Some s => [storage_subscribe s] | None => [] end
     ++ match Props.workbench p with Some b => [workbench_on b] | None => [] end
     ++ match Props.storage p with Some s => [storage_map s] | None => [] end)
  ∧ awaiting w
    = match Props.storage p with
      | Some _ => {[0 := await_map]}
      | None => ∅
      end
  ∧ State.promise (state w)
    = match Props.storage p with Some _ => Some 0 | None => None end
  ∧ State.perspectives (state w) = None
  ∧ State.error (state w) = false
  ∧ State.selectedPerspectiveId (state w)
    = match Props.selectedPerspectiveId p with Some v => v | None => None end
  ∧ _lastState w = None
  ∧ _ignoreStateChangeCounter w = 0%Z
  ∧ render w
    = match Props.storage p with Some _ => [Loading] | None => [] end.
Proof.
  intros w. subst w. unfold mount, handle. rewrite componentDidMount_run.
  cbn [snd].
  change (afterUpdate (reconcile ?x)) with (round x).
  set (x := constructor p layout0 restored0 isModified0).
  assert (Hm : mounted x = true) by reflexivity.
  destruct (round_fields x Hm)
    as ([Fp Fm Fc Fl _ _ _] & Hst & Hs1 & Hw1 & Hu1 & Ht1 & Ha1 & Hn1).
  assert (Hrx : rendering x = derive p (State.mk 0 false None None None))
    by reflexivity.
  change (props x) with p in *. change (_storage x) with (@None IPerspectiveStorage) in *.
  change (_workbench x) with (@None Workbench) in *.
  change (awaiting x) with (∅ : gmap nat Await) in *.
  change (trace x) with (@nil Effect) in *. change (next x) with 0 in *.
  change (_lastState x) with (@None IWorkbenchState) in *.
  change (_ignoreStateChangeCounter x) with 0%Z in *.
  rewrite Hrx, loads_derive in *.
  assert (Hon : listenerChange None (Props.workbench p)
                = match Props.workbench p with
                  | Some b => [workbench_on b]
                  | None => []
                  end)
    by (destruct (Props.workbench p); reflexivity).
  rewrite Hon in Ht1.
  destruct (Props.storage p) as [s|] eqn:Hs.
  - rewrite decide_False in Hu1 by discriminate.
    change (subscriptionChange None (Some s)) with [storage_subscribe s] in Ht1.
    change (loads p _) with (loads p (State.mk 0 false None None None)) in *.
    assert (Hl : loads p (State.mk 0 false None None None) = Some s).
    { unfold loads. rewrite Hs. reflexivity. }
    rewrite Hl in *. cbn [app] in *.
    destruct (settled_fields (round x)) as ([_ _ Fc2 Fl2 _ _ _] & _ & _ & _ & H);
      [ rewrite Fm; exact Hm | rewrite Hs1, Fp, Hs; reflexivity
      | rewrite Hw1, Fp; reflexivity | rewrite Hu1; discriminate |].
    assert (Hr1 : rendering (round x)
                  = derive p (State.mk 1 false None (Some 0)
                                match Props.selectedPerspectiveId p with
                                | Some v => v
                                | None => None
                                end)).
    { unfold rendering. rewrite Fp, Hst, Hu1. unfold reloadPayload.
      change (state (reconcile x))
        with (derive p (State.mk 0 false None None None)).
      rewrite derive_counter.
      unfold derive, getDerivedStateFromProps.
      destruct (Props.selectedPerspectiveId p); reflexivity. }
    rewrite Fp, Hr1, loads_derive in H.
    unfold loads in H. rewrite Hs in H. cbn [State.promise] in H.
    destruct H as (Hst2 & Ht2 & Ha2 & _).
    unfold render. rewrite Hst2, Ht2, Ha2, Ht1, Ha1, Fc2, Fl2, Fc, Fl.
    rewrite derive_promise, derive_perspectives, derive_error,
      derive_selectedPerspectiveId.
    cbn [State.promise State.perspectives State.error
         State.selectedPerspectiveId].
    repeat split.
    destruct (Props.selectedPerspectiveId p); reflexivity.
  - rewrite decide_True in Hu1 by reflexivity.
    change (subscriptionChange None None) with (@nil Effect) in Ht1.
    unfold loads in *. rewrite Hs in *.
    cbn [app] in *. rewrite settle_idle by exact Hu1.
    unfold render. rewrite Hst, Ht1, Ha1, Fc, Fl.
    rewrite derive_promise, derive_perspectives, derive_error,
      derive_selectedPerspectiveId.
    cbn [State.promise State.perspectives State.error
         State.selectedPerspectiveId].
    repeat split.
Qed.

(** X7.  Unmounting a mounted bar unsubscribes from the storage of the
    props and removes the listener from their workbench, each once; it
    starts nothing and cancels nothing: the state, the baseline and the
    promises in flight are as before. *)
Theorem unmount_effects (w : World) :
  reachable w → mounted w = true →
  ∃ w',
    step Unmounted w = Some w'
    ∧ mounted w' = false
    ∧ trace w'
      = trace w
        ++ match Props.storage (props w) with
           | Some s => [storage_unsubscribe s]
           | None => []
           end
        ++ match Props.workbench (props w) with
           | Some b => [workbench_off b]
           | None => []
           end
    ∧ _storage w' = None ∧ _workbench w' = None
    ∧ state w' = state w
    ∧ awaiting w' = awaiting w
    ∧ _lastState w' = _lastState w.
Proof.
  intros Hr Hm. pose proof (reachable_inv w Hr) as [_ _ Hs Hw _].
  rewrite Hm in Hs, Hw.
  eexists. split; [cbn [step]; rewrite Hm; reflexivity|].
  open_world w. fields. subst.
  cbv [componentWillUnmount _setStorage _setWorkbench _forceReload
       _cancelLoading].
  monad. fields.
  destruct psto as [s|], pwb as [b|]; cases; fields;
    rewrite <- ?app_assoc, ?app_nil_r; auto 10.
Qed.

(** X8.  Whatever still reaches an unmounted bar (the completion of a
    promise, a change of its surroundings) leaves the state of the
    component as it is, subscribes to nothing and starts no enumeration. *)
Theorem unmounted_is_inert (w w' : World) (e : Event) :
  reachable w → mounted w = false → step e w = Some w' →
  state w' = state w
  ∧ mounted w' = false
  ∧ _storage w' = None ∧ _workbench w' = None
  ∧ enumerations (trace w') = enumerations (trace w).
Proof.
  intros Hr Hm Hstep. pose proof (reachable_inv w Hr) as [Hu _ Hs Hw _].
  rewrite Hm in Hs, Hw.
  destruct e; cbn [step] in Hstep; unfold offers in Hstep;
    rewrite ?Hm, ?Hs, ?Hw in Hstep; cbn [andb] in Hstep;
    try discriminate;
    try (case_decide; discriminate).
  - simplify_eq. fields. auto.
  - simplify_eq. fields. auto.
  - destruct (awaiting w !! n) as [a|] eqn:Ha; [|discriminate].
    cbn [mbind option_bind] in Hstep.
    destruct (resume a r) as [m|] eqn:Hres; [|discriminate].
    cbn [mbind option_bind] in Hstep. simplify_eq.
    set (w0 := set_awaiting (delete n (awaiting w)) w).
    destruct (steady_resume a r m w0 Hres) as [_ Sm Ss Sw _ Su _ _].
    destruct (calm_resume a r m w0 Hres) as [Cs _ _].
    destruct (logged_resume a r m w0 Hres) as [_ _ Le _].
    rewrite handle_idle by (rewrite Su; [exact Hu | exact Hm]).
    rewrite Cs, Sm, Ss, Sw, Le. auto.
Qed.

(** ** Clicks *)


Lemma existsb_map_false {A B : Type} (control : B → bool) (f : A → B)
    (l : list A) :
  (∀ x, control (f x) = false) → existsb control (map f l) = false.
Proof.
  intros H. induction l as [|x l IH]; [reflexivity|].
  cbn [map existsb]. rewrite H, IH. reflexivity.
Qed.

Lemma render_loaded (w : World) (l : list (string * IPerspective)) :
  State.perspectives (state w) = Some l →
  render w =
  (map (λ pair : string * IPerspective,
          LoadPerspectiveButton pair.1 (Perspective.label pair.2)
            match Props.storage (props w) with
            | Some storage => isModified w storage pair.1
            | None => false
            end
            (bool_decide (State.selectedPerspectiveId (state w) = Some pair.1)))
       l
   ++ [NewPerspectiveButton;
       SavePerspectiveButton
         match Props.storage (props w) with
         | Some storage =>
             negb (isModifiedSelection w storage
                     (State.selectedPerspectiveId (state w)))
         | None => true
         end])%list.
Proof.
  intros H. unfold render. rewrite H.
  destruct l as [|[id perspective] l]; [reflexivity|].
  cbn [map app]. f_equal. f_equal.
  apply map_ext. intros [id' perspective']. reflexivity.
Qed.

Lemma render_unloaded (w : World) :
  State.perspectives (state w) = None →
  render w =
  if State.error (state w)
  then [ReloadPerspectivesButton (Props.errorMessage (props w))]
  else if bool_decide (State.promise (state w) ≠ None) then [Loading] else [].
Proof.
  intros H. unfold render. rewrite H.
  destruct (State.error (state w)); reflexivity.
Qed.

Lemma offers_save (w : World) :
  offers isEnabledSaveButton w = true →
  ∃ s, Props.storage (props w) = Some s
       ∧ isModifiedSelection w s (State.selectedPerspectiveId (state w)) = true.
Proof.
  unfold offers. intros H. apply andb_true_iff in H as [_ H].
  destruct (State.perspectives (state w)) as [l|] eqn:Hp.
  - rewrite (render_loaded w l Hp), existsb_app in H.
    rewrite existsb_map_false in H by reflexivity.
    cbn [existsb isEnabledSaveButton orb] in H.
    destruct (Props.storage (props w)) as [s|]; [|discriminate].
    exists s. split; [reflexivity|].
    destruct (isModifiedSelection w s _); [reflexivity|discriminate].
  - rewrite (render_unloaded w Hp) in H.
    destruct (State.error (state w)); [discriminate|].
    destruct (bool_decide _); discriminate.
Qed.


Lemma click_unselected_run (w : World) (id : string) :
  State.selectedPerspectiveId (state w) ≠ Some id →
  (_onPerspectiveButtonClicked id w).2 =
  match Props.onChange (props w) with
  | None => (_loadPerspectiveById id w).2
  | Some onChange =>
      if onChange id
      then set_trace (trace w ++ [props_onChange id]) w
      else (_loadPerspectiveById id
              (set_trace (trace w ++ [props_onChange id]) w)).2
  end.
Proof.
  intros H. unfold _onPerspectiveButtonClicked. monad.
  rewrite decide_False by exact H.
  destruct (Props.onChange (props w)) as [f|]; [|reflexivity].
  destruct (f id); reflexivity.
Qed.

(** X9.  A click on the button of a perspective other than the selected
    one first asks [onChange], when the props have one.  When [onChange]
    answers true nothing else happens; otherwise (or without [onChange])
    the perspective is requested from the storage with [load], or the
    diagnostic is logged when there is no storage.  The state and the
    baseline stay as they are until the storage answers. *)
Theorem click_on_unselected (w : World) (id : string) :
  reachable w → offers (isLoadButton id) w = true →
  State.selectedPerspectiveId (state w) ≠ Some id →
  ∃ w',
    step (PerspectiveButtonClicked id) w = Some w'
    ∧ state w' = state w ∧ _lastState w' = _lastState w
    ∧ let asked :=
        match Props.onChange (props w) with
        | Some _ => [props_onChange id]
        | None => []
        end in
      let prevented :=
        match Props.onChange (props w) with
        | Some onChange => onChange id
        | None => false
        end in
      if prevented
      then trace w' = trace w ++ asked ∧ awaiting w' = awaiting w
      else
        match Props.storage (props w) with
        | Some s =>
            trace w' = trace w ++ asked ++ [storage_load s id]
            ∧ awaiting w' = <[next w := await_load id]> (awaiting w)
        | None =>
            trace w' = trace w ++ asked ++ [console_warn noStorageWhileLoading]
            ∧ awaiting w' = awaiting w
        end.
Proof.
  intros Hr Hoff Hsel. pose proof (reachable_inv w Hr) as [Hu _ _ _ _].
  eexists. split; [cbn [step]; rewrite Hoff; reflexivity|].
  assert (Hrun := click_unselected_run w id Hsel).
  rewrite handle_idle; rewrite Hrun; clear Hrun.
  2: { destruct (Props.onChange (props w)) as [f|];
         [destruct (f id)|]; rewrite ?load_run; fields;
         destruct (Props.storage (props w)); exact Hu. }
  destruct (Props.onChange (props w)) as [f|];
    [destruct (f id)|]; rewrite ?load_run; fields;
    destruct (Props.storage (props w)); unfold parked, warned; fields;
    rewrite <- ?app_assoc; auto.
Qed.

(** X10.  A click on the "new" button of a bar with a workbench offers the
    environment a draft with an empty label and the current layout of the
    workbench; nothing is saved, selected or recorded before the
    environment answers. *)
Theorem new_click_drafts (w : World) (b : Workbench) :
  reachable w → offers isNewButton w = true →
  Props.workbench (props w) = Some b →
  ∃ w',
    step NewPerspectiveButtonClicked w = Some w'
    ∧ trace w'
      = trace w
        ++ [environment_onCreatingNewPerspective b
              (Perspective.mk None (layout w b) None "")]
    ∧ awaiting w'
      = <[next w := await_onCreatingNewPerspective
                      (Perspective.mk None (layout w b) None "")]>
          (awaiting w)
    ∧ state w' = state w ∧ _lastState w' = _lastState w.
Proof.
  intros Hr Hoff Hb. pose proof (reachable_inv w Hr) as [Hu _ _ _ _].
  eexists. split; [cbn [step]; rewrite Hoff; reflexivity|].
  rewrite handle_idle; unfold _createNewPerspective; monad; rewrite Hb;
    fields; auto.
Qed.

(** X11.  A click on the enabled "save" button of a bar with a workbench
    and a selection: the bar has a storage that marks the selection as
    modified, and the current layout of the workbench is sent to
    [storage.update] under the selected id, to be persisted when the
    update is done.  The state and the baseline stay as they are until
    then. *)
Theorem save_click_updates (w : World) (b : Workbench) (id : string) :
  reachable w → offers isEnabledSaveButton w = true →
  Props.workbench (props w) = Some b →
  State.selectedPerspectiveId (state w) = Some id →
  ∃ s w',
    Props.storage (props w) = Some s
    ∧ isModified w s id = true
    ∧ step SavePerspectiveButtonClicked w = Some w'
    ∧ trace w' = trace w ++ [storage_update s id (layout w b)]
    ∧ awaiting w'
      = <[next w := await_update s id (layout w b) true]> (awaiting w)
    ∧ state w' = state w ∧ _lastState w' = _lastState w.
Proof.
  intros Hr Hoff Hb Hsel. pose proof (reachable_inv w Hr) as [Hu _ _ _ _].
  destruct (offers_save w Hoff) as (s & Hs & Hmod).
  rewrite Hsel in Hmod. cbn [isModifiedSelection] in Hmod.
  exists s. eexists. split; [exact Hs|]. split; [exact Hmod|].
  split; [cbn [step]; rewrite Hoff; reflexivity|].
  rewrite handle_idle;
    unfold _persistModificationsOfCurrentPerspective,
      _updateCurrentPerspective, _updateCurrentPerspectiveWith;
    monad; rewrite Hb, Hs, Hsel; fields; auto.
Qed.

(** X12.  When a [storage.update] is done, the state that was sent becomes
    the baseline, and [persistModifications] follows, for the id and on
    the storage of the time of the request, only if the update came from
    the "save" button.  The state of the component is untouched. *)
Theorem update_completion (w : World) (n : nat) (s : IPerspectiveStorage)
    (id : string) (newState : IWorkbenchState) (persist : bool) :
  reachable w →
  awaiting w !! n = Some (await_update s id newState persist) →
  ∃ w',
    step (Settled n fulfilled) w = Some w'
    ∧ _lastState w' = Some newState
    ∧ trace w'
      = trace w
        ++ (if persist then [storage_persistModifications s id] else [])
    ∧ awaiting w'
      = (if persist
         then <[next w := await_persistModifications]> (delete n (awaiting w))
         else delete n (awaiting w))
    ∧ state w' = state w.
Proof.
  intros Hr Ha. pose proof (reachable_inv w Hr) as [Hu _ _ _ _].
  eexists.
  split; [apply (step_settled w n _ fulfilled _ Ha eq_refl)|].
  rewrite handle_idle; unfold _updateCurrentPerspectiveWith_resume; monad;
    destruct persist; fields; rewrite ?app_nil_r; auto.
Qed.

(** X13.  A notification of the workbench that is not suppressed, on a bar
    with a storage, a selection and a baseline: when the layout equals the
    baseline but for the selection, nothing happens at all; otherwise the
    layout is sent to [storage.update] under the selected id, not to be
    persisted, and the baseline moves only when that update is done. *)
Theorem autosave_on_change (w : World) (b : Workbench)
    (s : IPerspectiveStorage) (id : string) (lastState : IWorkbenchState) :
  reachable w → _workbench w = Some b →
  _ignoreStateChangeCounter w = 0%Z →
  Props.storage (props w) = Some s →
  State.selectedPerspectiveId (state w) = Some id →
  _lastState w = Some lastState →
  ∃ w',
    step (WorkbenchChanged b) w = Some w'
    ∧ if areWorkbenchStatesEqualIgnoringSelection lastState (layout w b)
      then w' = w
      else
        trace w' = trace w ++ [storage_update s id (layout w b)]
        ∧ awaiting w'
          = <[next w := await_update s id (layout w b) false]> (awaiting w)
        ∧ _lastState w' = Some lastState
        ∧ state w' = state w.
Proof.
  intros Hr Hw Hc Hs Hsel Hl.
  pose proof (reachable_inv w Hr) as [Hu _ _ Hwb _].
  assert (Hb : Props.workbench (props w) = Some b).
  { destruct (mounted w); congruence. }
  eexists. split; [cbn [step]; rewrite decide_True by exact Hw; reflexivity|].
  assert (Hrun := autosave_run w b s id lastState ltac:(lia) Hb Hs Hsel Hl).
  rewrite handle_idle; rewrite Hrun; clear Hrun;
    destruct (areWorkbenchStatesEqualIgnoringSelection lastState (layout w b));
    unfold parked; fields; auto.
Qed.

(** ** Completions that change the state *)

Lemma loads_selectedPerspectiveId p s v :
  loads p (merge s [selectedPerspectiveId_ v]) = loads p s.
Proof. reflexivity. Qed.

(** X14.  When a [storage.load] is done on a mounted bar with a workbench,
    the state of the perspective is restored on the workbench, the layout
    that the workbench then reports becomes the baseline, and the loaded
    id becomes the selection, unless the props dictate the selection; the
    list, the error flag and the in-flight marker are as before, and no
    call is made to the storage. *)
Theorem load_completion (w : World) (n : nat) (id : string)
    (perspective : IPerspective) (b : Workbench) :
  reachable w → mounted w = true →
  Props.workbench (props w) = Some b →
  awaiting w !! n = Some (await_load id) →
  ∃ w',
    step (Settled n (loaded perspective)) w = Some w'
    ∧ trace w'
      = trace w ++ [workbench_restoreState b (Perspective.state perspective)]
    ∧ layout w' b = restored w (Perspective.state perspective)
    ∧ _lastState w' = Some (layout w' b)
    ∧ State.selectedPerspectiveId (state w')
      = match Props.selectedPerspectiveId (props w) with
        | Some v => v
        | None => Some id
        end
    ∧ State.perspectives (state w') = State.perspectives (state w)
    ∧ State.error (state w') = State.error (state w)
    ∧ State.promise (state w') = State.promise (state w)
    ∧ awaiting w' = delete n (awaiting w).
Proof.
  intros Hr Hm Hb Ha. pose proof (reachable_inv w Hr) as [Hu _ Hs Hw _].
  pose proof (reachable_rested w Hr) as [_ Rl].
  rewrite Hm in Hs, Hw. specialize (Rl Hm).
  eexists. split; [apply (step_settled w n _ (loaded perspective) _ Ha eq_refl)|].
  unfold handle, _loadPerspectiveById_resume. monad. fields.
  rewrite Hb. fields. rewrite decide_True by reflexivity. fields.
  rewrite Hm. fields. rewrite Hu. cbn [app].
  match goal with |- context [settle 3 ?x] => set (w1 := x) end.
  destruct (settled_fields w1) as ([_ _ _ Fl Fy _ _] & _ & _ & _ & H);
    [exact Hm | exact Hs | exact Hw | discriminate |].
  assert (Hr1 : rendering w1 =
                derive (props w)
                  (merge (state w) [selectedPerspectiveId_ (Some id)]))
    by reflexivity.
  assert (Hl1 : loads (props w1) (rendering w1) = None).
  { rewrite Hr1, loads_derive, loads_selectedPerspectiveId. exact Rl. }
  rewrite Hl1 in H. destruct H as (Hst & Ht & Haw & _).
  rewrite Hst, Ht, Haw, Fl, Fy, Hr1.
  rewrite derive_selectedPerspectiveId, derive_perspectives, derive_error,
    derive_promise.
  unfold w1. fields. rewrite decide_True by reflexivity. auto 10.
Qed.




(** ** The page *)

(** X17.  In the page of a bar with a list, the [i]-th child of the bar is
    the load button of the [i]-th perspective.  Its class is
    [wb-perspective-bar-item], followed by [wb-perspective-selected]
    exactly when its id is the selected one, followed by
    [wb-perspective-modified] exactly when the bar has a storage that
    marks it as modified; its badge is visible exactly in that case; its
    button shows the label of the perspective and calls
    [_onPerspectiveButtonClicked] with its id.  The bar has two more
    children than perspectives. *)
Theorem page_load_button (w : World) (l : list (string * IPerspective))
    (i : nat) (id : string) (perspective : IPerspective) :
  State.perspectives (state w) = Some l →
  l !! i = Some (id, perspective) →
  let selected :=
    bool_decide (State.selectedPerspectiveId (state w) = Some id) in
  let modified :=
    match Props.storage (props w) with
    | Some storage => isModified w storage id
    | None => false
    end in
  ∃ children,
    page w = div "wb-perspective-bar" children
    ∧ length children = length l + 2
    ∧ children !! i
      = Some
          (div ("wb-perspective-bar-item"
                ++ (if selected then " wb-perspective-selected" else "")
                ++ (if modified then " wb-perspective-modified" else ""))%string
             [button "wb-perspective-bar-load-button" None
                (Some (_onPerspectiveButtonClicked id))
                (Some (Perspective.label perspective));
              Badge "wb-badge" (Some modified) [-3; -3]%Z]).
Proof.
  intros Hp Hi selected modified. eexists. split; [reflexivity|].
  rewrite (render_loaded w l Hp). split.
  - rewrite length_map, length_app, length_map. reflexivity.
  - rewrite map_app, lookup_app_l
      by (rewrite !length_map; eapply lookup_lt_Some, Hi).
    change (map expand ?x) with (expand <$> x).
    rewrite list_lookup_fmap.
    change (map ?f l) with (f <$> l). rewrite list_lookup_fmap, Hi.
    cbn [fmap option_fmap option_map fst snd expand].
    fold selected. fold modified.
    destruct selected, modified; reflexivity.
Qed.

(** X18.  The page of a bar without a list: after a failure, one reload
    button, labelled with the error message of the props or, when they
    have none, with "Error while loading — click to reload", which calls
    [_forceReload]; otherwise the text "Loading..." while an enumeration
    is in flight, and nothing when none is. *)
Theorem page_without_list (w : World) :
  State.perspectives (state w) = None →
  page w
  = div "wb-perspective-bar"
      (if State.error (state w) then
         [div "wb-perspective-bar-item"
            [button "wb-perspective-bar-reload-button" None
               (Some _forceReload)
               (Some (default "Error while loading — click to reload"%string
                        (Props.errorMessage (props w))))]]
       else if bool_decide (State.promise (state w) ≠ None)
            then [span "Loading..."]
            else []).
Proof.
  intros Hp. unfold page. rewrite (render_unloaded w Hp).
  destruct (State.error (state w)).
  - cbn [map expand]. unfold Components.ReloadPerspectivesButton.
    destruct (Props.errorMessage (props w)); reflexivity.
  - destruct (bool_decide _); reflexivity.
Qed.

(** ** When an enumeration starts *)

Ltac benign :=
  intros;
  match goal with w : World |- _ => open_world w end;
  handlers; monad; fields; subst; cases;
  intros q Hq; fields; unfold loads in *; fields;
  solve [ exact Hq
        | repeat case_match; simplify_eq; reflexivity || discriminate ].

Lemma benign_click id w :
  updates w = [] → Benign (_onPerspectiveButtonClicked id w).2.
Proof. benign. Qed.
Lemma benign_new w : updates w = [] → Benign (_createNewPerspective w).2.
Proof. benign. Qed.
Lemma benign_save w :
  updates w = [] → Benign (_persistModificationsOfCurrentPerspective w).2.
Proof. benign. Qed.
Lemma benign_storageChanged w :
  updates w = [] → Benign (_onStorageChanged w).2.
Proof. benign. Qed.
Lemma benign_workbenchChanged w :
  updates w = [] → Benign (_onWorkbenchChanged w).2.
Proof. benign. Qed.
Lemma benign_resume a r m w :
  resume a r = Some m → ¬ (a = await_map ∧ r = rejected) →
  updates w = [] → Benign (m w).2.
Proof.
  intros H Hn. destruct a, r; cbn [resume] in H; simplify_eq;
    try (exfalso; apply Hn; split; reflexivity); benign.
Qed.

Lemma handle_benign m w :
  Inv w → Rested w →
  Steady w (m w).2 → Calm w (m w).2 → Logged w (m w).2 → Benign (m w).2 →
  enumerations (trace (handle m w)) = enumerations (trace w).
Proof.
  intros [Hu _ Hs Hw _] [_ Rl] [Sp Sm Ss Sw _ Su _ _] [Cs _ _] [_ _ Le _] HB.
  unfold handle.
  destruct (updates (m w).2) as [|u us] eqn:Hu'.
  - rewrite settle_idle by exact Hu'. exact Le.
  - destruct (mounted w) eqn:Hm; [|specialize (Su eq_refl); congruence].
    destruct (settled_fields (m w).2) as (_ & _ & _ & _ & H).
    + congruence.
    + rewrite Ss, Sp. exact Hs.
    + rewrite Sw, Sp. exact Hw.
    + rewrite Hu'. discriminate.
    + assert (Hl : loads (props (m w).2) (rendering (m w).2) = None).
      { unfold rendering. rewrite loads_derive. apply HB.
        rewrite Cs, Sp. apply Rl. reflexivity. }
      rewrite Hl in H. destruct H as (_ & Ht & _). rewrite Ht. exact Le.
Qed.

(** X19.  The bar starts an enumeration only on a render that brings
    another storage, on a click on the reload button, and on the failure
    of an enumeration: any other event (a click, a notification of the
    storage or of the workbench, the completion of a load, a save or an
    update, the success of an enumeration, a render that keeps the
    storage, unmounting) leaves the enumerations as they were. *)
Theorem enumeration_only_when_provoked (w w' : World) (e : Event) :
  reachable w → step e w = Some w' → ¬ provokes e w →
  enumerations (trace w') = enumerations (trace w).
Proof.
  intros Hr Hstep Hn.
  pose proof (reachable_inv w Hr) as HI.
  pose proof (reachable_rested w Hr) as HR.
  pose proof (inv_updates _ HI) as Hu.
  destruct e; cbn [step provokes] in Hstep, Hn.
  - destruct (mounted w) eqn:Hm; [|discriminate].
    assert (Hp : Props.storage p = Props.storage (props w)).
    { destruct (decide (Props.storage p = Props.storage (props w)));
        [assumption|contradiction]. }
    destruct (rendered_keeping_storage w p Hr Hm Hp) as (H1 & Hrx & Hl).
    cbn [step] in H1. rewrite Hm in H1. rewrite H1 in Hstep. simplify_eq.
    destruct (round_fields (set_props p w) Hm) as (_ & _ & _ & _ & _ & Ht & _).
    rewrite Ht, Hrx. change (props (set_props p w)) with p. rewrite Hl.
    rewrite !enumerations_app, enumerations_subscriptionChange,
      enumerations_listenerChange.
    cbn [app]. apply app_nil_r.
  - destruct (mounted w) eqn:Hm; [|discriminate]. simplify_eq.
    open_world w.
    cbv [componentWillUnmount _setStorage _setWorkbench _forceReload
         _cancelLoading].
    monad. fields. cases; rewrite ?enumerations_app; cbn [enumerations omap];
      rewrite ?app_nil_r; reflexivity.
  - destruct (offers _ w); simplify_eq.
    apply handle_benign;
      auto using steady_click, calm_click, logged_click, benign_click.
  - destruct (offers _ w); simplify_eq.
    apply handle_benign;
      auto using steady_new, calm_new, logged_new, benign_new.
  - destruct (offers _ w); simplify_eq.
    apply handle_benign;
      auto using steady_save, calm_save, logged_save, benign_save.
  - exfalso. apply Hn. exact I.
  - case_decide; simplify_eq.
    apply handle_benign;
      auto using steady_storageChanged, calm_storageChanged,
        logged_storageChanged, benign_storageChanged.
  - case_decide; simplify_eq.
    apply handle_benign;
      auto using steady_workbenchChanged, calm_workbenchChanged,
        logged_workbenchChanged, benign_workbenchChanged.
  - simplify_eq. reflexivity.
  - simplify_eq. reflexivity.
  - destruct (awaiting w !! n) as [a|] eqn:Ha; [|discriminate].
    cbn [mbind option_bind] in Hstep.
    destruct (resume a r) as [m|] eqn:Hres; [|discriminate].
    cbn [mbind option_bind] in Hstep. simplify_eq.
    set (w0 := set_awaiting (delete n (awaiting w)) w).
    change (enumerations (trace w)) with (enumerations (trace w0)).
    apply handle_benign.
    + destruct HI as [? Hc Hs Hw Hnx]. split; unfold w0; fields; auto.
      intros k b Hl. apply lookup_delete_Some in Hl as [_ Hl]. eauto.
    + destruct HR. split; assumption.
    + eapply steady_resume, Hres.
    + eapply calm_resume, Hres.
    + eapply logged_resume, Hres.
    + eapply benign_resume; [exact Hres| |exact Hu].
      intros [-> ->]. apply Hn. reflexivity.
Qed.

(** ** Failures and removals *)

(** X20.  When a promise that the bar awaits, other than an enumeration,
    is rejected (a load, a save, an update, a revert, a prompt), the bar is
    left exactly as it was: no call, no diagnostic, no error flag, no
    retry, and the baseline and the selection stay. *)
Theorem rejection_changes_nothing (w : World) (n : nat) (a : Await) :
  reachable w → awaiting w !! n = Some a → a ≠ await_map →
  step (Settled n rejected) w
  = Some (set_awaiting (delete n (awaiting w)) w).
Proof.
  intros Hr Ha Hne. pose proof (reachable_inv w Hr) as [Hu _ _ _ _].
  assert (Hres : resume a rejected = Some (throw Rejection))
    by (destruct a; [contradiction|reflexivity..]).
  rewrite (step_settled w n a rejected _ Ha Hres).
  rewrite handle_idle; [reflexivity|exact Hu].
Qed.

(** X21.  When a mounted bar that had a storage is rendered without one,
    it unsubscribes from the old storage, forgets the list and the error,
    starts no enumeration, and shows nothing. *)
Theorem storage_removed (w : World) (p : IPerspectiveBarProps)
    (s : IPerspectiveStorage) :
  reachable w → mounted w = true →
  Props.storage (props w) = Some s → Props.storage p = None →
  ∃ w',
    step (Rendered p) w = Some w'
    ∧ trace w'
      = trace w ++ [storage_unsubscribe s]
        ++ listenerChange (Props.workbench (props w)) (Props.workbench p)
    ∧ _storage w' = None
    ∧ State.perspectives (state w') = None
    ∧ State.error (state w') = false
    ∧ State.promise (state w') = None
    ∧ awaiting w' = awaiting w
    ∧ render w' = [].
Proof.
  intros Hr Hm Hold Hnew. pose proof (reachable_inv w Hr) as [Hu _ Hs Hw _].
  rewrite Hm in Hs, Hw.
  eexists. split; [cbn [step]; rewrite Hm; reflexivity|].
  rewrite handle_lifecycle.
  change (afterUpdate (reconcile (set_props p w))) with (round (set_props p w)).
  set (x := set_props p w).
  destruct (round_fields x Hm)
    as ([Fp Fm _ _ _ _ _] & Hst & Hs1 & Hw1 & Hu1 & Ht1 & Ha1 & Hn1).
  assert (Hrx : rendering x = derive p (state w)).
  { unfold rendering, x. fields. rewrite Hu. reflexivity. }
  change (props x) with p in *. change (_storage x) with (_storage w) in *.
  change (_workbench x) with (_workbench w) in *.
  change (awaiting x) with (awaiting w) in *.
  change (trace x) with (trace w) in *.
  assert (Hl0 : ∀ st, loads p st = None).
  { intros st. unfold loads. rewrite Hnew. reflexivity. }
  rewrite Hl0, Hs, Hold, Hnew, Hw in *.
  rewrite decide_False in Hu1 by discriminate.
  change (subscriptionChange (Some s) None) with [storage_unsubscribe s] in Ht1.
  cbn [app] in Hu1. rewrite app_nil_r in Ht1.
  destruct (settled_fields (round x)) as (_ & _ & Hs2 & _ & H);
    [ rewrite Fm; exact Hm | rewrite Hs1, Fp, Hnew; reflexivity
    | rewrite Hw1, Fp; reflexivity | rewrite Hu1; discriminate |].
  rewrite Fp, Hl0 in H. destruct H as (Hst2 & Ht2 & Ha2 & _).
  assert (Hr1 : rendering (round x)
                = derive p (merge (derive p (state w))
                              (reloadPayload (reconcile x)))).
  { unfold rendering. rewrite Fp, Hst, Hu1, Hrx. reflexivity. }
  unfold render.
  rewrite Hst2, Ht2, Ha2, Ht1, Ha1, Hs2, Hs1, Hr1.
  rewrite derive_perspectives, derive_error, derive_promise.
  unfold reloadPayload. fields. auto 10.
Qed.

(** ** The error flag and the list, when failures arrive in time *)

Lemma exclusive_derive p s : Exclusive s → Exclusive (derive p s).
Proof.
  unfold Exclusive.
  rewrite derive_error, derive_perspectives, derive_promise. auto.
Qed.

Ltac exclusive :=
  intros; apply exclusive_derive;
  match goal with w : World |- _ => open_world w end;
  handlers; monad; fields; subst; cases;
  unfold Exclusive in *; fields;
  solve [ assumption
        | split; intros; solve [ discriminate | congruence | tauto ] ].

Lemma exclusive_click id w :
  updates w = [] → Exclusive (state w) →
  Exclusive (rendering (_onPerspectiveButtonClicked id w).2).
Proof. unfold rendering. exclusive. Qed.
Lemma exclusive_new w :
  updates w = [] → Exclusive (state w) →
  Exclusive (rendering (_createNewPerspective w).2).
Proof. unfold rendering. exclusive. Qed.
Lemma exclusive_save w :
  updates w = [] → Exclusive (state w) →
  Exclusive (rendering (_persistModificationsOfCurrentPerspective w).2).
Proof. unfold rendering. exclusive. Qed.
Lemma exclusive_reload w :
  updates w = [] → Exclusive (state w) →
  Exclusive (rendering (_forceReload w).2).
Proof. unfold rendering. exclusive. Qed.
Lemma exclusive_storageChanged w :
  updates w = [] → Exclusive (state w) →
  Exclusive (rendering (_onStorageChanged w).2).
Proof. unfold rendering. exclusive. Qed.
Lemma exclusive_workbenchChanged w :
  updates w = [] → Exclusive (state w) →
  Exclusive (rendering (_onWorkbenchChanged w).2).
Proof. unfold rendering. exclusive. Qed.

Lemma exclusive_resume a r m w :
  resume a r = Some m →
  (a = await_map → r = rejected → State.promise (state w) ≠ None) →
  updates w = [] → Exclusive (state w) →
  Exclusive (rendering (m w).2).
Proof.
  intros H Ht. unfold rendering.
  destruct a, r; cbn [resume] in H; simplify_eq;
    first [specialize (Ht eq_refl eq_refl) | clear Ht]; exclusive.
Qed.

Lemma exclusive_settled (w : World) :
  mounted w = true →
  _storage w = Props.storage (props w) →
  _workbench w = Props.workbench (props w) →
  updates w ≠ [] →
  Exclusive (rendering w) → Exclusive (state (settle 3 w)).
Proof.
  intros Hm Hs Hw Hu H.
  destruct (settled_fields w Hm Hs Hw Hu) as (_ & _ & _ & _ & Hf).
  destruct (loads (props w) (rendering w)) as [s|] eqn:Hl;
    destruct Hf as (-> & _); [|exact H].
  apply exclusive_derive. unfold loads in Hl.
  destruct (Props.storage (props w)); [|discriminate].
  destruct (State.promise (rendering w)); [discriminate|].
  destruct (State.perspectives (rendering w)) eqn:Hp; [discriminate|].
  split; intros _; exact Hp.
Qed.

Lemma exclusive_handle m w :
  Inv w → Steady w (m w).2 → Calm w (m w).2 →
  Exclusive (state w) → Exclusive (rendering (m w).2) →
  Exclusive (state (handle m w)).
Proof.
  intros [Hu _ Hs Hw _] [Sp Sm Ss Sw _ Su _ _] [Cs _ _] H Hr.
  unfold handle.
  destruct (updates (m w).2) as [|u us] eqn:Hu'.
  - rewrite settle_idle by exact Hu'. rewrite Cs. exact H.
  - destruct (mounted w) eqn:Hm; [|specialize (Su eq_refl); congruence].
    apply exclusive_settled.
    + congruence.
    + rewrite Ss, Sp. exact Hs.
    + rewrite Sw, Sp. exact Hw.
    + rewrite Hu'. discriminate.
    + exact Hr.
Qed.

Lemma exclusive_reloadPayload s c :
  Exclusive (merge s [counter_ c; error_ false; perspectives_ None;
                      promise_ None]).
Proof. split; intros; reflexivity. Qed.

Lemma exclusive_lifecycle x :
  updates x = [] → mounted x = true → Exclusive (state x) →
  Exclusive (state (settle 3 (round x))).
Proof.
  intros Hu Hm H.
  destruct (round_fields x Hm)
    as ([Fp Fm _ _ _ _ _] & Hst & Hs1 & Hw1 & Hu1 & _).
  assert (Hrx : rendering x = derive (props x) (state x)).
  { unfold rendering. rewrite Hu. reflexivity. }
  assert (Hx : Exclusive (rendering x))
    by (rewrite Hrx; apply exclusive_derive, H).
  destruct (updates (round x)) as [|u us] eqn:Hu'.
  - rewrite settle_idle by exact Hu'. rewrite Hst. exact Hx.
  - apply exclusive_settled.
    + congruence.
    + rewrite Hs1, Fp. reflexivity.
    + rewrite Hw1, Fp. reflexivity.
    + rewrite Hu'. discriminate.
    + unfold rendering at 1. rewrite Hu', Fp, Hst, Hu1.
      apply exclusive_derive. rewrite foldl_app.
      assert (H1 : Exclusive
                 (foldl merge (rendering x)
                    (if decide (_storage x = Props.storage (props x))
                     then [] else [reloadPayload (reconcile x)]))).
      { case_decide; cbn [foldl]; [exact Hx|].
        apply exclusive_reloadPayload. }
      destruct (loads (props x) (rendering x)) eqn:Hl; [|exact H1].
      cbn [foldl merge assign].
      set (s0 := foldl merge (rendering x) _) in *.
      assert (Hp : State.perspectives s0 = None).
      { unfold s0. case_decide; cbn [foldl]; [|reflexivity].
        unfold loads in Hl.
        destruct (Props.storage (props x)); [|discriminate].
        destruct (State.promise (rendering x)); [discriminate|].
        destruct (State.perspectives (rendering x)); [discriminate|].
        reflexivity. }
      split; intros _; exact Hp.
Qed.

Lemma exclusive_step e w w' :
  Inv w → Exclusive (state w) → timely e w → step e w = Some w' →
  Exclusive (state w').
Proof.
  intros HI H Ht Hstep. pose proof (inv_updates _ HI) as Hu.
  destruct e; cbn [step] in Hstep.
  - destruct (mounted w) eqn:Hm; [|discriminate]. simplify_eq.
    rewrite handle_lifecycle.
    change (afterUpdate (reconcile (set_props p w))) with (round (set_props p w)).
    apply exclusive_lifecycle; [exact Hu | exact Hm | exact H].
  - destruct (mounted w) eqn:Hm; [|discriminate]. simplify_eq.
    revert H. open_world w.
    cbv [componentWillUnmount _setStorage _setWorkbench _forceReload
         _cancelLoading].
    monad. fields. cases; auto.
  - destruct (offers _ w); simplify_eq.
    apply exclusive_handle;
      auto using steady_click, calm_click, exclusive_click.
  - destruct (offers _ w); simplify_eq.
    apply exclusive_handle; auto using steady_new, calm_new, exclusive_new.
  - destruct (offers _ w); simplify_eq.
    apply exclusive_handle; auto using steady_save, calm_save, exclusive_save.
  - destruct (offers _ w); simplify_eq.
    apply exclusive_handle;
      auto using steady_reload, calm_reload, exclusive_reload.
  - case_decide; simplify_eq.
    apply exclusive_handle;
      auto using steady_storageChanged, calm_storageChanged,
        exclusive_storageChanged.
  - case_decide; simplify_eq.
    apply exclusive_handle;
      auto using steady_workbenchChanged, calm_workbenchChanged,
        exclusive_workbenchChanged.
  - simplify_eq. exact H.
  - simplify_eq. exact H.
  - destruct (awaiting w !! n) as [a|] eqn:Ha; [|discriminate].
    cbn [mbind option_bind] in Hstep.
    destruct (resume a r) as [m|] eqn:Hres; [|discriminate].
    cbn [mbind option_bind] in Hstep. simplify_eq.
    set (w0 := set_awaiting (delete n (awaiting w)) w).
    apply exclusive_handle.
    + destruct HI as [? Hc Hs Hw Hnx]. split; unfold w0; fields; auto.
      intros k b Hl. apply lookup_delete_Some in Hl as [_ Hl]. eauto.
    + eapply steady_resume, Hres.
    + eapply calm_resume, Hres.
    + exact H.
    + eapply exclusive_resume; [exact Hres| |exact Hu|exact H].
      intros -> ->. cbn [timely] in Ht. change (state w0) with (state w).
      rewrite (Ht Ha). discriminate.
Qed.

Lemma exclusive_mount p layout0 restored0 isModified0 :
  Exclusive (state (mount p layout0 restored0 isModified0)).
Proof.
  unfold mount, handle. rewrite componentDidMount_run.
  change (afterUpdate (reconcile ?x)) with (round x).
  apply exclusive_lifecycle; [reflexivity..|].
  split; intros; reflexivity.
Qed.

Lemma exclusive_run es w w' :
  Inv w → Exclusive (state w) → timelyRun es w → run es w = Some w' →
  Exclusive (state w').
Proof.
  revert w. induction es as [|e es IH]; intros w HI H Ht Hrun;
    cbn [run timelyRun] in *.
  - simplify_eq. exact H.
  - destruct Ht as [Ht Hts].
    destruct (step e w) as [w1|] eqn:Hs; [|discriminate].
    cbn [mbind option_bind] in Hrun.
    eapply IH; [ | | exact Hts | exact Hrun];
      eauto using step_inv, exclusive_step.
Qed.

(** X24.  On a run from mounting in which every failure of an enumeration
    is timely (it arrives while the in-flight marker designates that
    enumeration), the error flag and a list of perspectives exclude each
    other at the end of the run, and so do the in-flight marker and a
    list. *)
Theorem error_excludes_list_on_timely_runs (p : IPerspectiveBarProps)
    (layout0 : Workbench → IWorkbenchState)
    (restored0 : IWorkbenchState → IWorkbenchState)
    (isModified0 : IPerspectiveStorage → string → bool)
    (es : list Event) (w : World) :
  run es (mount p layout0 restored0 isModified0) = Some w →
  timelyRun es (mount p layout0 restored0 isModified0) →
  (State.error (state w) = true → State.perspectives (state w) = None)
  ∧ (State.promise (state w) ≠ None → State.perspectives (state w) = None).
Proof.
  intros Hrun Ht.
  exact (exclusive_run es _ w (mount_inv p layout0 restored0 isModified0)
           (exclusive_mount p layout0 restored0 isModified0) Ht Hrun).
Qed.


(** The run that sets the error flag beside a list is not timely: the
    failure of the enumeration of 8 arrives when the marker has been
    cleared by the superseded enumeration of 7. *)
Lemma untimely_failure :
  ¬ timelyRun [Rendered props8;
               Settled 0 (enumerated [("A"%string, perspectiveA)]);
               Settled 1 rejected] (bar props7).
Proof.
  assert (H1 : step (Rendered props8) (bar props7)
               = Some (after [Rendered props8] (bar props7)))
    by (vm_compute; reflexivity).
  assert (H2 : step (Settled 0 (enumerated [("A"%string, perspectiveA)]))
                 (after [Rendered props8] (bar props7))
               = Some (after [Rendered props8;
                              Settled 0 (enumerated [("A"%string, perspectiveA)])]
                         (bar props7)))
    by (vm_compute; reflexivity).
  assert (Ha : awaiting (after [Rendered props8;
                                Settled 0 (enumerated [("A"%string, perspectiveA)])]
                           (bar props7)) !! 1 = Some await_map)
    by (vm_compute; reflexivity).
  assert (Hp : State.promise
                 (state (after [Rendered props8;
                                Settled 0 (enumerated [("A"%string, perspectiveA)])]
                           (bar props7))) = None)
    by (vm_compute; reflexivity).
  cbn [timelyRun]. rewrite H1. rewrite H2. intros (_ & _ & H & _).
  cbn [timely] in H. specialize (H Ha). congruence.
Qed.

(** ** Instances *)

Ltac reached es :=
  exists props7, (λ _, plain), (λ st, st), (λ _ _, false), es;
  vm_compute; reflexivity.

Lemma workbench_change_suppressed_witness :
  reachable loadingBar ∧ mounted loadingBar = true
  ∧ ∃ w1 w2,
      step (Settled 1 (loaded perspectiveA)) loadingBar = Some w1
      ∧ step (WorkbenchChanged 1) w1 = Some w2
      ∧ _ignoreStateChangeCounter w2 = _ignoreStateChangeCounter loadingBar
      ∧ trace w2 = trace w1.
Proof.
  assert (Hr : reachable loadingBar)
    by reached [Settled 0 (enumerated [("A"%string, perspectiveA)]);
                PerspectiveButtonClicked "A"].
  split; [exact Hr|]. split; [vm_compute; reflexivity|].
  destruct (proj2 workbench_change_suppressed loadingBar 1 "A"%string
              perspectiveA 1 Hr)
    as (w1 & w2 & H1 & _ & H2 & H3 & H4 & _);
    [vm_compute; reflexivity ..|].
  exists w1, w2. auto.
Defined.

Lemma revert_only_after_confirmation_witness :
  reachable modifiedBar ∧ offers (isLoadButton "A") modifiedBar = true
  ∧ State.selectedPerspectiveId (state modifiedBar) = Some "A"%string
  ∧ isModified modifiedBar 7 "A" = true
  ∧ ∃ w1, step (PerspectiveButtonClicked "A") modifiedBar = Some w1
      ∧ trace w1 = trace modifiedBar ++ [environment_confirm 1 revertQuestion].
Proof.
  assert (Hr : reachable modifiedBar)
    by reached [Settled 0 (enumerated [("A"%string, perspectiveA)]);
                PerspectiveButtonClicked "A";
                Settled 1 (loaded perspectiveA);
                Marked (λ _ _, true)].
  assert (Hs : Props.storage (props modifiedBar) = Some 7)
    by (vm_compute; reflexivity).
  assert (Hb : Props.workbench (props modifiedBar) = Some 1)
    by (vm_compute; reflexivity).
  assert (Hm : isModified modifiedBar 7 "A" = true)
    by (vm_compute; reflexivity).
  split; [exact Hr|]. split; [vm_compute; reflexivity|].
  split; [vm_compute; reflexivity|]. split; [exact Hm|].
  destruct (revert_only_after_confirmation modifiedBar "A" Hr)
    as (w1 & H1 & H2); [vm_compute; reflexivity ..|].
  rewrite Hs, Hm, Hb in H2. destruct H2 as [H2 _].
  exists w1. split; [exact H1 | exact H2].
Defined.


Lemma no_storage_is_diagnosed_witness :
  Props.storage (props (bar propsNoStorage)) = None
  ∧ _loadPerspectiveById "A" (bar propsNoStorage)
    = (Returned (), warned noStorageWhileLoading (bar propsNoStorage)).
Proof.
  assert (H : Props.storage (props (bar propsNoStorage)) = None)
    by (vm_compute; reflexivity).
  split; [exact H|].
  exact (proj1 (no_storage_is_diagnosed (bar propsNoStorage) H) "A"%string).
Defined.

Lemma storage_swap_reloads_witness :
  reachable loadedBar ∧ mounted loadedBar = true
  ∧ Props.storage props8 = Some 8
  ∧ Props.storage (props loadedBar) ≠ Some 8
  ∧ ∃ w', step (Rendered props8) loadedBar = Some w'
      ∧ State.perspectives (state w') = None
      ∧ enumerations (trace w') = enumerations (trace loadedBar) ++ [8].
Proof.
  assert (Hr : reachable loadedBar)
    by reached [Settled 0 (enumerated [("A"%string, perspectiveA)])].
  assert (Hne : Props.storage (props loadedBar) ≠ Some 8)
    by (vm_compute; discriminate).
  split; [exact Hr|]. split; [vm_compute; reflexivity|].
  split; [reflexivity|]. split; [exact Hne|].
  destruct (storage_swap_reloads loadedBar props8 8 Hr)
    as (w' & H1 & H2 & _ & _ & _ & _ & _ & H3 & _);
    [vm_compute; reflexivity | reflexivity | exact Hne |].
  exists w'. auto.
Defined.


Lemma enumeration_failure_witness :
  reachable (bar props7) ∧ mounted (bar props7) = true
  ∧ awaiting (bar props7) !! 0 = Some await_map
  ∧ ∃ w', step (Settled 0 rejected) (bar props7) = Some w'
      ∧ State.error (state w') = true.
Proof.
  assert (Hr : reachable (bar props7)) by reached (@nil Event).
  assert (Hm : mounted (bar props7) = true) by (vm_compute; reflexivity).
  assert (Ha : awaiting (bar props7) !! 0 = Some await_map)
    by (vm_compute; reflexivity).
  split; [exact Hr|]. split; [exact Hm|]. split; [exact Ha|].
  destruct (proj1 enumeration_failure (bar props7) 0 Hr Hm Ha)
    as (w' & H1 & H2 & _).
  exists w'. auto.
Defined.

Lemma equalIgnoringSelection_spec_witness :
  areWorkbenchStatesEqualIgnoringSelection
    (JObj [("selection"%string, JNum 1); ("content"%string, JStr "a")])
    (JObj [("content"%string, JStr "a"); ("selection"%string, JNum 2)])
  = true.
Proof.
  apply (proj1 equalIgnoringSelection_spec).
  intros k Hk. cbn [assoc].
  destruct (String.eqb_spec k "selection"); [contradiction|].
  destruct (String.eqb_spec k "content"); reflexivity.
Defined.

Lemma autosave_needs_selection_and_baseline_witness :
  reachable loadedBar ∧ baselineRequested (trace loadedBar) = false
  ∧ _workbench loadedBar = Some 1
  ∧ ∃ w', step (WorkbenchChanged 1) loadedBar = Some w'
      ∧ trace w' = trace loadedBar.
Proof.
  assert (Hr : reachable loadedBar)
    by reached [Settled 0 (enumerated [("A"%string, perspectiveA)])].
  split; [exact Hr|]. split; [vm_compute; reflexivity|].
  split; [vm_compute; reflexivity|].
  destruct (proj2 (proj2 autosave_needs_selection_and_baseline) loadedBar 1 Hr)
    as (w' & H1 & H2 & _); [vm_compute; reflexivity ..|].
  exists w'. auto.
Defined.

(** *** Instances of the further properties *)

Ltac reached_from p es :=
  exists p, (λ _, plain), (λ st, st), (λ _ _, false), es;
  vm_compute; reflexivity.

Lemma subscriptions_follow_props_witness :
  reachable unmountedBar
  ∧ subscribed (trace unmountedBar) = Some None
  ∧ listening (trace unmountedBar) = Some None.
Proof.
  assert (Hr : reachable unmountedBar)
    by reached_from props7
         [Settled 0 (enumerated [("A"%string, perspectiveA)]);
          PerspectiveButtonClicked "A"; Unmounted].
  split; [exact Hr|]. exact (subscriptions_follow_props unmountedBar Hr).
Defined.

Lemma suppression_bounded_witness :
  reachable restoredBar
  ∧ (0 ≤ _ignoreStateChangeCounter restoredBar
     ≤ restorations (trace restoredBar))%Z.
Proof.
  assert (Hr : reachable restoredBar)
    by reached_from props7
         [Settled 0 (enumerated [("A"%string, perspectiveA)]);
          PerspectiveButtonClicked "A"; Settled 1 (loaded perspectiveA)].
  split; [exact Hr|]. exact (suppression_bounded restoredBar Hr).
Defined.

Lemma controlled_selection_follows_props_witness :
  reachable controlledBar
  ∧ Props.selectedPerspectiveId (props controlledBar) = Some (Some "A"%string)
  ∧ State.selectedPerspectiveId (state controlledBar) = Some "A"%string.
Proof.
  assert (Hr : reachable controlledBar)
    by reached_from propsControlled
         [Settled 0 (enumerated [("A"%string, perspectiveA);
                                 ("B"%string, perspectiveB)])].
  assert (Hp : Props.selectedPerspectiveId (props controlledBar)
               = Some (Some "A"%string)) by (vm_compute; reflexivity).
  split; [exact Hr|]. split; [exact Hp|].
  exact (controlled_selection_follows_props controlledBar _ Hr Hp).
Defined.

Lemma storage_keeps_bar_busy_witness :
  reachable failedBar ∧ mounted failedBar = true
  ∧ Props.storage (props failedBar) = Some 7
  ∧ State.perspectives (state failedBar) = None
  ∧ State.promise (state failedBar) ≠ None
  ∧ render failedBar ≠ [].
Proof.
  assert (Hr : reachable failedBar)
    by reached_from props7 [Settled 0 rejected].
  assert (Hm : mounted failedBar = true) by (vm_compute; reflexivity).
  assert (Hs : Props.storage (props failedBar) = Some 7)
    by (vm_compute; reflexivity).
  assert (Hp : State.perspectives (state failedBar) = None)
    by (vm_compute; reflexivity).
  destruct (storage_keeps_bar_busy failedBar 7 Hr Hm Hs) as [H1 H2].
  auto 10.
Defined.

Lemma render_keeping_storage_witness :
  reachable loadedBar ∧ mounted loadedBar = true
  ∧ step (Rendered (props loadedBar)) loadedBar = Some loadedBar.
Proof.
  assert (Hr : reachable loadedBar)
    by reached_from props7 [Settled 0 (enumerated [("A"%string, perspectiveA)])].
  assert (Hm : mounted loadedBar = true) by (vm_compute; reflexivity).
  split; [exact Hr|]. split; [exact Hm|].
  destruct (render_keeping_storage loadedBar (props loadedBar) Hr Hm eq_refl)
    as (w' & H1 & _ & _ & _ & _ & _ & H2).
  rewrite H1, (H2 eq_refl). reflexivity.
Defined.

Lemma unmount_effects_witness :
  reachable loadedBar ∧ mounted loadedBar = true
  ∧ ∃ w', step Unmounted loadedBar = Some w'
      ∧ trace w'
        = trace loadedBar ++ [storage_unsubscribe 7; workbench_off 1].
Proof.
  assert (Hr : reachable loadedBar)
    by reached_from props7 [Settled 0 (enumerated [("A"%string, perspectiveA)])].
  assert (Hm : mounted loadedBar = true) by (vm_compute; reflexivity).
  assert (Hs : Props.storage (props loadedBar) = Some 7)
    by (vm_compute; reflexivity).
  assert (Hb : Props.workbench (props loadedBar) = Some 1)
    by (vm_compute; reflexivity).
  split; [exact Hr|]. split; [exact Hm|].
  destruct (unmount_effects loadedBar Hr Hm) as (w' & H1 & _ & H2 & _).
  rewrite Hs, Hb in H2. exists w'. split; [exact H1 | exact H2].
Defined.

Lemma unmounted_is_inert_witness :
  reachable unmountedBar ∧ mounted unmountedBar = false
  ∧ step (Settled 1 (loaded perspectiveA)) unmountedBar
    = Some (after [Settled 1 (loaded perspectiveA)] unmountedBar)
  ∧ state (after [Settled 1 (loaded perspectiveA)] unmountedBar)
    = state unmountedBar.
Proof.
  assert (Hr : reachable unmountedBar)
    by reached_from props7
         [Settled 0 (enumerated [("A"%string, perspectiveA)]);
          PerspectiveButtonClicked "A"; Unmounted].
  assert (Hm : mounted unmountedBar = false) by (vm_compute; reflexivity).
  assert (Hs : step (Settled 1 (loaded perspectiveA)) unmountedBar
               = Some (after [Settled 1 (loaded perspectiveA)] unmountedBar))
    by (vm_compute; reflexivity).
  split; [exact Hr|]. split; [exact Hm|]. split; [exact Hs|].
  exact (proj1 (unmounted_is_inert unmountedBar _ _ Hr Hm Hs)).
Defined.

Lemma click_on_unselected_witness :
  reachable controlledBar ∧ offers (isLoadButton "B") controlledBar = true
  ∧ State.selectedPerspectiveId (state controlledBar) ≠ Some "B"%string
  ∧ ∃ w', step (PerspectiveButtonClicked "B") controlledBar = Some w'
      ∧ trace w' = trace controlledBar ++ [props_onChange "B"]
      ∧ awaiting w' = awaiting controlledBar.
Proof.
  assert (Hr : reachable controlledBar)
    by reached_from propsControlled
         [Settled 0 (enumerated [("A"%string, perspectiveA);
                                 ("B"%string, perspectiveB)])].
  assert (Ho : offers (isLoadButton "B") controlledBar = true)
    by (vm_compute; reflexivity).
  assert (Hn : State.selectedPerspectiveId (state controlledBar)
               ≠ Some "B"%string) by (vm_compute; discriminate).
  assert (Hc : Props.onChange (props controlledBar) = Some (λ _, true))
    by (vm_compute; reflexivity).
  split; [exact Hr|]. split; [exact Ho|]. split; [exact Hn|].
  destruct (click_on_unselected controlledBar "B" Hr Ho Hn)
    as (w' & H1 & _ & _ & H2).
  rewrite Hc in H2. cbv zeta in H2. cbn beta iota in H2.
  exists w'. split; [exact H1 | exact H2].
Defined.

Lemma new_click_drafts_witness :
  reachable loadedBar ∧ offers isNewButton loadedBar = true
  ∧ Props.workbench (props loadedBar) = Some 1
  ∧ ∃ w', step NewPerspectiveButtonClicked loadedBar = Some w'
      ∧ state w' = state loadedBar.
Proof.
  assert (Hr : reachable loadedBar)
    by reached_from props7 [Settled 0 (enumerated [("A"%string, perspectiveA)])].
  assert (Ho : offers isNewButton loadedBar = true)
    by (vm_compute; reflexivity).
  assert (Hb : Props.workbench (props loadedBar) = Some 1)
    by (vm_compute; reflexivity).
  split; [exact Hr|]. split; [exact Ho|]. split; [exact Hb|].
  destruct (new_click_drafts loadedBar 1 Hr Ho Hb) as (w' & H1 & _ & _ & H2 & _).
  exists w'. split; [exact H1 | exact H2].
Defined.

Lemma save_click_updates_witness :
  reachable modifiedBar ∧ offers isEnabledSaveButton modifiedBar = true
  ∧ Props.workbench (props modifiedBar) = Some 1
  ∧ State.selectedPerspectiveId (state modifiedBar) = Some "A"%string
  ∧ ∃ s w', Props.storage (props modifiedBar) = Some s
      ∧ step SavePerspectiveButtonClicked modifiedBar = Some w'
      ∧ trace w'
        = trace modifiedBar ++ [storage_update s "A" (layout modifiedBar 1)].
Proof.
  assert (Hr : reachable modifiedBar)
    by reached_from props7
         [Settled 0 (enumerated [("A"%string, perspectiveA)]);
          PerspectiveButtonClicked "A"; Settled 1 (loaded perspectiveA);
          Marked (λ _ _, true)].
  assert (Ho : offers isEnabledSaveButton modifiedBar = true)
    by (vm_compute; reflexivity).
  assert (Hb : Props.workbench (props modifiedBar) = Some 1)
    by (vm_compute; reflexivity).
  assert (Hsel : State.selectedPerspectiveId (state modifiedBar)
                 = Some "A"%string) by (vm_compute; reflexivity).
  split; [exact Hr|]. split; [exact Ho|]. split; [exact Hb|].
  split; [exact Hsel|].
  destruct (save_click_updates modifiedBar 1 "A" Hr Ho Hb Hsel)
    as (s & w' & H1 & _ & H2 & H3 & _).
  exists s, w'. auto.
Defined.

Lemma update_completion_witness :
  reachable updatingBar
  ∧ awaiting updatingBar !! 2
    = Some (await_update 7 "A" (Perspective.state perspectiveA) true)
  ∧ ∃ w', step (Settled 2 fulfilled) updatingBar = Some w'
      ∧ _lastState w' = Some (Perspective.state perspectiveA)
      ∧ trace w'
        = trace updatingBar ++ [storage_persistModifications 7 "A"].
Proof.
  assert (Hr : reachable updatingBar)
    by reached_from props7
         [Settled 0 (enumerated [("A"%string, perspectiveA)]);
          PerspectiveButtonClicked "A"; Settled 1 (loaded perspectiveA);
          Marked (λ _ _, true); SavePerspectiveButtonClicked].
  assert (Ha : awaiting updatingBar !! 2
               = Some (await_update 7 "A" (Perspective.state perspectiveA) true))
    by (vm_compute; reflexivity).
  split; [exact Hr|]. split; [exact Ha|].
  destruct (update_completion updatingBar 2 7 "A" _ true Hr Ha)
    as (w' & H1 & H2 & H3 & _).
  exists w'. auto.
Defined.

Lemma autosave_on_change_witness :
  reachable rearrangedBar ∧ _workbench rearrangedBar = Some 1
  ∧ _ignoreStateChangeCounter rearrangedBar = 0%Z
  ∧ _lastState rearrangedBar = Some (Perspective.state perspectiveA)
  ∧ ∃ w', step (WorkbenchChanged 1) rearrangedBar = Some w'
      ∧ trace w' = trace rearrangedBar ++ [storage_update 7 "A" rearranged].
Proof.
  assert (Hr : reachable rearrangedBar)
    by reached_from props7
         [Settled 0 (enumerated [("A"%string, perspectiveA)]);
          PerspectiveButtonClicked "A"; Settled 1 (loaded perspectiveA);
          WorkbenchChanged 1; Rearranged 1 rearranged].
  assert (Hw : _workbench rearrangedBar = Some 1) by (vm_compute; reflexivity).
  assert (Hc : _ignoreStateChangeCounter rearrangedBar = 0%Z)
    by (vm_compute; reflexivity).
  assert (Hs : Props.storage (props rearrangedBar) = Some 7)
    by (vm_compute; reflexivity).
  assert (Hsel : State.selectedPerspectiveId (state rearrangedBar)
                 = Some "A"%string) by (vm_compute; reflexivity).
  assert (Hl : _lastState rearrangedBar = Some (Perspective.state perspectiveA))
    by (vm_compute; reflexivity).
  assert (Hy : layout rearrangedBar 1 = rearranged)
    by (vm_compute; reflexivity).
  assert (He : areWorkbenchStatesEqualIgnoringSelection
                 (Perspective.state perspectiveA) rearranged = false)
    by (vm_compute; reflexivity).
  split; [exact Hr|]. split; [exact Hw|]. split; [exact Hc|].
  split; [exact Hl|].
  destruct (autosave_on_change rearrangedBar 1 7 "A" _ Hr Hw Hc Hs Hsel Hl)
    as (w' & H1 & H2).
  rewrite Hy, He in H2. destruct H2 as (H2 & _).
  exists w'. split; [exact H1 | exact H2].
Defined.

Lemma load_completion_witness :
  reachable loadingBar ∧ mounted loadingBar = true
  ∧ Props.workbench (props loadingBar) = Some 1
  ∧ awaiting loadingBar !! 1 = Some (await_load "A")
  ∧ ∃ w', step (Settled 1 (loaded perspectiveA)) loadingBar = Some w'
      ∧ State.selectedPerspectiveId (state w') = Some "A"%string
      ∧ _lastState w' = Some (layout w' 1).
Proof.
  assert (Hr : reachable loadingBar)
    by reached_from props7
         [Settled 0 (enumerated [("A"%string, perspectiveA)]);
          PerspectiveButtonClicked "A"].
  assert (Hm : mounted loadingBar = true) by (vm_compute; reflexivity).
  assert (Hb : Props.workbench (props loadingBar) = Some 1)
    by (vm_compute; reflexivity).
  assert (Ha : awaiting loadingBar !! 1 = Some (await_load "A"))
    by (vm_compute; reflexivity).
  assert (Hp : Props.selectedPerspectiveId (props loadingBar) = None)
    by (vm_compute; reflexivity).
  split; [exact Hr|]. split; [exact Hm|]. split; [exact Hb|].
  split; [exact Ha|].
  destruct (load_completion loadingBar 1 "A" perspectiveA 1 Hr Hm Hb Ha)
    as (w' & H1 & _ & _ & H2 & H3 & _).
  rewrite Hp in H3. exists w'. auto.
Defined.



Lemma page_load_button_witness :
  State.perspectives (state restoredBar) = Some [("A"%string, perspectiveA)]
  ∧ ∃ children,
      page restoredBar = div "wb-perspective-bar" children
      ∧ children !! 0
        = Some
            (div "wb-perspective-bar-item wb-perspective-selected"
               [button "wb-perspective-bar-load-button" None
                  (Some (_onPerspectiveButtonClicked "A")) (Some "A"%string);
                Badge "wb-badge" (Some false) [-3; -3]%Z]).
Proof.
  assert (Hp : State.perspectives (state restoredBar)
               = Some [("A"%string, perspectiveA)])
    by (vm_compute; reflexivity).
  assert (Hs : bool_decide (State.selectedPerspectiveId (state restoredBar)
                            = Some "A"%string) = true)
    by (vm_compute; reflexivity).
  assert (Hm : match Props.storage (props restoredBar) with
               | Some storage => isModified restoredBar storage "A"
               | None => false
               end = false) by (vm_compute; reflexivity).
  split; [exact Hp|].
  destruct (page_load_button restoredBar _ 0 "A" perspectiveA Hp eq_refl)
    as (children & H1 & _ & H2).
  rewrite Hs, Hm in H2. exists children. split; [exact H1 | exact H2].
Defined.

Lemma page_without_list_witness :
  State.perspectives (state failedBar) = None
  ∧ page failedBar
    = div "wb-perspective-bar"
        [div "wb-perspective-bar-item"
           [button "wb-perspective-bar-reload-button" None (Some _forceReload)
              (Some "Error while loading — click to reload"%string)]].
Proof.
  assert (Hp : State.perspectives (state failedBar) = None)
    by (vm_compute; reflexivity).
  assert (He : State.error (state failedBar) = true)
    by (vm_compute; reflexivity).
  assert (Hm : Props.errorMessage (props failedBar) = None)
    by (vm_compute; reflexivity).
  split; [exact Hp|].
  rewrite (page_without_list failedBar Hp), He, Hm. reflexivity.
Defined.

Lemma enumeration_only_when_provoked_witness :
  reachable loadedBar
  ∧ step (StorageChanged 7) loadedBar
    = Some (after [StorageChanged 7] loadedBar)
  ∧ ¬ provokes (StorageChanged 7) loadedBar
  ∧ enumerations (trace (after [StorageChanged 7] loadedBar))
    = enumerations (trace loadedBar).
Proof.
  assert (Hr : reachable loadedBar)
    by reached_from props7 [Settled 0 (enumerated [("A"%string, perspectiveA)])].
  assert (Hs : step (StorageChanged 7) loadedBar
               = Some (after [StorageChanged 7] loadedBar))
    by (vm_compute; reflexivity).
  assert (Hn : ¬ provokes (StorageChanged 7) loadedBar) by (intros []).
  split; [exact Hr|]. split; [exact Hs|]. split; [exact Hn|].
  exact (enumeration_only_when_provoked loadedBar _ _ Hr Hs Hn).
Defined.

Lemma rejection_changes_nothing_witness :
  reachable loadingBar
  ∧ awaiting loadingBar !! 1 = Some (await_load "A")
  ∧ step (Settled 1 rejected) loadingBar
    = Some (set_awaiting (delete 1 (awaiting loadingBar)) loadingBar).
Proof.
  assert (Hr : reachable loadingBar)
    by reached_from props7
         [Settled 0 (enumerated [("A"%string, perspectiveA)]);
          PerspectiveButtonClicked "A"].
  assert (Ha : awaiting loadingBar !! 1 = Some (await_load "A"))
    by (vm_compute; reflexivity).
  split; [exact Hr|]. split; [exact Ha|].
  apply (rejection_changes_nothing loadingBar 1 _ Hr Ha). discriminate.
Defined.

Lemma storage_removed_witness :
  reachable loadedBar ∧ mounted loadedBar = true
  ∧ Props.storage (props loadedBar) = Some 7
  ∧ Props.storage propsNoStorage = None
  ∧ ∃ w', step (Rendered propsNoStorage) loadedBar = Some w'
      ∧ trace w' = trace loadedBar ++ [storage_unsubscribe 7]
      ∧ render w' = [].
Proof.
  assert (Hr : reachable loadedBar)
    by reached_from props7 [Settled 0 (enumerated [("A"%string, perspectiveA)])].
  assert (Hm : mounted loadedBar = true) by (vm_compute; reflexivity).
  assert (Hs : Props.storage (props loadedBar) = Some 7)
    by (vm_compute; reflexivity).
  assert (Hb : Props.workbench (props loadedBar) = Some 1)
    by (vm_compute; reflexivity).
  split; [exact Hr|]. split; [exact Hm|]. split; [exact Hs|].
  split; [reflexivity|].
  destruct (storage_removed loadedBar propsNoStorage 7 Hr Hm Hs eq_refl)
    as (w' & H1 & H2 & _ & _ & _ & _ & _ & H3).
  rewrite Hb in H2.
  change (listenerChange (Some 1) (Props.workbench propsNoStorage))
    with (@nil Effect) in H2.
  rewrite app_nil_r in H2.
  exists w'. auto.
Defined.

Lemma error_excludes_list_on_timely_runs_witness :
  run [Settled 0 rejected] (bar props7) = Some failedBar
  ∧ timelyRun [Settled 0 rejected] (bar props7)
  ∧ State.error (state failedBar) = true
  ∧ State.perspectives (state failedBar) = None.
Proof.
  unfold bar.
  assert (Hrun : run [Settled 0 rejected]
                   (mount props7 (λ _, plain) (λ st, st) (λ _ _, false))
                 = Some failedBar)
    by (vm_compute; reflexivity).
  assert (Ht : timelyRun [Settled 0 rejected]
                 (mount props7 (λ _, plain) (λ st, st) (λ _ _, false))).
  { unfold timelyRun, timely. split; [intros _; vm_compute; reflexivity|].
    destruct (step (Settled 0 rejected) _); exact I. }
  assert (He : State.error (state failedBar) = true)
    by (vm_compute; reflexivity).
  split; [exact Hrun|]. split; [exact Ht|]. split; [exact He|].
  destruct (error_excludes_list_on_timely_runs props7 (λ _, plain)
              (λ st, st) (λ _ _, false) [Settled 0 rejected] failedBar
              Hrun Ht) as [H1 _].
  exact (H1 He).
Defined.
